(** * The crank-driven voice-note player

    A shallow embedding of the page script of the voice-note widget: a
    draggable crank whose angular motion drives an audio element, a bar
    visualizer and a photo slideshow.  Two revisions of the script are
    covered: the current one (with the simulated visualizer and the
    slideshow) in [Module Player], and the earlier [voice-note-app/script.js]
    in [Module VoiceNoteApp], which shares the drag handlers and the frame
    physics.

    Numbers.  The script is modelled in two layers.  The first layer takes
    a JavaScript number as an exact rational: a decimal literal denotes its
    decimal value, [Math.PI] the value of the binary64 constant, and
    arithmetic is exact.  It carries the properties that do not depend on
    how a result is rounded: the control flow of the handlers, the class
    lists of the photos, the promises of the transport, and bounds that the
    script enforces by comparisons alone.  There [NaN] is modelled only
    where the script can meet it: an element read past the end of an array
    and an unknown [audio.duration]; such a value is an [option Q] with
    [None] for [NaN].  The second layer ([Module Number] and
    [Module Binary64]) takes a number as the host does, an IEEE 754 binary64
    value with every operation rounded to nearest, ties to even; it carries
    the properties that speak of computed values and of the thresholds 0.001,
    0.01 and 0.02.  [Math.atan2] is in neither layer: the angle delivered by
    [getAngle] is an input of the drag handlers. *)

From Stdlib Require Import QArith Qround Qabs Lqa ZArith Lia Bool.
From Stdlib Require Import SpecFloat.
From stdpp Require Import gmap strings list.

#[local] Open Scope Q_scope.

(** ** JavaScript numbers and [Math] *)

Module JS.

(** [x < y] on numbers, as a boolean. *)
Definition ltb (x y : Q) : bool := if Qlt_le_dec x y then true else false.
(** [x > y]. *)
Definition gtb (x y : Q) : bool := ltb y x.

(** [Math.PI]: the binary64 number 0x1.921fb54442d18p+1. *)
Definition Math_PI : Q := 884279719003555 # 281474976710656.

Definition Math_abs (x : Q) : Q := Qabs x.
Definition Math_min (x y : Q) : Q := if ltb y x then y else x.
Definition Math_max (x y : Q) : Q := if ltb x y then y else x.
Definition Math_floor (x : Q) : Z := Qfloor x.

End JS.

Infix "<?" := JS.ltb (at level 70, no associativity) : Q_scope.
Infix ">?" := JS.gtb (at level 70, no associativity) : Q_scope.

(** ** The crank: drag state and rotation state

    The module-level variables [isDragging], [currentAngle],
    [lastMouseAngle], [velocity] and [lastTime], together with the rotation
    (in degrees) last written to [crankSpinner.style.transform]. *)

Record Crank : Type := mkCrank {
  isDragging : bool;
  currentAngle : Q;
  lastMouseAngle : Q;
  velocity : Q;
  lastTime : Q;
  spinnerRotation : Q
}.

Definition FRICTION : Q := 0.95.
(** Declared by the script and never read. *)
Definition VELOCITY_SCALE : Q := 0.5.

(** The state when the script has just been installed. *)
Definition initialCrank : Crank :=
  {| isDragging := false; currentAngle := 0; lastMouseAngle := 0;
     velocity := 0; lastTime := 0; spinnerRotation := 0 |}.

(** [updateCrankVisual]. *)
Definition updateCrankVisual (c : Crank) : Crank :=
  let deg := currentAngle c * (180 / JS.Math_PI) in
  {| isDragging := isDragging c; currentAngle := currentAngle c;
     lastMouseAngle := lastMouseAngle c; velocity := velocity c;
     lastTime := lastTime c; spinnerRotation := deg |}.

(** [startDrag], on the crank variables; [angle] is
    [getAngle(clientX, clientY)].  (The rest of the handler sets up and
    unlocks the audio and leaves these variables alone.) *)
Definition startDrag (angle : Q) (c : Crank) : Crank :=
  {| isDragging := true; currentAngle := currentAngle c;
     lastMouseAngle := angle; velocity := velocity c;
     lastTime := lastTime c; spinnerRotation := spinnerRotation c |}.

(** The two wrap-around tests of [moveDrag], applied to the raw
    [delta = angle - lastMouseAngle]. *)
Definition wrapDelta (delta : Q) : Q :=
  let delta := if delta >? JS.Math_PI then delta - JS.Math_PI * 2 else delta in
  let delta := if delta <? - JS.Math_PI then delta + JS.Math_PI * 2 else delta in
  delta.

(** [moveDrag]; [angle] is [getAngle(clientX, clientY)]. *)
Definition moveDrag (angle : Q) (c : Crank) : Crank :=
  if negb (isDragging c) then c
  else
    let delta := wrapDelta (angle - lastMouseAngle c) in
    updateCrankVisual
      {| isDragging := isDragging c;
         currentAngle := currentAngle c + delta;
         lastMouseAngle := angle;
         velocity := delta * 5;
         lastTime := lastTime c;
         spinnerRotation := spinnerRotation c |}.

(** [endDrag]. *)
Definition endDrag (c : Crank) : Crank :=
  {| isDragging := false; currentAngle := currentAngle c;
     lastMouseAngle := lastMouseAngle c; velocity := velocity c;
     lastTime := lastTime c; spinnerRotation := spinnerRotation c |}.

(** The first half of [loop]: the time stamp, the friction step taken when
    the crank is not held, and the cut-off that zeroes a tiny velocity. *)
Definition loopPhysics (time : Q) (c : Crank) : Crank :=
  let c := {| isDragging := isDragging c; currentAngle := currentAngle c;
              lastMouseAngle := lastMouseAngle c; velocity := velocity c;
              lastTime := time; spinnerRotation := spinnerRotation c |} in
  let c :=
    if negb (isDragging c) then
      let v := velocity c * FRICTION in
      updateCrankVisual
        {| isDragging := isDragging c; currentAngle := currentAngle c + v;
           lastMouseAngle := lastMouseAngle c; velocity := v;
           lastTime := lastTime c; spinnerRotation := spinnerRotation c |}
    else c in
  if JS.Math_abs (velocity c) <? 0.001 then
    {| isDragging := isDragging c; currentAngle := currentAngle c;
       lastMouseAngle := lastMouseAngle c; velocity := 0;
       lastTime := lastTime c; spinnerRotation := spinnerRotation c |}
  else c.

(** [speed], as [loop] reads it after the physics. *)
Definition speedOf (c : Crank) : Q := JS.Math_abs (velocity c).

(** ** Exceptions

    The only exception the modelled code can raise itself is the
    [TypeError] of reading a property of [undefined].  A handler returns the
    state it leaves together with the exception that ended it, if any. *)

Inductive JSError : Type := TypeError.

(** [a[i]] for a number [i] that is an integer: [undefined] ([None]) outside
    the array. *)
Definition elementAt {A : Type} (a : list A) (i : Z) : option A :=
  if (i <? 0)%Z then None else a !! Z.to_nat i.

(** ** The audio element and its transport *)

Record Audio : Type := mkAudio {
  paused : bool;
  playbackRate : Q;
  volume : Q;
  currentTime : Q;
  duration : option Q   (* [None]: [NaN], the duration is not known *)
}.

Definition setPaused (b : bool) (a : Audio) : Audio :=
  {| paused := b; playbackRate := playbackRate a; volume := volume a;
     currentTime := currentTime a; duration := duration a |}.

Definition setRateVolume (rate vol : Q) (a : Audio) : Audio :=
  {| paused := paused a; playbackRate := rate; volume := vol;
     currentTime := currentTime a; duration := duration a |}.

(** How the host answers [audio.play()]: by a promise that fulfils
    (playback begins), by a promise that rejects (autoplay is denied and the
    element stays paused), or, in legacy hosts, by starting playback and
    returning [undefined]. *)
Inductive PlayAnswer : Type :=
| Fulfils
| Rejects (reason : string)
| NoPromise.

Inductive Settlement : Type :=
| Fulfilled
| Rejected (reason : string).

(** What a rejection handler attached with [.catch] does. *)
Inductive Handler : Type :=
| Ignore                      (* [e => { }] *)
| ConsoleLog (prefix : string). (* [error => console.log(prefix + error)] *)

(** A promise returned during a frame, with the handler [.catch] attached
    to it, if any. *)
Record Promise : Type := mkPromise {
  settlement : Settlement;
  onRejected : option Handler
}.

(** [audio.play()]: the element after the call and the value returned. *)
Definition audioPlay (ans : PlayAnswer) (a : Audio) : Audio * option Settlement :=
  match ans with
  | Fulfils => (setPaused false a, Some Fulfilled)
  | Rejects reason => (a, Some (Rejected reason))
  | NoPromise => (setPaused false a, None)
  end.

(** [audio.pause()]. *)
Definition audioPause (a : Audio) : Audio := setPaused true a.

(** The reasons of the rejections no handler took: what the host reports
    as unhandled once the promises of a frame have settled. *)
Fixpoint unhandledRejections (ps : list Promise) : list string :=
  match ps with
  | [] => []
  | p :: ps =>
      match settlement p, onRejected p with
      | Rejected reason, None => reason :: unhandledRejections ps
      | _, _ => unhandledRejections ps
      end
  end.

(** The lines the handlers write to the console when the promises settle. *)
Fixpoint consoleLines (ps : list Promise) : list string :=
  match ps with
  | [] => []
  | p :: ps =>
      match settlement p, onRejected p with
      | Rejected reason, Some (ConsoleLog prefix) =>
          String.append prefix reason :: consoleLines ps
      | _, _ => consoleLines ps
      end
  end.

(** The transport method a frame called, if any. *)
Inductive TransportCall : Type := CallPlay | CallPause.

(** What the audio part of a frame did besides changing the element. *)
Record AudioTrace : Type := mkAudioTrace {
  called : option TransportCall;
  promises : list Promise
}.

(** The rate and the volume [loop] computes from [speed]. *)
Definition rateOf (speed : Q) : Q :=
  let rate := 0.5 + (speed * 3) in
  let rate := if rate >? 1.5 then 1.5 else rate in
  let rate := if rate <? 0.8 then 0.8 else rate in
  rate.

Definition volumeOf (speed : Q) : Q := JS.Math_min 1 (speed * 5).

(** The "Audio Logic" block of [loop].  [handler] is the handler the
    revision attaches to a returned promise: both revisions attach one
    whenever [play()] returned a promise. *)
Definition loopAudio (handler : Handler) (ans : PlayAnswer) (speed : Q) (a : Audio)
  : Audio * AudioTrace :=
  if speed >? 0.02 then
    let '(a, tr) :=
      if paused a then
        let '(a, p) := audioPlay ans a in
        (a, {| called := Some CallPlay;
               promises := match p with
                           | Some s => [ {| settlement := s; onRejected := Some handler |} ]
                           | None => []
                           end |})
      else (a, {| called := None; promises := [] |}) in
    (setRateVolume (rateOf speed) (volumeOf speed) a, tr)
  else
    if negb (paused a) then
      (audioPause a, {| called := Some CallPause; promises := [] |})
    else (a, {| called := None; promises := [] |}).

(** The state the frame means the transport to be in: the state its call
    asks for, or the state it found when it made no call. *)
Definition intendedPlaying (before : Audio) (tr : AudioTrace) : bool :=
  match called tr with
  | Some CallPlay => true
  | Some CallPause => false
  | None => negb (paused before)
  end.

(** [progress], as [drawVisualizer] computes it. *)
Definition progressOf (a : Audio) : Q :=
  match duration a with
  | Some d => if d >? 0 then currentTime a / d else 0
  | None => 0
  end.

(** ** Canvas *)

Record Canvas : Type := mkCanvas {
  width : Q;
  height : Q
}.

(** One [ctx.fillRect(x, y, w, h)]; [y] and [h] are [NaN] ([None]) when the
    bar height is. *)
Record Rect : Type := mkRect {
  rx : Q;
  ry : option Q;
  rw : Q;
  rh : option Q
}.

Definition activeColor : string := "#db2777".
Definition inactiveColor : string := "#e5e7eb".

(** The colour stops of the progress gradient. *)
Definition gradientStops (progress : Q) : list (Q * string) :=
  let stopPoint := JS.Math_max 0 (JS.Math_min 1 progress) in
  [ (0, activeColor); (stopPoint, activeColor);
    (JS.Math_min 1 (stopPoint + 0.001), inactiveColor); (1, inactiveColor) ].

(** The analyser node; [setupAudio] sets its [fftSize] to 64. *)
Record Analyser : Type := mkAnalyser {
  fftSize : nat
}.

(** [analyser.frequencyBinCount]: half the FFT size. *)
Definition frequencyBinCount (an : Analyser) : nat := Nat.div (fftSize an) 2.

(** [new Uint8Array(n)] filled by [getByteFrequencyData]: the first [n]
    magnitudes of the host's snapshot, zero where the snapshot is shorter. *)
Definition byteFrequencyData (an : Analyser) (snapshot : list Z) : list Z :=
  resize (frequencyBinCount an) 0%Z snapshot.

(** What one call of [drawVisualizer] puts on the canvas: the gradient
    installed as fill style and the rectangles filled, in order. *)
Record Drawing : Type := mkDrawing {
  fillStyle : list (Q * string);
  bars : list Rect
}.

(** ** The current revision of the script *)

Module Player.

(** *** Slideshow

    [photos] is the node list of the [.photo] elements, each given by its
    class list; [currentPhotoIndex] is the script's variable. *)

Record Slideshow : Type := mkSlideshow {
  photos : list (gset string);
  currentPhotoIndex : Z
}.

(** The index [updatePhotos] computes for [n] photos. *)
Definition photoIndex (progress : Q) (n : Z) : Z :=
  let index := JS.Math_floor (progress * inject_Z n) in
  let index := if (index >=? n)%Z then (n - 1)%Z else index in
  let index := if (index <? 0)%Z then 0%Z else index in
  index.

(** [updatePhotos]: the slideshow it leaves, and the exception that ended
    it, if any. *)
Definition updatePhotos (progress : Q) (s : Slideshow) : Slideshow * option JSError :=
  let n := Z.of_nat (length (photos s)) in
  if (n =? 0)%Z then (s, None)
  else
    let index := photoIndex progress n in
    if negb (index =? currentPhotoIndex s)%Z then
      match elementAt (photos s) (currentPhotoIndex s) with
      | None => (s, Some TypeError)
      | Some old =>
          let ps := <[Z.to_nat (currentPhotoIndex s) := old ∖ {["active"]}]> (photos s) in
          match elementAt ps index with
          | None => ({| photos := ps; currentPhotoIndex := currentPhotoIndex s |},
                     Some TypeError)
          | Some new =>
              ({| photos := <[Z.to_nat index := new ∪ {["active"]}]> ps;
                  currentPhotoIndex := index |}, None)
          end
      end
    else (s, None).

(** The photo at index [k] carries the class [active] and no other photo
    does. *)
Definition OnlyActiveAt (ps : list (gset string)) (k : Z) : Prop :=
  (∃ p, elementAt ps k = Some p ∧ "active" ∈ p) ∧
  ∀ (i : nat) p, ps !! i = Some p → "active" ∈ p → Z.of_nat i = k.

(** The number of photos carrying the class [active]. *)
Definition activeCount (ps : list (gset string)) : nat :=
  length (filter (λ p : gset string, "active" ∈ p) ps).

(** *** Visualizer *)

Definition bufferLength : nat := 32.

(** What is fixed when the script is installed: the protocol test and the
    values [Math.random()] returned while [pseudoWaveform] was filled. *)
Record Page : Type := mkPage {
  isLocalFile : bool;
  startupRandom : nat → Q
}.

(** The array [pseudoWaveform]. *)
Definition pseudoWaveform (pg : Page) : list Q :=
  (λ i, startupRandom pg i * 50 + 10) <$> seq 0 bufferLength.

(** [dataArray] as [drawVisualizer] leaves it before the loop over the
    bars: [undefined] ([None]) unless the analyser is used. *)
Definition dataArrayOf (pg : Page) (analyser : option Analyser) (snapshot : list Z)
  : option (list Z) :=
  match analyser with
  | Some an => if negb (isLocalFile pg) then Some (byteFrequencyData an snapshot) else None
  | None => None
  end.

(** The two final tests on [barHeight]; on [NaN] both are false. *)
Definition clampBar (canvasHeight : Q) (barHeight : option Q) : option Q :=
  let barHeight :=
    match barHeight with
    | Some h => if h <? 4 then Some 4 else Some h
    | None => None
    end in
  match barHeight with
  | Some h => if h >? canvasHeight then Some canvasHeight else Some h
  | None => None
  end.

(** The body of the loop over the bars, up to the two clamping tests:
    the height of bar [i].  [random i] is what [Math.random()] returns
    when bar [i] asks for jitter. *)
Definition rawBarHeight (pg : Page) (analyser : option Analyser)
    (dataArray : option (list Z)) (random : nat → Q) (speed : Q) (i : nat) : option Q :=
  let barHeight : option Q := pseudoWaveform pg !! i in
  match analyser, negb (isLocalFile pg), dataArray with
  | Some _, true, Some data =>
      let index :=
        JS.Math_floor (inject_Z (Z.of_nat i)
                       * (inject_Z (Z.of_nat (length data)) / inject_Z (Z.of_nat bufferLength))) in
      let realHeight : option Q := (λ b, inject_Z b / 2) <$> elementAt data index in
      if speed >? 0.01 then realHeight else barHeight
  | _, _, _ =>
      if speed >? 0.02 then
        (λ h, h + (random i - 0.5) * (speed * 50)) <$> barHeight
      else barHeight
  end.

Definition barHeightAt (pg : Page) (analyser : option Analyser)
    (dataArray : option (list Z)) (random : nat → Q) (speed canvasHeight : Q) (i : nat)
  : option Q :=
  clampBar canvasHeight (rawBarHeight pg analyser dataArray random speed i).

(** The loop over the bars: the rectangles filled for the indices [ixs],
    the first one at abscissa [x]. *)
Fixpoint drawBars (pg : Page) (analyser : option Analyser) (dataArray : option (list Z))
    (random : nat → Q) (speed : Q) (cv : Canvas) (barWidth : Q) (x : Q) (ixs : list nat)
  : list Rect :=
  match ixs with
  | [] => []
  | i :: ixs =>
      let barHeight := barHeightAt pg analyser dataArray random speed (height cv) i in
      {| rx := x; ry := (λ h, height cv - h) <$> barHeight;
         rw := barWidth; rh := barHeight |}
      :: drawBars pg analyser dataArray random speed cv barWidth (x + (barWidth + 1)) ixs
  end.

(** What a frame reads from its environment. *)
Record FrameInput : Type := mkFrameInput {
  time : Q;                 (* the argument of [loop] *)
  playAnswer : PlayAnswer;  (* the host's answer, should [play()] be called *)
  snapshot : list Z;        (* the analyser's byte frequency data *)
  random : nat → Q          (* [Math.random()], per bar *)
}.

(** [drawVisualizer(speed)]: the canvas as the call leaves it, and the
    result of the call of [updatePhotos] that ends it. *)
Definition drawVisualizer (pg : Page) (inp : FrameInput) (analyser : option Analyser)
    (cv : Canvas) (a : Audio) (speed : Q) (s : Slideshow)
  : Drawing * (Slideshow * option JSError) :=
  let progress := progressOf a in
  let barWidth := (width cv / inject_Z (Z.of_nat bufferLength)) - 1 in
  let dataArray := dataArrayOf pg analyser (snapshot inp) in
  let rects :=
    drawBars pg analyser dataArray (random inp) speed cv barWidth 0 (seq 0 bufferLength) in
  ({| fillStyle := gradientStops progress; bars := rects |}, updatePhotos progress s).

(** *** The frame *)

Record World : Type := mkWorld {
  crank : Crank;
  audio : Audio;
  analyser : option Analyser;
  canvas : Canvas;
  slideshow : Slideshow
}.

(** What a frame has done to its environment. *)
Record Effects : Type := mkEffects {
  transport : AudioTrace;
  drawing : Drawing;
  thrown : option JSError;        (* the exception that left [loop], if any *)
  animationFrameRequested : bool  (* [requestAnimationFrame(loop)] was reached *)
}.

(** [loop(time)]. *)
Definition loop (pg : Page) (inp : FrameInput) (w : World) : World * Effects :=
  let c := loopPhysics (time inp) (crank w) in
  let speed := speedOf c in
  let '(a, tr) := loopAudio Ignore (playAnswer inp) speed (audio w) in
  let '(d, (s, e)) := drawVisualizer pg inp (analyser w) (canvas w) a speed (slideshow w) in
  ({| crank := c; audio := a; analyser := analyser w; canvas := canvas w; slideshow := s |},
   {| transport := tr; drawing := d; thrown := e;
      animationFrameRequested := match e with None => true | Some _ => false end |}).

(** The same frame input with another answer of the host to [play()]. *)
Definition withPlayAnswer (ans : PlayAnswer) (inp : FrameInput) : FrameInput :=
  {| time := time inp; playAnswer := ans; snapshot := snapshot inp;
     random := random inp |}.

(** The stored index is an index of the photo list, if there is a photo:
    [photos[currentPhotoIndex]] is an element. *)
Definition SlideshowReady (s : Slideshow) : Prop :=
  photos s = [] ∨ (0 <= currentPhotoIndex s < Z.of_nat (length (photos s)))%Z.

End Player.

(** ** The earlier revision, [voice-note-app/script.js] *)

Module VoiceNoteApp.

Record FrameInput : Type := mkFrameInput {
  time : Q;
  playAnswer : PlayAnswer;
  snapshot : list Z
}.

Record World : Type := mkWorld {
  crank : Crank;
  audio : Audio;
  isAudioSetup : bool;
  analyser : option Analyser;
  canvas : Canvas
}.

(** The loop over the bins: no clamping in this revision. *)
Fixpoint drawBars (dataArray : list Z) (cv : Canvas) (barWidth : Q) (x : Q) (ixs : list nat)
  : list Rect :=
  match ixs with
  | [] => []
  | i :: ixs =>
      let barHeight : option Q := (λ b, inject_Z b / 2) <$> dataArray !! i in
      {| rx := x; ry := (λ h, height cv - h) <$> barHeight;
         rw := barWidth; rh := barHeight |}
      :: drawBars dataArray cv barWidth (x + (barWidth + 1)) ixs
  end.

(** [drawVisualizer()]: what the call draws, if it draws at all, and the
    exception that ended it, if any.  Before the audio is set up the canvas
    is left as it is. *)
Definition drawVisualizer (inp : FrameInput) (w : World) (a : Audio)
  : option Drawing * option JSError :=
  if negb (isAudioSetup w) then (None, None)
  else
    match analyser w with
    | None => (None, Some TypeError)
    | Some an =>
        let bufferLength := frequencyBinCount an in
        let dataArray := byteFrequencyData an (snapshot inp) in
        let progress := progressOf a in
        let barWidth := (width (canvas w) / inject_Z (Z.of_nat bufferLength)) * 2.5 in
        (Some {| fillStyle := gradientStops progress;
                 bars := drawBars dataArray (canvas w) barWidth 0 (seq 0 bufferLength) |},
         None)
    end.

Record Effects : Type := mkEffects {
  transport : AudioTrace;
  drawing : option Drawing;
  thrown : option JSError;
  animationFrameRequested : bool
}.

Definition playbackPrevented : string := "Playback prevented (waiting for interaction): ".

(** [loop(time)]. *)
Definition loop (inp : FrameInput) (w : World) : World * Effects :=
  let c := loopPhysics (time inp) (crank w) in
  let speed := speedOf c in
  let '(a, tr) := loopAudio (ConsoleLog playbackPrevented) (playAnswer inp) speed (audio w) in
  let '(d, e) := drawVisualizer inp w a in
  ({| crank := c; audio := a; isAudioSetup := isAudioSetup w;
      analyser := analyser w; canvas := canvas w |},
   {| transport := tr; drawing := d; thrown := e;
      animationFrameRequested := match e with None => true | Some _ => false end |}).

(** The same frame input with another answer of the host to [play()]. *)
Definition withPlayAnswer (ans : PlayAnswer) (inp : FrameInput) : FrameInput :=
  {| time := time inp; playAnswer := ans; snapshot := snapshot inp |}.

(** [setupAudio] raises [isAudioSetup] only after it has stored the
    analyser. *)
Definition AnalyserReady (w : World) : Prop :=
  isAudioSetup w = true → is_Some (analyser w).

End VoiceNoteApp.

(** ** Reference definitions used in the statements *)

(** [clamp(x, lo, hi)], the usual composition of [Math.max] and
    [Math.min]. *)
Definition clamp (x lo hi : Q) : Q := JS.Math_min (JS.Math_max x lo) hi.

(** A filled rectangle whose height is a number, at most the canvas height,
    at least 4 if the canvas is that high, and the canvas height if not. *)
Definition BarClamped (canvasHeight : Q) (r : Rect) : Prop :=
  ∃ h, rh r = Some h ∧
       h <= canvasHeight ∧
       (4 <= canvasHeight → 4 <= h) ∧
       (canvasHeight < 4 → h = canvasHeight).

(** The frames of a crank left alone: [loopPhysics] at each time stamp. *)
Fixpoint coast (times : list Q) (c : Crank) : Crank :=
  match times with
  | [] => c
  | t :: times => coast times (loopPhysics t c)
  end.

(** ** The rest of the scripts: audio set-up, resizing, event handlers

    [getAngle] is left as an input ([Math.atan2]); [log] and the console are
    kept as the lines written. *)

(** The rotation on the page is the one [updateCrankVisual] writes for the
    current angle. *)
Definition Synced (c : Crank) : Prop :=
  spinnerRotation c == currentAngle c * (180 / JS.Math_PI).

(** [resizeCanvas]: the canvas takes the size of its box. *)
Definition resizeCanvas (offsetWidth offsetHeight : Q) : Canvas :=
  {| width := offsetWidth; height := offsetHeight |}.

(** [audioContext.state]. *)
Inductive ContextState : Type := Suspended | Running | Closed.

(** The statements of the [try] block of [setupAudio] that can throw: the
    constructor, [createAnalyser], [createMediaElementSource] and the two
    [connect] calls. *)
Inductive SetupStep : Type := NewContext | CreateAnalyser | CreateSource | ConnectNodes.

(** What the host does when the [try] block runs: the state of the context
    it constructs, the analyser [createAnalyser] returns, and the statement
    that throws, if any, with [e.message]. *)
Record SetupAnswer : Type := mkSetupAnswer {
  newContextState : ContextState;
  createdAnalyser : Analyser;
  failure : option (SetupStep * string)
}.

(** The [try] block of [setupAudio], on the variables [audioContext] and
    [analyser]: their values when the block is left, and [e.message] if it
    is left by an exception.  (The variable [source] is never read.) *)
Definition trySetup (ans : SetupAnswer) (ctx : option ContextState) (an : option Analyser)
  : option ContextState * option Analyser * option string :=
  match failure ans with
  | Some (NewContext, msg) => (ctx, an, Some msg)
  | Some (CreateAnalyser, msg) => (Some (newContextState ans), an, Some msg)
  | Some (CreateSource, msg) =>
      (Some (newContextState ans), Some (createdAnalyser ans), Some msg)
  | Some (ConnectNodes, msg) =>
      (Some (newContextState ans), Some (createdAnalyser ans), Some msg)
  | None => (Some (newContextState ans), Some {| fftSize := 64 |}, None)
  end.

(** *** The current revision *)

Module PlayerScript.

(** The variables of the script: those of a frame, [isAudioSetup] and
    [audioContext]. *)
Record Script : Type := mkScript {
  world : Player.World;
  isAudioSetup : bool;
  audioContext : option ContextState
}.

(** What a call of [setupAudio] does besides changing the variables. *)
Record SetupEffects : Type := mkSetupEffects {
  logged : list string;   (* the messages passed to [log] *)
  resumed : bool          (* [audioContext.resume()] was called *)
}.

Definition setAnalyser (an : option Analyser) (w : Player.World) : Player.World :=
  {| Player.crank := Player.crank w; Player.audio := Player.audio w;
     Player.analyser := an; Player.canvas := Player.canvas w;
     Player.slideshow := Player.slideshow w |}.

Definition setCrank (c : Crank) (w : Player.World) : Player.World :=
  {| Player.crank := c; Player.audio := Player.audio w;
     Player.analyser := Player.analyser w; Player.canvas := Player.canvas w;
     Player.slideshow := Player.slideshow w |}.

Definition setCanvas (cv : Canvas) (w : Player.World) : Player.World :=
  {| Player.crank := Player.crank w; Player.audio := Player.audio w;
     Player.analyser := Player.analyser w; Player.canvas := cv;
     Player.slideshow := Player.slideshow w |}.

Definition setAudio (a : Audio) (w : Player.World) : Player.World :=
  {| Player.crank := Player.crank w; Player.audio := a;
     Player.analyser := Player.analyser w; Player.canvas := Player.canvas w;
     Player.slideshow := Player.slideshow w |}.

(** [setupAudio]. *)
Definition setupAudio (pg : Player.Page) (ans : SetupAnswer) (s : Script)
  : Script * SetupEffects :=
  if isAudioSetup s then
    (s, {| logged := [];
           resumed := match audioContext s with
                      | Some Suspended => true
                      | _ => false
                      end |})
  else if Player.isLocalFile pg then
    ({| world := world s; isAudioSetup := true; audioContext := audioContext s |},
     {| logged := []; resumed := false |})
  else
    let '(ctx, an, err) := trySetup ans (audioContext s) (Player.analyser (world s)) in
    ({| world := setAnalyser an (world s); isAudioSetup := true; audioContext := ctx |},
     {| logged := [ match err with
                    | None => "Audio setup complete (Web Mode)"
                    | Some msg => String.append "Audio setup failed: " msg
                    end ];
        resumed := false |}).

(** What can happen to the page: the listeners the script installs, the
    animation frame, and the host changing the audio element (time passes,
    the clip ends, its duration becomes known) or the state of the audio
    context. *)
Inductive Event : Type :=
| Gesture (ans : SetupAnswer)                (* [click], [touchstart] on the document *)
| MouseDown (angle : Q) (ans : SetupAnswer)  (* [mousedown], [touchstart] on the crank *)
| MouseMove (angle : Q)                      (* [mousemove], [touchmove] *)
| MouseUp                                    (* [mouseup], [touchend] *)
| Resize (offsetWidth offsetHeight : Q)      (* [resize] *)
| Frame (inp : Player.FrameInput)            (* the callback of [requestAnimationFrame] *)
| Media (a : Audio)
| ContextChange (st : ContextState).

(** The handler of an event, on the variables. *)
Definition handle (pg : Player.Page) (ev : Event) (s : Script) : Script :=
  match ev with
  | Gesture ans => fst (setupAudio pg ans s)
  | MouseDown angle ans =>
      fst (setupAudio pg ans
             {| world := setCrank (startDrag angle (Player.crank (world s))) (world s);
                isAudioSetup := isAudioSetup s; audioContext := audioContext s |})
  | MouseMove angle =>
      {| world := setCrank (moveDrag angle (Player.crank (world s))) (world s);
         isAudioSetup := isAudioSetup s; audioContext := audioContext s |}
  | MouseUp =>
      {| world := setCrank (endDrag (Player.crank (world s))) (world s);
         isAudioSetup := isAudioSetup s; audioContext := audioContext s |}
  | Resize w h =>
      {| world := setCanvas (resizeCanvas w h) (world s);
         isAudioSetup := isAudioSetup s; audioContext := audioContext s |}
  | Frame inp =>
      {| world := fst (Player.loop pg inp (world s));
         isAudioSetup := isAudioSetup s; audioContext := audioContext s |}
  | Media a =>
      {| world := setAudio a (world s);
         isAudioSetup := isAudioSetup s; audioContext := audioContext s |}
  | ContextChange st =>
      {| world := world s; isAudioSetup := isAudioSetup s;
         audioContext := match audioContext s with
                         | Some _ => Some st
                         | None => None
                         end |}
  end.

Fixpoint run (pg : Player.Page) (evs : list Event) (s : Script) : Script :=
  match evs with
  | [] => s
  | ev :: evs => run pg evs (handle pg ev s)
  end.

(** The variables when the script has been installed, for the photos, the
    canvas box and the audio element of the page. *)
Definition initial (photos : list (gset string)) (cv : Canvas) (a : Audio) : Script :=
  {| world := {| Player.crank := initialCrank; Player.audio := a;
                 Player.analyser := None; Player.canvas := cv;
                 Player.slideshow := {| Player.photos := photos;
                                        Player.currentPhotoIndex := 0 |} |};
     isAudioSetup := false; audioContext := None |}.

End PlayerScript.

(** *** The earlier revision *)

Module VoiceNoteScript.

Definition setCrank (c : Crank) (w : VoiceNoteApp.World) : VoiceNoteApp.World :=
  {| VoiceNoteApp.crank := c; VoiceNoteApp.audio := VoiceNoteApp.audio w;
     VoiceNoteApp.isAudioSetup := VoiceNoteApp.isAudioSetup w;
     VoiceNoteApp.analyser := VoiceNoteApp.analyser w;
     VoiceNoteApp.canvas := VoiceNoteApp.canvas w |}.

Definition setAudio (a : Audio) (w : VoiceNoteApp.World) : VoiceNoteApp.World :=
  {| VoiceNoteApp.crank := VoiceNoteApp.crank w; VoiceNoteApp.audio := a;
     VoiceNoteApp.isAudioSetup := VoiceNoteApp.isAudioSetup w;
     VoiceNoteApp.analyser := VoiceNoteApp.analyser w;
     VoiceNoteApp.canvas := VoiceNoteApp.canvas w |}.

Definition setCanvas (cv : Canvas) (w : VoiceNoteApp.World) : VoiceNoteApp.World :=
  {| VoiceNoteApp.crank := VoiceNoteApp.crank w; VoiceNoteApp.audio := VoiceNoteApp.audio w;
     VoiceNoteApp.isAudioSetup := VoiceNoteApp.isAudioSetup w;
     VoiceNoteApp.analyser := VoiceNoteApp.analyser w;
     VoiceNoteApp.canvas := cv |}.

Definition setupFailed : string := "Audio setup failed (likely waiting for interaction)".

(** [setupAudio]: the variables it leaves, and the lines it writes to the
    console (the message and [e]). *)
Definition setupAudio (ans : SetupAnswer) (w : VoiceNoteApp.World)
  : VoiceNoteApp.World * list (string * string) :=
  if VoiceNoteApp.isAudioSetup w then (w, [])
  else
    let '(_, an, err) := trySetup ans None (VoiceNoteApp.analyser w) in
    match err with
    | None =>
        ({| VoiceNoteApp.crank := VoiceNoteApp.crank w;
            VoiceNoteApp.audio := VoiceNoteApp.audio w;
            VoiceNoteApp.isAudioSetup := true;
            VoiceNoteApp.analyser := an;
            VoiceNoteApp.canvas := VoiceNoteApp.canvas w |}, [])
    | Some msg =>
        ({| VoiceNoteApp.crank := VoiceNoteApp.crank w;
            VoiceNoteApp.audio := VoiceNoteApp.audio w;
            VoiceNoteApp.isAudioSetup := false;
            VoiceNoteApp.analyser := an;
            VoiceNoteApp.canvas := VoiceNoteApp.canvas w |}, [ (setupFailed, msg) ])
    end.

(** What [startDrag] does besides changing the variables. *)
Record DragEffects : Type := mkDragEffects {
  console : list (string * string);
  played : bool;                 (* [audio.play()] was called *)
  unlockPromises : list Promise; (* the promise of [play().then(..).catch(..)] *)
  thrown : option JSError
}.

(** [startDrag]: on the first press the audio is set up and unlocked by
    [audio.play().then(() => audio.pause()).catch(() => { })].  A rejection
    of [play()] passes through [then] to the handler of [catch]; where
    [play()] returns [undefined], reading [then] throws. *)
Definition startDrag (angle : Q) (sans : SetupAnswer) (pans : PlayAnswer)
    (w : VoiceNoteApp.World) : VoiceNoteApp.World * DragEffects :=
  let w := setCrank (startDrag angle (VoiceNoteApp.crank w)) w in
  if negb (VoiceNoteApp.isAudioSetup w) then
    let '(w, lines) := setupAudio sans w in
    let '(a, p) := audioPlay pans (VoiceNoteApp.audio w) in
    let w := setAudio a w in
    match p with
    | Some s =>
        (w, {| console := lines; played := true;
               unlockPromises := [ {| settlement := s; onRejected := Some Ignore |} ];
               thrown := None |})
    | None =>
        (w, {| console := lines; played := true; unlockPromises := [];
               thrown := Some TypeError |})
    end
  else (w, {| console := []; played := false; unlockPromises := []; thrown := None |}).

Inductive Event : Type :=
| MouseDown (angle : Q) (sans : SetupAnswer) (pans : PlayAnswer)
| Unlocked                                   (* the callback of [then]: [audio.pause()] *)
| MouseMove (angle : Q)
| MouseUp
| Resize (offsetWidth offsetHeight : Q)
| Frame (inp : VoiceNoteApp.FrameInput)
| Media (a : Audio).

Definition handle (ev : Event) (w : VoiceNoteApp.World) : VoiceNoteApp.World :=
  match ev with
  | MouseDown angle sans pans => fst (startDrag angle sans pans w)
  | Unlocked => setAudio (audioPause (VoiceNoteApp.audio w)) w
  | MouseMove angle => setCrank (moveDrag angle (VoiceNoteApp.crank w)) w
  | MouseUp => setCrank (endDrag (VoiceNoteApp.crank w)) w
  | Resize wd ht => setCanvas (resizeCanvas wd ht) w
  | Frame inp => fst (VoiceNoteApp.loop inp w)
  | Media a => setAudio a w
  end.

Fixpoint run (evs : list Event) (w : VoiceNoteApp.World) : VoiceNoteApp.World :=
  match evs with
  | [] => w
  | ev :: evs => run evs (handle ev w)
  end.

Definition initial (cv : Canvas) (a : Audio) : VoiceNoteApp.World :=
  {| VoiceNoteApp.crank := initialCrank; VoiceNoteApp.audio := a;
     VoiceNoteApp.isAudioSetup := false; VoiceNoteApp.analyser := None;
     VoiceNoteApp.canvas := cv |}.

(** Whenever the flag is set, the analyser is the one with FFT size 64. *)
Definition SetUp (w : VoiceNoteApp.World) : Prop :=
  VoiceNoteApp.isAudioSetup w = true → VoiceNoteApp.analyser w = Some (mkAnalyser 64).

End VoiceNoteScript.


(** * The scripts in binary64 arithmetic

    The second layer models a JavaScript number as the script's host does:
    an IEEE 754 binary64 value ([spec_float] of the standard library with
    precision 53 and maximal exponent 1024), with [NaN], the infinities and
    the two zeros; every arithmetic operation rounds to nearest, ties to
    even, and a decimal literal denotes the binary64 number nearest to it. *)

Module Number.

Definition prec : Z := 53.
Definition emax : Z := 1024.

Definition number : Type := spec_float.

Definition NaN : number := S754_nan.

(** The number of an integer (exact below 2^53 in magnitude). *)
Definition ofZ (n : Z) : number := binary_normalize prec emax n 0 false.

Definition add : number → number → number := SFadd prec emax.
Definition sub : number → number → number := SFsub prec emax.
Definition mul : number → number → number := SFmul prec emax.
Definition div : number → number → number := SFdiv prec emax.
Definition opp : number → number := SFopp.

(** A decimal literal of the script, given by its value: the correctly
    rounded quotient of numerator and denominator (both below 2^53). *)
Definition lit (q : Q) : number := div (ofZ (Qnum q)) (ofZ (Zpos (Qden q))).

(** [x < y], [x > y], [x <= y], [x >= y]: false when an operand is [NaN]. *)
Definition ltb (x y : number) : bool := SFltb x y.
Definition gtb (x y : number) : bool := SFltb y x.
Definition leb (x y : number) : bool := SFleb x y.
Definition geb (x y : number) : bool := SFleb y x.

Definition isNaN (x : number) : bool :=
  match x with
  | S754_nan => true
  | _ => false
  end.

(** [Math.PI], 0x1.921fb54442d18p+1. *)
Definition Math_PI : number := S754_finite false 7074237752028440 (-51).

Definition Math_abs : number → number := SFabs.

(** [Math.max(x, y)] and [Math.min(x, y)]: [NaN] if an argument is, and
    [+0] counts as larger than [-0]. *)
Definition Math_max (x y : number) : number :=
  if isNaN x || isNaN y then NaN
  else if SFltb x y then y
  else if SFltb y x then x
  else match x with
       | S754_zero true => y
       | _ => x
       end.

Definition Math_min (x y : number) : number :=
  if isNaN x || isNaN y then NaN
  else if SFltb x y then x
  else if SFltb y x then y
  else match x with
       | S754_zero false => y
       | _ => x
       end.

(** The value of [Math.floor]: a number that is an integer, an infinity or
    [NaN].  An integer-valued number is held as the integer; the
    comparisons the scripts make on it are exact. *)
Inductive Integral : Type :=
| NotANumber
| Infinite (negative : bool)
| Integer (z : Z).

Definition Math_floor (x : number) : Integral :=
  match x with
  | S754_nan => NotANumber
  | S754_infinity s => Infinite s
  | S754_zero _ => Integer 0
  | S754_finite s m e =>
      let m := if s then Zneg m else Zpos m in
      Integer (if (0 <=? e)%Z then Z.shiftl m e else Z.shiftr m (- e))
  end.

(** [i >= n], [i < n] and [i !== n] for an integer [n]. *)
Definition Integral_geb (i : Integral) (n : Z) : bool :=
  match i with
  | NotANumber => false
  | Infinite s => negb s
  | Integer z => (n <=? z)%Z
  end.

Definition Integral_ltb (i : Integral) (n : Z) : bool :=
  match i with
  | NotANumber => false
  | Infinite s => s
  | Integer z => (z <? n)%Z
  end.

Definition Integral_neqb (i : Integral) (n : Z) : bool :=
  match i with
  | Integer z => negb (z =? n)%Z
  | _ => true
  end.

(** [a[i]]: [undefined] unless [i] is an index of the array. *)
Definition elementAt {A : Type} (a : list A) (i : Integral) : option A :=
  match i with
  | Integer z => if (z <? 0)%Z then None else a !! Z.to_nat z
  | _ => None
  end.

(** A number the host can hold: the mantissa and exponent are those of a
    binary64 number.  Every number a script meets is one. *)
Definition valid (x : number) : bool := valid_binary prec emax x.

(** Neither [NaN] nor an infinity. *)
Definition finite (x : number) : bool :=
  match x with
  | S754_zero _ | S754_finite _ _ _ => true
  | _ => false
  end.

(** A number, not [NaN], with sign bit [s]. *)
Definition signed (s : bool) (x : number) : bool :=
  match x with
  | S754_nan => false
  | S754_zero s' | S754_infinity s' | S754_finite s' _ _ => eqb s s'
  end.

(** [Math.min(Math.max(x, lo), hi)]. *)
Definition clamp (x lo hi : number) : number := Math_min (Math_max x lo) hi.

(** The number with sign [s] and mantissa [m], at most [2^53], at exponent
    [e]: what rounding delivers once the mantissa has been rounded. *)
Definition rounded (s : bool) (m e : Z) : number :=
  match m with
  | Z0 => S754_zero s
  | Zpos p =>
      if (m =? 9007199254740992)%Z then
        if (e + 1 <=? emax - prec)%Z then S754_finite s 4503599627370496 (e + 1)
        else S754_infinity s
      else if (e <=? emax - prec)%Z then S754_finite s p e
      else S754_infinity s
  | Zneg _ => S754_nan
  end.

(** The order of the numbers is the lexicographic order of these triples:
    the sign class, then exponent and mantissa, negated for a negative
    number. *)
Definition key (x : number) : Z * Z * Z :=
  match x with
  | S754_nan | S754_zero _ => (0, 0, 0)%Z
  | S754_infinity true => (-2, 0, 0)%Z
  | S754_infinity false => (2, 0, 0)%Z
  | S754_finite false m e => (1, e, Zpos m)%Z
  | S754_finite true m e => (-1, - e, Zneg m)%Z
  end.

Definition lex (k k' : Z * Z * Z) : comparison :=
  match (k.1.1 ?= k'.1.1)%Z with
  | Eq => match (k.1.2 ?= k'.1.2)%Z with
          | Eq => (k.2 ?= k'.2)%Z
          | c => c
          end
  | c => c
  end.


End Number.

Declare Scope number_scope.
Delimit Scope number_scope with num.
Infix "+" := Number.add : number_scope.
Infix "-" := Number.sub : number_scope.
Infix "*" := Number.mul : number_scope.
Infix "/" := Number.div : number_scope.
Notation "- x" := (Number.opp x) : number_scope.
Infix "<?" := Number.ltb (at level 70, no associativity) : number_scope.
Infix ">?" := Number.gtb (at level 70, no associativity) : number_scope.
Infix "<=?" := Number.leb (at level 70, no associativity) : number_scope.
Infix ">=?" := Number.geb (at level 70, no associativity) : number_scope.

(** ** The scripts over binary64 numbers

    The same functions as above, statement by statement, with every
    arithmetic operation and comparison the one the host performs. *)

Module Binary64.

#[local] Open Scope number_scope.

Abbreviation number := Number.number.
Abbreviation Slideshow := Player.Slideshow.
Abbreviation photos := Player.photos.
Abbreviation currentPhotoIndex := Player.currentPhotoIndex.
Abbreviation mkSlideshow := Player.mkSlideshow.
Abbreviation bufferLength := Player.bufferLength.
Abbreviation playbackPrevented := VoiceNoteApp.playbackPrevented.

(** *** The crank *)

Record Crank : Type := mkCrank {
  isDragging : bool;
  currentAngle : number;
  lastMouseAngle : number;
  velocity : number;
  lastTime : number;
  spinnerRotation : number
}.

Definition FRICTION : number := Number.lit 0.95.
(** Declared by the script and never read. *)
Definition VELOCITY_SCALE : number := Number.lit 0.5.

(** The literal [0]. *)
Definition zero : number := Number.ofZ 0.

Definition initialCrank : Crank :=
  {| isDragging := false; currentAngle := zero; lastMouseAngle := zero;
     velocity := zero; lastTime := zero; spinnerRotation := zero |}.

(** [updateCrankVisual]. *)
Definition updateCrankVisual (c : Crank) : Crank :=
  let deg := currentAngle c * (Number.ofZ 180 / Number.Math_PI) in
  {| isDragging := isDragging c; currentAngle := currentAngle c;
     lastMouseAngle := lastMouseAngle c; velocity := velocity c;
     lastTime := lastTime c; spinnerRotation := deg |}.

(** [startDrag], on the crank variables. *)
Definition startDrag (angle : number) (c : Crank) : Crank :=
  {| isDragging := true; currentAngle := currentAngle c;
     lastMouseAngle := angle; velocity := velocity c;
     lastTime := lastTime c; spinnerRotation := spinnerRotation c |}.

(** The two wrap-around tests of [moveDrag], applied to the raw
    [delta = angle - lastMouseAngle]. *)
Definition wrapDelta (delta : number) : number :=
  let delta :=
    if delta >? Number.Math_PI then delta - Number.Math_PI * Number.ofZ 2 else delta in
  let delta :=
    if delta <? - Number.Math_PI then delta + Number.Math_PI * Number.ofZ 2 else delta in
  delta.

(** [moveDrag]. *)
Definition moveDrag (angle : number) (c : Crank) : Crank :=
  if negb (isDragging c) then c
  else
    let delta := wrapDelta (angle - lastMouseAngle c) in
    updateCrankVisual
      {| isDragging := isDragging c;
         currentAngle := currentAngle c + delta;
         lastMouseAngle := angle;
         velocity := delta * Number.ofZ 5;
         lastTime := lastTime c;
         spinnerRotation := spinnerRotation c |}.

(** [endDrag]. *)
Definition endDrag (c : Crank) : Crank :=
  {| isDragging := false; currentAngle := currentAngle c;
     lastMouseAngle := lastMouseAngle c; velocity := velocity c;
     lastTime := lastTime c; spinnerRotation := spinnerRotation c |}.

(** The first half of [loop]. *)
Definition loopPhysics (time : number) (c : Crank) : Crank :=
  let c := {| isDragging := isDragging c; currentAngle := currentAngle c;
              lastMouseAngle := lastMouseAngle c; velocity := velocity c;
              lastTime := time; spinnerRotation := spinnerRotation c |} in
  let c :=
    if negb (isDragging c) then
      let v := velocity c * FRICTION in
      updateCrankVisual
        {| isDragging := isDragging c; currentAngle := currentAngle c + v;
           lastMouseAngle := lastMouseAngle c; velocity := v;
           lastTime := lastTime c; spinnerRotation := spinnerRotation c |}
    else c in
  if Number.Math_abs (velocity c) <? Number.lit 0.001 then
    {| isDragging := isDragging c; currentAngle := currentAngle c;
       lastMouseAngle := lastMouseAngle c; velocity := zero;
       lastTime := lastTime c; spinnerRotation := spinnerRotation c |}
  else c.

(** [speed], as [loop] reads it after the physics. *)
Definition speedOf (c : Crank) : number := Number.Math_abs (velocity c).

(** The frames of a crank left alone. *)
Fixpoint coast (times : list number) (c : Crank) : Crank :=
  match times with
  | [] => c
  | t :: times => coast times (loopPhysics t c)
  end.

(** *** The audio element *)

Record Audio : Type := mkAudio {
  paused : bool;
  playbackRate : number;
  volume : number;
  currentTime : number;
  duration : number   (* [NaN] while the duration is not known *)
}.

Definition setPaused (b : bool) (a : Audio) : Audio :=
  {| paused := b; playbackRate := playbackRate a; volume := volume a;
     currentTime := currentTime a; duration := duration a |}.

Definition setRateVolume (rate vol : number) (a : Audio) : Audio :=
  {| paused := paused a; playbackRate := rate; volume := vol;
     currentTime := currentTime a; duration := duration a |}.

(** [audio.play()]: the element after the call and the value returned. *)
Definition audioPlay (ans : PlayAnswer) (a : Audio) : Audio * option Settlement :=
  match ans with
  | Fulfils => (setPaused false a, Some Fulfilled)
  | Rejects reason => (a, Some (Rejected reason))
  | NoPromise => (setPaused false a, None)
  end.

(** [audio.pause()]. *)
Definition audioPause (a : Audio) : Audio := setPaused true a.

(** The rate and the volume [loop] computes from [speed]. *)
Definition rateOf (speed : number) : number :=
  let rate := Number.lit 0.5 + (speed * Number.ofZ 3) in
  let rate := if rate >? Number.lit 1.5 then Number.lit 1.5 else rate in
  let rate := if rate <? Number.lit 0.8 then Number.lit 0.8 else rate in
  rate.

Definition volumeOf (speed : number) : number :=
  Number.Math_min (Number.ofZ 1) (speed * Number.ofZ 5).

(** The "Audio Logic" block of [loop]; [handler] is the handler the
    revision attaches to a returned promise. *)
Definition loopAudio (handler : Handler) (ans : PlayAnswer) (speed : number) (a : Audio)
  : Audio * AudioTrace :=
  if speed >? Number.lit 0.02 then
    let '(a, tr) :=
      if paused a then
        let '(a, p) := audioPlay ans a in
        (a, {| called := Some CallPlay;
               promises := match p with
                           | Some s => [ {| settlement := s; onRejected := Some handler |} ]
                           | None => []
                           end |})
      else (a, {| called := None; promises := [] |}) in
    (setRateVolume (rateOf speed) (volumeOf speed) a, tr)
  else
    if negb (paused a) then
      (audioPause a, {| called := Some CallPause; promises := [] |})
    else (a, {| called := None; promises := [] |}).

(** The state the frame means the transport to be in. *)
Definition intendedPlaying (before : Audio) (tr : AudioTrace) : bool :=
  match called tr with
  | Some CallPlay => true
  | Some CallPause => false
  | None => negb (paused before)
  end.

(** [progress], as [drawVisualizer] computes it. *)
Definition progressOf (a : Audio) : number :=
  if (duration a >? zero) && negb (Number.isNaN (duration a))
  then currentTime a / duration a
  else zero.

(** *** Canvas *)

Record Canvas : Type := mkCanvas {
  width : number;
  height : number
}.

(** One [ctx.fillRect(x, y, w, h)]. *)
Record Rect : Type := mkRect {
  rx : number;
  ry : number;
  rw : number;
  rh : number
}.

(** The colour stops of the progress gradient. *)
Definition gradientStops (progress : number) : list (number * string) :=
  let stopPoint := Number.Math_max zero (Number.Math_min (Number.ofZ 1) progress) in
  [ (zero, activeColor); (stopPoint, activeColor);
    (Number.Math_min (Number.ofZ 1) (stopPoint + Number.lit 0.001), inactiveColor);
    (Number.ofZ 1, inactiveColor) ].

Record Drawing : Type := mkDrawing {
  fillStyle : list (number * string);
  bars : list Rect
}.

(** An element of an array of numbers, read as a number: [undefined]
    counts as [NaN] in the arithmetic and comparisons that follow. *)
Definition numberAt (a : option number) : number := default Number.NaN a.

(** *** The current revision *)

Module Player.

(** The index [updatePhotos] computes for [n] photos. *)
Definition photoIndex (progress : number) (n : Z) : Number.Integral :=
  let index := Number.Math_floor (progress * Number.ofZ n) in
  let index := if Number.Integral_geb index n then Number.Integer (n - 1) else index in
  let index := if Number.Integral_ltb index 0 then Number.Integer 0 else index in
  index.

(** The statement [if (index !== currentPhotoIndex) { ... }]. *)
Definition showPhoto (index : Number.Integral) (s : Slideshow) : Slideshow * option JSError :=
  if Number.Integral_neqb index (currentPhotoIndex s) then
    match elementAt (photos s) (currentPhotoIndex s) with
    | None => (s, Some TypeError)
    | Some old =>
        let ps := <[Z.to_nat (currentPhotoIndex s) := old ∖ {["active"]}]> (photos s) in
        match index, Number.elementAt ps index with
        | Number.Integer k, Some new =>
            (mkSlideshow (<[Z.to_nat k := new ∪ {["active"]}]> ps) k, None)
        | _, _ => (mkSlideshow ps (currentPhotoIndex s), Some TypeError)
        end
    end
  else (s, None).

(** [updatePhotos]. *)
Definition updatePhotos (progress : number) (s : Slideshow) : Slideshow * option JSError :=
  let n := Z.of_nat (length (photos s)) in
  if (n =? 0)%Z then (s, None)
  else showPhoto (photoIndex progress n) s.

(** What is fixed when the script is installed. *)
Record Page : Type := mkPage {
  isLocalFile : bool;
  startupRandom : nat → number
}.

(** The array [pseudoWaveform]. *)
Definition pseudoWaveform (pg : Page) : list number :=
  (λ i, startupRandom pg i * Number.ofZ 50 + Number.ofZ 10) <$> seq 0 bufferLength.

(** [dataArray] before the loop over the bars. *)
Definition dataArrayOf (pg : Page) (analyser : option Analyser) (snapshot : list Z)
  : option (list Z) :=
  match analyser with
  | Some an => if negb (isLocalFile pg) then Some (byteFrequencyData an snapshot) else None
  | None => None
  end.

(** The two final tests on [barHeight]. *)
Definition clampBar (canvasHeight : number) (barHeight : number) : number :=
  let barHeight := if barHeight <? Number.ofZ 4 then Number.ofZ 4 else barHeight in
  let barHeight := if barHeight >? canvasHeight then canvasHeight else barHeight in
  barHeight.

(** The body of the loop over the bars, up to the two clamping tests. *)
Definition rawBarHeight (pg : Page) (analyser : option Analyser)
    (dataArray : option (list Z)) (random : nat → number) (speed : number) (i : nat)
  : number :=
  let barHeight := numberAt (pseudoWaveform pg !! i) in
  match analyser, negb (isLocalFile pg), dataArray with
  | Some _, true, Some data =>
      let index :=
        Number.Math_floor
          (Number.ofZ (Z.of_nat i)
           * (Number.ofZ (Z.of_nat (length data)) / Number.ofZ (Z.of_nat bufferLength))) in
      let realHeight :=
        numberAt (Number.ofZ <$> Number.elementAt data index) / Number.ofZ 2 in
      if speed >? Number.lit 0.01 then realHeight else barHeight
  | _, _, _ =>
      if speed >? Number.lit 0.02 then
        barHeight + (random i - Number.lit 0.5) * (speed * Number.ofZ 50)
      else barHeight
  end.

Definition barHeightAt (pg : Page) (analyser : option Analyser)
    (dataArray : option (list Z)) (random : nat → number) (speed canvasHeight : number)
    (i : nat) : number :=
  clampBar canvasHeight (rawBarHeight pg analyser dataArray random speed i).

(** The loop over the bars. *)
Fixpoint drawBars (pg : Page) (analyser : option Analyser) (dataArray : option (list Z))
    (random : nat → number) (speed : number) (cv : Canvas) (barWidth : number) (x : number)
    (ixs : list nat) : list Rect :=
  match ixs with
  | [] => []
  | i :: ixs =>
      let barHeight := barHeightAt pg analyser dataArray random speed (height cv) i in
      {| rx := x; ry := height cv - barHeight; rw := barWidth; rh := barHeight |}
      :: drawBars pg analyser dataArray random speed cv barWidth
           (x + (barWidth + Number.ofZ 1)) ixs
  end.

(** What a frame reads from its environment. *)
Record FrameInput : Type := mkFrameInput {
  time : number;
  playAnswer : PlayAnswer;
  snapshot : list Z;
  random : nat → number
}.

(** [drawVisualizer(speed)]. *)
Definition drawVisualizer (pg : Page) (inp : FrameInput) (analyser : option Analyser)
    (cv : Canvas) (a : Audio) (speed : number) (s : Slideshow)
  : Drawing * (Slideshow * option JSError) :=
  let progress := progressOf a in
  let barWidth := (width cv / Number.ofZ (Z.of_nat bufferLength)) - Number.ofZ 1 in
  let dataArray := dataArrayOf pg analyser (snapshot inp) in
  let rects :=
    drawBars pg analyser dataArray (random inp) speed cv barWidth zero (seq 0 bufferLength) in
  ({| fillStyle := gradientStops progress; bars := rects |}, updatePhotos progress s).

Record World : Type := mkWorld {
  crank : Crank;
  audio : Audio;
  analyser : option Analyser;
  canvas : Canvas;
  slideshow : Slideshow
}.

Record Effects : Type := mkEffects {
  transport : AudioTrace;
  drawing : Drawing;
  thrown : option JSError;
  animationFrameRequested : bool
}.

(** [loop(time)]. *)
Definition loop (pg : Page) (inp : FrameInput) (w : World) : World * Effects :=
  let c := loopPhysics (time inp) (crank w) in
  let speed := speedOf c in
  let '(a, tr) := loopAudio Ignore (playAnswer inp) speed (audio w) in
  let '(d, (s, e)) := drawVisualizer pg inp (analyser w) (canvas w) a speed (slideshow w) in
  ({| crank := c; audio := a; analyser := analyser w; canvas := canvas w; slideshow := s |},
   {| transport := tr; drawing := d; thrown := e;
      animationFrameRequested := match e with None => true | Some _ => false end |}).

Definition withPlayAnswer (ans : PlayAnswer) (inp : FrameInput) : FrameInput :=
  {| time := time inp; playAnswer := ans; snapshot := snapshot inp;
     random := random inp |}.

End Player.

(** *** The earlier revision *)

Module VoiceNoteApp.

Record FrameInput : Type := mkFrameInput {
  time : number;
  playAnswer : PlayAnswer;
  snapshot : list Z
}.

Record World : Type := mkWorld {
  crank : Crank;
  audio : Audio;
  isAudioSetup : bool;
  analyser : option Analyser;
  canvas : Canvas
}.

(** The loop over the bins: no clamping in this revision. *)
Fixpoint drawBars (dataArray : list Z) (cv : Canvas) (barWidth : number) (x : number)
    (ixs : list nat) : list Rect :=
  match ixs with
  | [] => []
  | i :: ixs =>
      let barHeight := numberAt (Number.ofZ <$> dataArray !! i) / Number.ofZ 2 in
      {| rx := x; ry := height cv - barHeight; rw := barWidth; rh := barHeight |}
      :: drawBars dataArray cv barWidth (x + (barWidth + Number.ofZ 1)) ixs
  end.

(** [drawVisualizer()]. *)
Definition drawVisualizer (inp : FrameInput) (w : World) (a : Audio)
  : option Drawing * option JSError :=
  if negb (isAudioSetup w) then (None, None)
  else
    match analyser w with
    | None => (None, Some TypeError)
    | Some an =>
        let bufferLength := frequencyBinCount an in
        let dataArray := byteFrequencyData an (snapshot inp) in
        let progress := progressOf a in
        let barWidth :=
          (width (canvas w) / Number.ofZ (Z.of_nat bufferLength)) * Number.lit 2.5 in
        (Some {| fillStyle := gradientStops progress;
                 bars := drawBars dataArray (canvas w) barWidth zero (seq 0 bufferLength) |},
         None)
    end.

Record Effects : Type := mkEffects {
  transport : AudioTrace;
  drawing : option Drawing;
  thrown : option JSError;
  animationFrameRequested : bool
}.

(** [loop(time)]. *)
Definition loop (inp : FrameInput) (w : World) : World * Effects :=
  let c := loopPhysics (time inp) (crank w) in
  let speed := speedOf c in
  let '(a, tr) :=
    loopAudio (ConsoleLog playbackPrevented) (playAnswer inp) speed (audio w) in
  let '(d, e) := drawVisualizer inp w a in
  ({| crank := c; audio := a; isAudioSetup := isAudioSetup w;
      analyser := analyser w; canvas := canvas w |},
   {| transport := tr; drawing := d; thrown := e;
      animationFrameRequested := match e with None => true | Some _ => false end |}).

Definition withPlayAnswer (ans : PlayAnswer) (inp : FrameInput) : FrameInput :=
  {| time := time inp; playAnswer := ans; snapshot := snapshot inp |}.

Definition AnalyserReady (w : World) : Prop :=
  isAudioSetup w = true → is_Some (analyser w).

End VoiceNoteApp.

End Binary64.
(** * Properties *)

(** ** Comparisons and absolute value *)

Lemma ltb_lt (x y : Q) : (x <? y) = true ↔ x < y.
Proof.
  unfold JS.ltb. destruct (Qlt_le_dec x y) as [H | H]; split; intros H'; try done.
  lra.
Qed.

Lemma ltb_ge (x y : Q) : (x <? y) = false ↔ y <= x.
Proof.
  unfold JS.ltb. destruct (Qlt_le_dec x y) as [H | H]; split; intros H'; try done.
  lra.
Qed.

Lemma gtb_gt (x y : Q) : (x >? y) = true ↔ y < x.
Proof. apply ltb_lt. Qed.

Lemma gtb_le (x y : Q) : (x >? y) = false ↔ x <= y.
Proof. apply ltb_ge. Qed.

(** Case analysis on every comparison of the goal, innermost first. *)
Ltac cases_cmp :=
  unfold JS.gtb, JS.Math_min, JS.Math_max in *;
  repeat match goal with
         | |- context [JS.ltb ?x ?y] =>
             lazymatch x with context [JS.ltb] => fail | _ => idtac end;
             lazymatch y with context [JS.ltb] => fail | _ => idtac end;
             let H := fresh "Hcmp" in
             destruct (JS.ltb x y) eqn:H;
             [apply ltb_lt in H | apply ltb_ge in H]
         end.

Lemma Qabs_cases (x : Q) : (0 <= x ∧ Qabs x = x) ∨ (x <= 0 ∧ Qabs x = - x).
Proof.
  destruct x as [n d]. unfold Qle, Qabs, Qopp. simpl.
  destruct (Z.abs_spec n) as [[H ->] | [H ->]]; [left | right]; split; try done; lia.
Qed.

(** Case analysis on the sign under every absolute value of the goal. *)
Ltac cases_abs :=
  unfold speedOf, JS.Math_abs in *;
  repeat match goal with
         | |- context [Qabs ?x] =>
             let H := fresh "Habs" in
             destruct (Qabs_cases x) as [[H ->] | [H ->]]
         end.

Lemma Math_PI_pos : 0 < JS.Math_PI.
Proof. reflexivity. Qed.

(** [Math.PI] to the sixteen digits JavaScript prints. *)
Lemma Math_PI_digits : 3.141592653589793 < JS.Math_PI < 3.141592653589794.
Proof. split; reflexivity. Qed.

(** ** Drag moves *)

(** The wrap-around tests change a raw delta by one turn at most. *)
Lemma wrapDelta_turn (raw : Q) :
  - (2 * JS.Math_PI) <= raw <= 2 * JS.Math_PI →
  wrapDelta raw = raw ∨
  wrapDelta raw = raw - JS.Math_PI * 2 ∨
  wrapDelta raw = raw + JS.Math_PI * 2.
Proof.
  intros Hraw. pose proof Math_PI_pos. unfold wrapDelta.
  cases_cmp; auto; exfalso; lra.
Qed.

(** The deltas of the two closed half-turns are the fixed points. *)
Lemma wrapDelta_id (raw : Q) :
  - JS.Math_PI <= raw <= JS.Math_PI → wrapDelta raw = raw.
Proof.
  intros Hraw. unfold wrapDelta. cases_cmp; auto; exfalso; lra.
Qed.

Lemma wrapDelta_bounds (raw : Q) :
  - (2 * JS.Math_PI) <= raw <= 2 * JS.Math_PI →
  - JS.Math_PI <= wrapDelta raw <= JS.Math_PI.
Proof.
  intros Hraw. pose proof Math_PI_pos. unfold wrapDelta. cases_cmp; lra.
Qed.

(** C1, as amended.  For two angles in (-π, π], the delta [moveDrag] keeps
    is the raw difference, or the raw difference moved by exactly one turn
    (2π), and it lies in the closed interval [-π, π]; it is -π only when
    the raw difference is exactly -π, which the tests leave as it is.
    From [lastMouseAngle = 3.1] to [angle = -3.1] the delta is -6.2 + 2π,
    about 0.083. *)
Theorem moveDrag_delta_range :
  (∀ angle lastAngle : Q,
     - JS.Math_PI < angle <= JS.Math_PI →
     - JS.Math_PI < lastAngle <= JS.Math_PI →
     let raw := angle - lastAngle in
     let delta := wrapDelta raw in
     (delta = raw ∨ delta = raw - JS.Math_PI * 2 ∨ delta = raw + JS.Math_PI * 2) ∧
     - JS.Math_PI <= delta <= JS.Math_PI ∧
     (delta == - JS.Math_PI → raw == - JS.Math_PI)) ∧
  (wrapDelta (-3.1 - 3.1) == -6.2 + 2 * JS.Math_PI ∧
   0.083 < wrapDelta (-3.1 - 3.1) < 0.0832).
Proof.
  split.
  - intros angle lastAngle Ha Hl raw delta. subst delta raw.
    pose proof Math_PI_pos as Hpi.
    split; [apply wrapDelta_turn; lra |].
    split; [apply wrapDelta_bounds; lra |].
    unfold wrapDelta. cases_cmp; intros Heq; lra.
  - split; [reflexivity | split; reflexivity].
Qed.

Lemma moveDrag_delta_range_witness :
  (- JS.Math_PI < 1 <= JS.Math_PI) ∧ (- JS.Math_PI < -3 <= JS.Math_PI) ∧
  - JS.Math_PI <= wrapDelta (1 - -3) <= JS.Math_PI.
Proof.
  assert (Ha : - JS.Math_PI < 1 <= JS.Math_PI) by (split; [reflexivity | discriminate]).
  assert (Hl : - JS.Math_PI < -3 <= JS.Math_PI) by (split; [reflexivity | discriminate]).
  split; [exact Ha |]. split; [exact Hl |].
  exact (proj1 (proj2 (proj1 moveDrag_delta_range 1 (-3) Ha Hl))).
Defined.

(** C1, as first stated, fails on the seam: from [lastMouseAngle = π]
    (pointer straight left of the pivot) to [angle = 0] (straight right) the
    raw delta is -π, neither test fires, and -π is not in (-π, π]. *)
Lemma moveDrag_delta_half_turn :
  (- JS.Math_PI < 0 <= JS.Math_PI) ∧
  (- JS.Math_PI < JS.Math_PI <= JS.Math_PI) ∧
  wrapDelta (0 - JS.Math_PI) == - JS.Math_PI ∧
  ¬ (- JS.Math_PI < wrapDelta (0 - JS.Math_PI) <= JS.Math_PI).
Proof.
  split; [split; [reflexivity | discriminate] |].
  split; [split; [reflexivity | discriminate] |].
  split; [reflexivity |].
  intros [Hlt _]. vm_compute in Hlt. discriminate.
Qed.

Lemma moveDrag_dragging (angle : Q) (c : Crank) :
  isDragging c = true →
  moveDrag angle c =
    let delta := wrapDelta (angle - lastMouseAngle c) in
    {| isDragging := true;
       currentAngle := currentAngle c + delta;
       lastMouseAngle := angle;
       velocity := delta * 5;
       lastTime := lastTime c;
       spinnerRotation := (currentAngle c + delta) * (180 / JS.Math_PI) |}.
Proof. intros H. unfold moveDrag, updateCrankVisual. rewrite H. reflexivity. Qed.

Lemma moveDrag_released (angle : Q) (c : Crank) :
  isDragging c = false → moveDrag angle c = c.
Proof. intros H. unfold moveDrag. rewrite H. reflexivity. Qed.

(** ** The frame physics *)

(** Projections of the crank record, without unfolding the arithmetic. *)
Ltac crank_simpl :=
  cbn [isDragging currentAngle lastMouseAngle velocity lastTime spinnerRotation negb].

Lemma loopPhysics_released (time : Q) (c : Crank) :
  isDragging c = false →
  loopPhysics time c =
    let v := velocity c * FRICTION in
    {| isDragging := false;
       currentAngle := currentAngle c + v;
       lastMouseAngle := lastMouseAngle c;
       velocity := if JS.Math_abs v <? 0.001 then 0 else v;
       lastTime := time;
       spinnerRotation := (currentAngle c + v) * (180 / JS.Math_PI) |}.
Proof.
  intros H. unfold loopPhysics, updateCrankVisual. crank_simpl. rewrite H. crank_simpl.
  destruct (JS.Math_abs (velocity c * FRICTION) <? 0.001); reflexivity.
Qed.

Lemma loopPhysics_dragging (time : Q) (c : Crank) :
  isDragging c = true →
  loopPhysics time c =
    {| isDragging := true;
       currentAngle := currentAngle c;
       lastMouseAngle := lastMouseAngle c;
       velocity := if JS.Math_abs (velocity c) <? 0.001 then 0 else velocity c;
       lastTime := time;
       spinnerRotation := spinnerRotation c |}.
Proof.
  intros H. unfold loopPhysics. crank_simpl. rewrite H. crank_simpl.
  destruct (JS.Math_abs (velocity c) <? 0.001); reflexivity.
Qed.

Lemma loopPhysics_isDragging (time : Q) (c : Crank) :
  isDragging (loopPhysics time c) = isDragging c.
Proof.
  destruct (isDragging c) eqn:H.
  - rewrite (loopPhysics_dragging _ _ H). reflexivity.
  - rewrite (loopPhysics_released _ _ H). reflexivity.
Qed.

(** After the physics of any frame the speed is zero or at least the
    cut-off. *)
Lemma loopPhysics_speed (time : Q) (c : Crank) :
  velocity (loopPhysics time c) = 0 ∨ 0.001 <= speedOf (loopPhysics time c).
Proof.
  unfold speedOf.
  destruct (isDragging c) eqn:H.
  - rewrite (loopPhysics_dragging _ _ H). crank_simpl.
    destruct (JS.Math_abs (velocity c) <? 0.001) eqn:Hc; [by left | right].
    by apply ltb_ge in Hc.
  - rewrite (loopPhysics_released _ _ H). crank_simpl.
    destruct (JS.Math_abs (velocity c * FRICTION) <? 0.001) eqn:Hc; [by left | right].
    by apply ltb_ge in Hc.
Qed.

(** A crank at rest and left alone stays at rest. *)
Lemma coast_rest (times : list Q) (c : Crank) :
  isDragging c = false → velocity c = 0 → velocity (coast times c) = 0.
Proof.
  revert c. induction times as [| t times IH]; intros c Hd Hv; [done |].
  cbn [coast]. apply IH; [by rewrite loopPhysics_isDragging |].
  rewrite (loopPhysics_released _ _ Hd). crank_simpl. rewrite Hv. reflexivity.
Qed.

(** While a released crank still moves, every frame takes at least
    0.00005 off the magnitude of its velocity. *)
Lemma coast_decay (times : list Q) (c : Crank) :
  isDragging c = false →
  velocity (coast times c) = 0 ∨
  JS.Math_abs (velocity (coast times c)) + inject_Z (Z.of_nat (length times)) * 0.00005
  <= JS.Math_abs (velocity c).
Proof.
  revert c. induction times as [| t times IH]; intros c Hd.
  - right. cbn [coast length]. change (inject_Z (Z.of_nat 0)) with 0. lra.
  - cbn [coast].
    destruct (IH (loopPhysics t c)) as [Hz | Hle]; [by rewrite loopPhysics_isDragging | by left |].
    destruct (loopPhysics_speed t c) as [Hz | Hfast].
    + left. apply coast_rest; [by rewrite loopPhysics_isDragging | done].
    + right. revert Hle Hfast. unfold speedOf.
      generalize (JS.Math_abs (velocity (coast times (loopPhysics t c)))). intros m.
      rewrite (loopPhysics_released _ _ Hd). crank_simpl.
      cbn [length]. rewrite Nat2Z.inj_succ, <- Z.add_1_r, inject_Z_plus.
      generalize (inject_Z (Z.of_nat (length times))). intros n.
      change (inject_Z 1) with 1. unfold FRICTION.
      destruct (JS.Math_abs (velocity c * 0.95) <? 0.001) eqn:Hc; cases_abs; lra.
Qed.

(** A released crank is at rest after finitely many frames. *)
Lemma coast_comes_to_rest (c : Crank) :
  isDragging c = false →
  ∃ n : nat, ∀ times, (n <= length times)%nat → velocity (coast times c) = 0.
Proof.
  intros Hd.
  exists (Z.to_nat (Qceiling (JS.Math_abs (velocity c) * 20000)) + 1)%nat.
  intros times Hlen. destruct (coast_decay times c Hd) as [Hz | Hle]; [done | exfalso].
  pose proof (Qle_ceiling (JS.Math_abs (velocity c) * 20000)) as Hceil.
  assert (Hn : inject_Z (Qceiling (JS.Math_abs (velocity c) * 20000)) + 1
               <= inject_Z (Z.of_nat (length times))).
  { change 1 with (inject_Z 1) at 1. rewrite <- inject_Z_plus, <- Zle_Qle. lia. }
  revert Hle Hceil Hn. unfold JS.Math_abs.
  pose proof (Qabs_nonneg (velocity (coast times c))).
  generalize (Qabs (velocity (coast times c))) (Qabs (velocity c))
    (inject_Z (Qceiling (Qabs (velocity c) * 20000))) (inject_Z (Z.of_nat (length times))) H.
  intros. lra.
Qed.

(** ** The playback logic *)

(** ** The slideshow *)

Lemma elementAt_Some {A : Type} (a : list A) (i : Z) (x : A) :
  elementAt a i = Some x ↔ (0 <= i)%Z ∧ a !! Z.to_nat i = Some x.
Proof.
  unfold elementAt. destruct (Z.ltb_spec i 0); split.
  - done.
  - intros [? _]. lia.
  - done.
  - by intros [_ ?].
Qed.

Lemma elementAt_lt {A : Type} (a : list A) (i : Z) :
  (0 <= i < Z.of_nat (length a))%Z → is_Some (elementAt a i).
Proof.
  intros H. unfold elementAt. destruct (Z.ltb_spec i 0); [lia |].
  apply lookup_lt_is_Some. lia.
Qed.

Lemma photoIndex_clamp (progress : Q) (n : Z) :
  (1 <= n)%Z →
  Player.photoIndex progress n
  = Z.max 0 (Z.min (JS.Math_floor (progress * inject_Z n)) (n - 1)) ∧
  (0 <= Player.photoIndex progress n <= n - 1)%Z.
Proof.
  intros Hn. unfold Player.photoIndex.
  set (f := JS.Math_floor (progress * inject_Z n)).
  destruct (Z.geb_spec f n); [destruct (Z.ltb_spec (n - 1) 0) | destruct (Z.ltb_spec f 0)]; lia.
Qed.

Section Slideshow.
Import Player.

(** What [updatePhotos] does to a slideshow whose stored index is an index
    of the list: it does not throw. *)
Lemma updatePhotos_spec (progress : Q) (s : Slideshow) :
  (0 <= currentPhotoIndex s < Z.of_nat (length (photos s)))%Z →
  let index := photoIndex progress (Z.of_nat (length (photos s))) in
  ∃ old new,
    photos s !! Z.to_nat (currentPhotoIndex s) = Some old ∧
    photos s !! Z.to_nat index = Some new ∧
    updatePhotos progress s =
      (if (index =? currentPhotoIndex s)%Z then s
       else {| photos := <[Z.to_nat index := new ∪ {["active"]}]>
                           (<[Z.to_nat (currentPhotoIndex s) := old ∖ {["active"]}]>
                              (photos s));
               currentPhotoIndex := index |},
       None).
Proof.
  intros Hcur index.
  destruct (photoIndex_clamp progress (Z.of_nat (length (photos s)))) as [_ Hidx]; [lia |].
  fold index in Hidx.
  destruct (lookup_lt_is_Some_2 (photos s) (Z.to_nat (currentPhotoIndex s))) as [old Hold];
    [lia |].
  destruct (lookup_lt_is_Some_2 (photos s) (Z.to_nat index)) as [new Hnew]; [lia |].
  exists old, new. split; [done |]. split; [done |].
  unfold updatePhotos. fold index.
  destruct (Z.eqb_spec (Z.of_nat (length (photos s))) 0); [lia |].
  destruct (Z.eqb_spec index (currentPhotoIndex s)) as [Heq | Hne]; cbn [negb]; [done |].
  assert (Hnat : Z.to_nat (currentPhotoIndex s) ≠ Z.to_nat index) by lia.
  replace (elementAt (photos s) (currentPhotoIndex s)) with (Some old)
    by (symmetry; apply elementAt_Some; split; [lia | done]).
  replace (elementAt (<[Z.to_nat (currentPhotoIndex s) := old ∖ {["active"]}]> (photos s)) index)
    with (Some new); [done |].
  symmetry. apply elementAt_Some. split; [lia |].
  by rewrite list_lookup_insert_ne.
Qed.

Lemma updatePhotos_empty (progress : Q) (s : Slideshow) :
  photos s = [] → updatePhotos progress s = (s, None).
Proof. intros Hnil. unfold updatePhotos. by rewrite Hnil. Qed.

Lemma OnlyActiveAt_range (ps : list (gset string)) (k : Z) :
  OnlyActiveAt ps k → (0 <= k < Z.of_nat (length ps))%Z.
Proof.
  intros [(p & Hp & _) _]. apply elementAt_Some in Hp as [Hk Hp].
  apply lookup_lt_Some in Hp. lia.
Qed.

Lemma activeCount_none (ps : list (gset string)) :
  (∀ (i : nat) p, ps !! i = Some p → "active" ∉ p) → activeCount ps = 0%nat.
Proof.
  unfold activeCount. induction ps as [| q ps IH]; intros H; [done |].
  rewrite filter_cons_False by (apply (H 0%nat); done).
  apply IH. intros i p Hp. by apply (H (S i)).
Qed.

(** One photo is active and it is photo [k]: the count of active photos
    is 1. *)
Lemma OnlyActiveAt_count (ps : list (gset string)) (k : Z) :
  OnlyActiveAt ps k → activeCount ps = 1%nat.
Proof.
  intros [(p & Hp & Hact) Huniq]. apply elementAt_Some in Hp as [Hk Hp].
  assert (Hn : ∀ (i : nat) q, ps !! i = Some q → "active" ∈ q → i = Z.to_nat k).
  { intros i q Hq Hin. specialize (Huniq i q Hq Hin). lia. }
  clear Huniq Hk. revert Hp Hn. generalize (Z.to_nat k) as j. clear k.
  unfold activeCount. induction ps as [| q ps IH]; intros j Hp Hn; [done |].
  destruct j as [| j].
  - injection Hp as ->. rewrite filter_cons_True by done. cbn [length]. f_equal.
    apply activeCount_none. intros i r Hr Hin. by specialize (Hn (S i) r Hr Hin).
  - rewrite filter_cons_False.
    + apply (IH j); [done |]. intros i r Hr Hin.
      specialize (Hn (S i) r Hr Hin). lia.
    + intros Hin. by specialize (Hn 0%nat q eq_refl Hin).
Qed.

(** The invariant of the slideshow is kept by [updatePhotos]. *)
Lemma updatePhotos_OnlyActiveAt (progress : Q) (s : Slideshow) :
  OnlyActiveAt (photos s) (currentPhotoIndex s) →
  ∃ s', updatePhotos progress s = (s', None) ∧
        currentPhotoIndex s' = photoIndex progress (Z.of_nat (length (photos s))) ∧
        length (photos s') = length (photos s) ∧
        OnlyActiveAt (photos s') (currentPhotoIndex s') ∧
        (currentPhotoIndex s' = currentPhotoIndex s → s' = s).
Proof.
  intros Hinv. pose proof (OnlyActiveAt_range _ _ Hinv) as Hcur.
  destruct (updatePhotos_spec progress s Hcur) as (old & new & Hold & Hnew & Hupd).
  destruct (photoIndex_clamp progress (Z.of_nat (length (photos s)))) as [_ Hidx]; [lia |].
  revert Hupd Hnew Hidx. generalize (photoIndex progress (Z.of_nat (length (photos s)))).
  intros index Hupd Hnew Hidx.
  eexists. split; [exact Hupd |].
  destruct (Z.eqb_spec index (currentPhotoIndex s)) as [Heq | Hne].
  - by rewrite Heq.
  - cbn [photos currentPhotoIndex]. split; [done |].
    split; [by rewrite !length_insert |].
    split; [| by intros Heq].
    assert (Hnat : Z.to_nat (currentPhotoIndex s) ≠ Z.to_nat index) by lia.
    destruct Hinv as [_ Huniq]. split.
    + exists (new ∪ {["active"]}).
      split; [| apply elem_of_union; right; by apply elem_of_singleton].
      apply elementAt_Some. split; [lia |].
      apply list_lookup_insert_eq. rewrite length_insert. lia.
    + intros i p Hp Hin.
      destruct (decide (i = Z.to_nat index)) as [-> | Hi]; [lia |].
      rewrite list_lookup_insert_ne in Hp by done.
      destruct (decide (i = Z.to_nat (currentPhotoIndex s))) as [-> | Hi'].
      * rewrite list_lookup_insert_eq in Hp by lia.
        injection Hp as <-. apply elem_of_difference in Hin as [_ Hin].
        exfalso. apply Hin. by apply elem_of_singleton.
      * rewrite list_lookup_insert_ne in Hp by done.
        specialize (Huniq i p Hp Hin). lia.
Qed.

(** A ready slideshow is updated without exception and stays ready. *)
Lemma updatePhotos_ready (progress : Q) (s : Slideshow) :
  SlideshowReady s →
  ∃ s', updatePhotos progress s = (s', None) ∧ SlideshowReady s'.
Proof.
  intros [Hnil | Hcur].
  - exists s. split; [by apply updatePhotos_empty | by left].
  - destruct (updatePhotos_spec progress s Hcur) as (old & new & _ & _ & Hupd).
    eexists. split; [exact Hupd |].
    destruct (photoIndex_clamp progress (Z.of_nat (length (photos s)))) as [_ Hidx]; [lia |].
    destruct (Z.eqb_spec (photoIndex progress (Z.of_nat (length (photos s))))
                (currentPhotoIndex s)); [by right |].
    right. cbn [photos currentPhotoIndex]. rewrite !length_insert. lia.
Qed.

End Slideshow.

(** C6.  With at least one photo, if exactly one photo is active and it is
    the one at the stored index, then the slideshow update, for any
    progress, ends without exception and leaves exactly one photo active,
    the one at the stored index it leaves; when the computed index is the
    stored one, the slideshow is unchanged. *)
Theorem updatePhotos_one_active :
  ∀ (progress : Q) (s : Player.Slideshow),
    Player.photos s ≠ [] →
    Player.OnlyActiveAt (Player.photos s) (Player.currentPhotoIndex s) →
    ∃ s', Player.updatePhotos progress s = (s', None) ∧
          Player.OnlyActiveAt (Player.photos s') (Player.currentPhotoIndex s') ∧
          Player.activeCount (Player.photos s') = 1%nat ∧
          length (Player.photos s') = length (Player.photos s) ∧
          (Player.photoIndex progress (Z.of_nat (length (Player.photos s)))
           = Player.currentPhotoIndex s → s' = s).
Proof.
  intros progress s _ Hinv.
  destruct (updatePhotos_OnlyActiveAt progress s Hinv) as (s' & Hupd & Hidx & Hlen & Hinv' & Hsame).
  exists s'. split; [done |]. split; [done |].
  split; [by apply (OnlyActiveAt_count _ _ Hinv') |].
  split; [done |]. intros Heq. apply Hsame. by rewrite Hidx.
Qed.

Lemma updatePhotos_one_active_witness :
  Player.photos (Player.mkSlideshow [ {["photo"; "active"]}; {["photo"]} ] 0) ≠ [] ∧
  ∃ s', Player.updatePhotos 0.7 (Player.mkSlideshow [ {["photo"; "active"]}; {["photo"]} ] 0)
        = (s', None) ∧
        Player.activeCount (Player.photos s') = 1%nat.
Proof.
  assert (Hne : Player.photos (Player.mkSlideshow [ {["photo"; "active"]}; {["photo"]} ] 0) ≠ [])
    by discriminate.
  assert (Hinv : Player.OnlyActiveAt
                   (Player.photos (Player.mkSlideshow [ {["photo"; "active"]}; {["photo"]} ] 0))
                   (Player.currentPhotoIndex
                      (Player.mkSlideshow [ {["photo"; "active"]}; {["photo"]} ] 0))).
  { split.
    - eexists. split; [reflexivity |].
      apply elem_of_union. right. by apply elem_of_singleton.
    - intros [| [| i]] p Hp Hin; [done | | done].
      injection Hp as <-. apply elem_of_singleton in Hin. discriminate. }
  split; [exact Hne |].
  destruct (updatePhotos_one_active 0.7 _ Hne Hinv) as (s' & Hupd & _ & Hcount & _).
  exists s'. split; [exact Hupd | exact Hcount].
Defined.

(** ** The visualizer *)

Section Visualizer.
Import Player.

Lemma pseudoWaveform_length (pg : Page) : length (pseudoWaveform pg) = bufferLength.
Proof. unfold pseudoWaveform. by rewrite length_fmap, length_seq. Qed.

(** The two final tests: a ceiling at the canvas height, and under it a
    floor at 4. *)
Lemma clampBar_Some (canvasHeight h : Q) :
  ∃ h', clampBar canvasHeight (Some h) = Some h' ∧
        h' = JS.Math_min (JS.Math_max h 4) canvasHeight ∧
        h' <= canvasHeight ∧
        (4 <= canvasHeight → 4 <= h') ∧
        (canvasHeight < 4 → h' = canvasHeight).
Proof.
  unfold clampBar, JS.Math_min, JS.Math_max, JS.gtb.
  destruct (h <? 4) eqn:H4; [apply ltb_lt in H4 | apply ltb_ge in H4]; cbv beta iota;
    (match goal with
     | |- context [JS.ltb ?x ?y] =>
         destruct (JS.ltb x y) eqn:Hc; [apply ltb_lt in Hc | apply ltb_ge in Hc]
     end);
    eexists; (split; [reflexivity |]); (split; [reflexivity |]); (split; [lra |]);
    (split; [intros; lra |]); intros; try reflexivity; exfalso; lra.
Qed.

(** The bin sampled for bar [i] is a bin of the data. *)
Lemma sample_index_range (i m : nat) :
  (i < bufferLength)%nat → (0 < m)%nat →
  (0 <= JS.Math_floor (inject_Z (Z.of_nat i)
                       * (inject_Z (Z.of_nat m) / inject_Z (Z.of_nat bufferLength)))
   < Z.of_nat m)%Z.
Proof.
  intros Hi Hm. unfold JS.Math_floor, bufferLength in *.
  change (inject_Z (Z.of_nat 32)) with 32.
  assert (HI : 0 <= inject_Z (Z.of_nat i) <= 31).
  { change 0 with (inject_Z 0). change 31 with (inject_Z 31).
    rewrite <- !Zle_Qle. lia. }
  assert (HM : 1 <= inject_Z (Z.of_nat m)).
  { change 1 with (inject_Z 1). rewrite <- Zle_Qle. lia. }
  set (I := inject_Z (Z.of_nat i)) in *. set (M := inject_Z (Z.of_nat m)) in *.
  change (M / 32) with (M * (1 # 32)).
  assert (Hx : 0 <= I * (M * (1 # 32)) < M) by (split; nra).
  split.
  - change 0%Z with (Qfloor 0). apply Qfloor_resp_le. lra.
  - rewrite Zlt_Qlt. fold M. pose proof (Qfloor_le (I * (M * (1 # 32)))). lra.
Qed.

Lemma byteFrequencyData_length (an : Analyser) (snapshot : list Z) :
  length (byteFrequencyData an snapshot) = frequencyBinCount an.
Proof. apply length_resize. Qed.

Lemma drawBars_length pg analyser dataArray random speed cv barWidth x ixs :
  length (drawBars pg analyser dataArray random speed cv barWidth x ixs) = length ixs.
Proof. revert x. induction ixs as [| i ixs IH]; intros x; cbn; [done | by rewrite IH]. Qed.

(** The height of every rectangle the loop fills is the clamped height of
    one of its bars. *)
Lemma drawBars_heights pg analyser dataArray random speed cv barWidth x ixs (r : Rect) :
  r ∈ drawBars pg analyser dataArray random speed cv barWidth x ixs →
  ∃ i, i ∈ ixs ∧ rh r = barHeightAt pg analyser dataArray random speed (height cv) i.
Proof.
  revert x. induction ixs as [| i ixs IH]; intros x Hr; cbn in Hr.
  - by apply elem_of_nil in Hr.
  - apply elem_of_cons in Hr as [-> | Hr].
    + exists i. split; [apply elem_of_cons; by left | done].
    + destruct (IH _ Hr) as (j & Hj & Hrh). exists j.
      split; [apply elem_of_cons; by right | done].
Qed.

End Visualizer.

(** The bars of one frame.  An analyser, where there is one, has at least
    one frequency bin. *)
Section Bars.
Import Player.

Variable pg : Page.
Variable analyser : option Analyser.
Variable inp : FrameInput.
Variable speed : Q.
Variable cv : Canvas.

Hypothesis analyser_has_bins :
  ∀ an, analyser = Some an → (0 < frequencyBinCount an)%nat.

Let dataArray : option (list Z) := dataArrayOf pg analyser (snapshot inp).

(** Before the two final tests the height of a bar is a number: neither
    array is read past its end. *)
Lemma rawBarHeight_Some (i : nat) :
  (i < bufferLength)%nat →
  is_Some (rawBarHeight pg analyser dataArray (random inp) speed i).
Proof using analyser_has_bins.
  intros Hi.
  destruct (lookup_lt_is_Some_2 (pseudoWaveform pg) i) as [h0 Hh0];
    [by rewrite pseudoWaveform_length |].
  unfold rawBarHeight, dataArray, dataArrayOf. rewrite Hh0.
  destruct analyser as [an |]; [| by destruct (negb (isLocalFile pg)), (speed >? 0.02)].
  destruct (negb (isLocalFile pg)); [| by destruct (speed >? 0.02)].
  destruct (speed >? 0.01); [| done].
  set (data := byteFrequencyData an (snapshot inp)).
  assert (Hdata : (0 < length data)%nat).
  { unfold data. rewrite byteFrequencyData_length. by apply analyser_has_bins. }
  destruct (elementAt_lt data _ (sample_index_range i (length data) Hi Hdata)) as [b ->].
  done.
Qed.

Lemma barHeightAt_range (i : nat) :
  (i < bufferLength)%nat →
  ∃ h, barHeightAt pg analyser dataArray (random inp) speed (height cv) i = Some h ∧
       h <= height cv ∧
       (4 <= height cv → 4 <= h) ∧
       (height cv < 4 → h = height cv).
Proof using analyser_has_bins.
  intros Hi. unfold barHeightAt.
  destruct (rawBarHeight_Some i Hi) as [h0 ->].
  destruct (clampBar_Some (height cv) h0) as (h & Hh & _ & H1 & H2 & H3).
  by exists h.
Qed.

(** The bars of one call of [drawVisualizer]. *)
Lemma drawVisualizer_bars (a : Audio) (s : Slideshow) :
  length (bars (fst (drawVisualizer pg inp analyser cv a speed s))) = bufferLength ∧
  ∀ r, r ∈ bars (fst (drawVisualizer pg inp analyser cv a speed s)) →
       BarClamped (height cv) r.
Proof using analyser_has_bins.
  unfold drawVisualizer. cbn [fst bars].
  split; [by rewrite drawBars_length, length_seq |].
  intros r Hr. apply drawBars_heights in Hr as (i & Hi & Hrh).
  apply elem_of_seq in Hi. unfold BarClamped. rewrite Hrh.
  apply barHeightAt_range. lia.
Qed.

End Bars.

(** What [loop] draws is what [drawVisualizer] draws for the speed and the
    audio element the frame has reached. *)
Lemma loop_drawing (pg : Player.Page) (inp : Player.FrameInput) (w : Player.World) :
  Player.drawing (snd (Player.loop pg inp w)) =
  fst (Player.drawVisualizer pg inp (Player.analyser w) (Player.canvas w)
         (fst (loopAudio Ignore (Player.playAnswer inp)
                 (speedOf (loopPhysics (Player.time inp) (Player.crank w))) (Player.audio w)))
         (speedOf (loopPhysics (Player.time inp) (Player.crank w))) (Player.slideshow w)).
Proof.
  unfold Player.loop.
  destruct (loopAudio Ignore (Player.playAnswer inp)
              (speedOf (loopPhysics (Player.time inp) (Player.crank w)))
              (Player.audio w)) as [a tr].
  cbn [fst].
  by destruct (Player.drawVisualizer pg inp (Player.analyser w) (Player.canvas w) a
                 (speedOf (loopPhysics (Player.time inp) (Player.crank w)))
                 (Player.slideshow w)) as [d [s e]].
Qed.

(** C7, as amended.  Every bar the visualizer draws, from the live
    frequency data or from the baseline waveform, has a height that is a
    number, at most the canvas height, and at least 4 whenever the canvas is
    at least 4 high; on a canvas lower than 4 every bar has the canvas
    height.  Every call draws 32 bars, and so does every frame.  (An
    analyser, where there is one, has at least one frequency bin.) *)
Theorem drawVisualizer_bar_heights :
  (∀ (pg : Player.Page) (inp : Player.FrameInput) (analyser : option Analyser)
     (cv : Canvas) (a : Audio) (speed : Q) (s : Player.Slideshow),
     (∀ an, analyser = Some an → (0 < frequencyBinCount an)%nat) →
     length (bars (fst (Player.drawVisualizer pg inp analyser cv a speed s))) = 32%nat ∧
     ∀ r, r ∈ bars (fst (Player.drawVisualizer pg inp analyser cv a speed s)) →
          BarClamped (height cv) r) ∧
  (∀ (pg : Player.Page) (inp : Player.FrameInput) (w : Player.World),
     (∀ an, Player.analyser w = Some an → (0 < frequencyBinCount an)%nat) →
     length (bars (Player.drawing (snd (Player.loop pg inp w)))) = 32%nat ∧
     ∀ r, r ∈ bars (Player.drawing (snd (Player.loop pg inp w))) →
          BarClamped (height (Player.canvas w)) r).
Proof.
  split.
  - intros pg inp analyser cv a speed s Hbins. by apply drawVisualizer_bars.
  - intros pg inp w Hbins. rewrite loop_drawing. by apply drawVisualizer_bars.
Qed.

Lemma drawVisualizer_bar_heights_witness :
  (∀ an, Some (mkAnalyser 64) = Some an → (0 < frequencyBinCount an)%nat) ∧
  length (bars (fst (Player.drawVisualizer (Player.mkPage false (λ _, 0.5))
                       (Player.mkFrameInput 16 Fulfils [200; 180; 90]%Z (λ _, 0.25))
                       (Some (mkAnalyser 64)) (mkCanvas 300 150)
                       (mkAudio true 1 1 0 None) 0.3 (Player.mkSlideshow [] 0)))) = 32%nat.
Proof.
  assert (Hbins : ∀ an, Some (mkAnalyser 64) = Some an → (0 < frequencyBinCount an)%nat).
  { intros an [= <-]. vm_compute. lia. }
  split; [exact Hbins |].
  exact (proj1 (proj1 drawVisualizer_bar_heights
                  (Player.mkPage false (λ _, 0.5))
                  (Player.mkFrameInput 16 Fulfils [200; 180; 90]%Z (λ _, 0.25))
                  (Some (mkAnalyser 64)) (mkCanvas 300 150)
                  (mkAudio true 1 1 0 None) 0.3 (Player.mkSlideshow [] 0) Hbins)).
Defined.

(** C7, as first stated, fails on a canvas lower than 4: on a canvas of
    height 3 the frame draws its 32 bars with height 3, below the floor
    of 4, so not every bar height lies in [4, canvas height]. *)
Lemma drawVisualizer_low_canvas :
  rh <$> bars (Player.drawing (snd
      (Player.loop (Player.mkPage true (λ _, 0.5))
         (Player.mkFrameInput 16 Fulfils [] (λ _, 0.25))
         (Player.mkWorld initialCrank (mkAudio true 1 1 0 None) None (mkCanvas 300 3)
            (Player.mkSlideshow [] 0)))))
  = replicate 32 (Some 3) ∧
  ¬ (∀ r, r ∈ bars (Player.drawing (snd
              (Player.loop (Player.mkPage true (λ _, 0.5))
                 (Player.mkFrameInput 16 Fulfils [] (λ _, 0.25))
                 (Player.mkWorld initialCrank (mkAudio true 1 1 0 None) None (mkCanvas 300 3)
                    (Player.mkSlideshow [] 0))))) →
          ∃ h, rh r = Some h ∧ 4 <= h <= height (mkCanvas 300 3)).
Proof.
  assert (Hdrawn :
    rh <$> bars (Player.drawing (snd
        (Player.loop (Player.mkPage true (λ _, 0.5))
           (Player.mkFrameInput 16 Fulfils [] (λ _, 0.25))
           (Player.mkWorld initialCrank (mkAudio true 1 1 0 None) None (mkCanvas 300 3)
              (Player.mkSlideshow [] 0)))))
    = replicate 32 (Some 3)) by (vm_compute; reflexivity).
  split; [exact Hdrawn |].
  revert Hdrawn.
  generalize (bars (Player.drawing (snd
      (Player.loop (Player.mkPage true (λ _, 0.5))
         (Player.mkFrameInput 16 Fulfils [] (λ _, 0.25))
         (Player.mkWorld initialCrank (mkAudio true 1 1 0 None) None (mkCanvas 300 3)
            (Player.mkSlideshow [] 0)))))).
  intros [| r drawn] Hdrawn Hall; [discriminate |].
  destruct (Hall r) as (h & Hh & H4 & _); [apply elem_of_cons; by left |].
  injection Hdrawn as Hr _. rewrite Hh in Hr. injection Hr as ->.
  by apply H4.
Qed.

(** ** The frame as a whole *)

(** The playback logic touches neither [currentTime] nor [duration]. *)
Lemma loopAudio_progress (h : Handler) (ans : PlayAnswer) (speed : Q) (a : Audio) :
  progressOf (fst (loopAudio h ans speed a)) = progressOf a.
Proof.
  unfold loopAudio, progressOf.
  destruct (speed >? 0.02), (paused a), ans; reflexivity.
Qed.

(** A frame of the current revision, step by step. *)
Lemma loop_unfold (pg : Player.Page) (inp : Player.FrameInput) (w : Player.World) :
  let c := loopPhysics (Player.time inp) (Player.crank w) in
  let au := loopAudio Ignore (Player.playAnswer inp) (speedOf c) (Player.audio w) in
  let dv := Player.drawVisualizer pg inp (Player.analyser w) (Player.canvas w) (fst au)
              (speedOf c) (Player.slideshow w) in
  Player.loop pg inp w =
    ({| Player.crank := c; Player.audio := fst au; Player.analyser := Player.analyser w;
        Player.canvas := Player.canvas w; Player.slideshow := fst (snd dv) |},
     {| Player.transport := snd au; Player.drawing := fst dv;
        Player.thrown := snd (snd dv);
        Player.animationFrameRequested :=
          match snd (snd dv) with None => true | Some _ => false end |}).
Proof.
  intros c au dv. unfold Player.loop. fold c. fold au. destruct au as [a tr].
  cbn [fst snd] in *. fold dv. by destruct dv as [d [s e]].
Qed.

(** A frame of the current revision ends without exception whenever the
    slideshow is ready, and leaves it ready. *)
Lemma loop_completes (pg : Player.Page) (inp : Player.FrameInput) (w : Player.World) :
  Player.SlideshowReady (Player.slideshow w) →
  Player.thrown (snd (Player.loop pg inp w)) = None ∧
  Player.animationFrameRequested (snd (Player.loop pg inp w)) = true ∧
  Player.SlideshowReady (Player.slideshow (fst (Player.loop pg inp w))) ∧
  Player.updatePhotos (progressOf (Player.audio w)) (Player.slideshow w)
  = (Player.slideshow (fst (Player.loop pg inp w)), None).
Proof.
  intros Hready. rewrite loop_unfold. cbv zeta.
  cbn [fst snd Player.thrown Player.animationFrameRequested Player.slideshow].
  unfold Player.drawVisualizer. cbn [fst snd]. rewrite loopAudio_progress.
  destruct (updatePhotos_ready (progressOf (Player.audio w)) _ Hready) as (s' & -> & Hready').
  done.
Qed.

(** A frame of the earlier revision, step by step. *)
Lemma VoiceNoteApp_loop_unfold (inp : VoiceNoteApp.FrameInput) (w : VoiceNoteApp.World) :
  let c := loopPhysics (VoiceNoteApp.time inp) (VoiceNoteApp.crank w) in
  let au := loopAudio (ConsoleLog VoiceNoteApp.playbackPrevented)
              (VoiceNoteApp.playAnswer inp) (speedOf c) (VoiceNoteApp.audio w) in
  let dv := VoiceNoteApp.drawVisualizer inp w (fst au) in
  VoiceNoteApp.loop inp w =
    ({| VoiceNoteApp.crank := c; VoiceNoteApp.audio := fst au;
        VoiceNoteApp.isAudioSetup := VoiceNoteApp.isAudioSetup w;
        VoiceNoteApp.analyser := VoiceNoteApp.analyser w;
        VoiceNoteApp.canvas := VoiceNoteApp.canvas w |},
     {| VoiceNoteApp.transport := snd au; VoiceNoteApp.drawing := fst dv;
        VoiceNoteApp.thrown := snd dv;
        VoiceNoteApp.animationFrameRequested :=
          match snd dv with None => true | Some _ => false end |}).
Proof.
  intros c au dv. unfold VoiceNoteApp.loop. fold c. fold au. destruct au as [a tr].
  cbn [fst snd] in *. fold dv. by destruct dv as [d e].
Qed.

(** ** Worked frames *)

(** The earlier revision reports a denied [play()] on the console. *)
Example denied_frame_is_logged :
  let w := VoiceNoteApp.mkWorld (mkCrank true 0 0 0.3 0 0) (mkAudio true 1 1 0 None)
             false None (mkCanvas 300 150) in
  let r := VoiceNoteApp.loop (VoiceNoteApp.mkFrameInput 16 (Rejects "NotAllowedError") []) w in
  consoleLines (promises (VoiceNoteApp.transport (snd r)))
  = ["Playback prevented (waiting for interaction): NotAllowedError"] ∧
  paused (VoiceNoteApp.audio (fst r)) = true ∧
  VoiceNoteApp.thrown (snd r) = None.
Proof. vm_compute. repeat split; reflexivity. Qed.

(** Four photos, the first one active, at half of the clip. *)
Example half_way_slideshow :
  Player.updatePhotos 0.5
    (Player.mkSlideshow [ {["photo"; "active"]}; {["photo"]}; {["photo"]}; {["photo"]} ] 0)
  = (Player.mkSlideshow
       [ {["photo"; "active"]} ∖ {["active"]}; {["photo"]};
         {["photo"]} ∪ {["active"]}; {["photo"]} ] 2, None).
Proof. reflexivity. Qed.

(** * Further properties *)

(** ** Dragging *)

(** ** Frames without pointer events *)

(** X2.  Frames do not move a crank that is held, and take no momentum
    from it: while [isDragging] is set, any number of frames leaves
    [currentAngle] and the rotation on the page as they are, and leaves a
    velocity of magnitude at least 0.001 as it is, so the speed the playback
    logic reads stays what the last move (or the coasting before the press)
    made it; a smaller velocity is zeroed by the first frame. *)
Theorem held_crank_keeps_velocity :
  ∀ (times : list Q) (c : Crank),
    isDragging c = true →
    currentAngle (coast times c) = currentAngle c ∧
    spinnerRotation (coast times c) = spinnerRotation c ∧
    isDragging (coast times c) = true ∧
    (0.001 <= JS.Math_abs (velocity c) → velocity (coast times c) = velocity c) ∧
    (JS.Math_abs (velocity c) < 0.001 → times ≠ [] → velocity (coast times c) = 0).
Proof.
  induction times as [| t times IH]; intros c Hd; [done |].
  cbn [coast].
  assert (Hd1 : isDragging (loopPhysics t c) = true) by by rewrite loopPhysics_isDragging.
  assert (Hstep : currentAngle (loopPhysics t c) = currentAngle c ∧
                  spinnerRotation (loopPhysics t c) = spinnerRotation c ∧
                  velocity (loopPhysics t c)
                  = if JS.Math_abs (velocity c) <? 0.001 then 0 else velocity c)
    by by rewrite (loopPhysics_dragging _ _ Hd).
  destruct Hstep as (Ea & Er & Ev).
  destruct (IH _ Hd1) as (Hangle & Hrot & Hdrag & Hkeep & Hzero).
  rewrite Ea in Hangle. rewrite Er in Hrot. rewrite Ev in Hkeep, Hzero.
  split; [done |]. split; [done |]. split; [done |]. split.
  - intros Hfast. pose proof Hfast as Hc. apply ltb_ge in Hc. rewrite Hc in Hkeep.
    by apply Hkeep.
  - intros Hslow _. pose proof Hslow as Hc. apply ltb_lt in Hc. rewrite Hc in Hkeep, Hzero.
    destruct times as [| t' times]; [by cbn [coast]; rewrite Ev, Hc |].
    by apply Hzero.
Qed.

Lemma held_crank_keeps_velocity_witness :
  isDragging (startDrag 1 (mkCrank false 0 0 0.3 0 0)) = true ∧
  0.001 <= JS.Math_abs (velocity (startDrag 1 (mkCrank false 0 0 0.3 0 0))) ∧
  velocity (coast [16; 32; 48] (startDrag 1 (mkCrank false 0 0 0.3 0 0)))
  = velocity (startDrag 1 (mkCrank false 0 0 0.3 0 0)).
Proof.
  assert (Hfast : 0.001 <= JS.Math_abs (velocity (startDrag 1 (mkCrank false 0 0 0.3 0 0))))
    by (vm_compute; discriminate).
  split; [reflexivity |]. split; [exact Hfast |].
  exact (proj1 (proj2 (proj2 (proj2
           (held_crank_keeps_velocity [16; 32; 48] (startDrag 1 (mkCrank false 0 0 0.3 0 0))
              eq_refl)))) Hfast).
Defined.

(** ** The response of the playback to the speed *)

(** ** The slideshow and the playback position *)

(** X6.  A slideshow update touches nothing but the class [active]: the
    number of photos and every other class of every photo are as before;
    and a second update at the same progress changes nothing. *)
Theorem updatePhotos_only_active :
  ∀ (progress : Q) (s : Player.Slideshow),
    Player.SlideshowReady s →
    let s' := fst (Player.updatePhotos progress s) in
    length (Player.photos s') = length (Player.photos s) ∧
    (∀ (i : nat) (p p' : gset string),
       Player.photos s !! i = Some p →
       Player.photos s' !! i = Some p' →
       p' ∖ {["active"]} = p ∖ {["active"]}) ∧
    Player.updatePhotos progress s' = (s', None).
Proof.
  intros progress s [Hnil | Hcur] s'; subst s'.
  - rewrite (updatePhotos_empty _ _ Hnil). cbn [fst].
    split; [done |]. split; [| by apply updatePhotos_empty].
    intros i p p' Hp Hp'. congruence.
  - destruct (updatePhotos_spec progress s Hcur) as (old & new & Hold & Hnew & Hupd).
    destruct (photoIndex_clamp progress (Z.of_nat (length (Player.photos s)))) as [_ Hidx];
      [lia |].
    rewrite Hupd. cbn [fst]. clear Hupd.
    destruct (Z.eqb_spec (Player.photoIndex progress (Z.of_nat (length (Player.photos s))))
                (Player.currentPhotoIndex s)) as [Heq | Hne].
    + split; [done |]. split; [intros i p p' Hp Hp'; congruence |].
      destruct (updatePhotos_spec progress s Hcur) as (? & ? & _ & _ & ->).
      rewrite Heq, Z.eqb_refl. done.
    + set (index := Player.photoIndex progress (Z.of_nat (length (Player.photos s)))) in *.
      assert (Hnat : Z.to_nat (Player.currentPhotoIndex s) ≠ Z.to_nat index) by lia.
      cbn [Player.photos]. split; [by rewrite !length_insert |]. split.
      * intros i p p' Hp Hp'.
        destruct (decide (i = Z.to_nat index)) as [-> | Hi].
        -- rewrite list_lookup_insert_eq in Hp' by (rewrite length_insert; lia).
           injection Hp' as <-. rewrite Hnew in Hp. injection Hp as <-.
           apply set_eq. intros x. rewrite !elem_of_difference, elem_of_union. tauto.
        -- rewrite list_lookup_insert_ne in Hp' by done.
           destruct (decide (i = Z.to_nat (Player.currentPhotoIndex s))) as [-> | Hi'].
           ++ rewrite list_lookup_insert_eq in Hp' by lia.
              injection Hp' as <-. rewrite Hold in Hp. injection Hp as <-.
              apply set_eq. intros x. rewrite !elem_of_difference. tauto.
           ++ rewrite list_lookup_insert_ne in Hp' by done. congruence.
      * match goal with
        | |- Player.updatePhotos progress ?s1 = _ =>
            destruct (updatePhotos_spec progress s1) as (? & ? & _ & _ & Hupd')
        end.
        { cbn [Player.photos Player.currentPhotoIndex]. rewrite !length_insert. lia. }
        rewrite Hupd'. cbn [Player.photos Player.currentPhotoIndex].
        rewrite !length_insert. fold index. by rewrite Z.eqb_refl.
Qed.

Lemma updatePhotos_only_active_witness :
  Player.SlideshowReady (Player.mkSlideshow [ {["photo"; "active"]}; {["photo"]} ] 0) ∧
  length (Player.photos (fst (Player.updatePhotos 0.7
            (Player.mkSlideshow [ {["photo"; "active"]}; {["photo"]} ] 0)))) = 2%nat.
Proof.
  assert (Hready : Player.SlideshowReady
                     (Player.mkSlideshow [ {["photo"; "active"]}; {["photo"]} ] 0))
    by (right; cbn; lia).
  split; [exact Hready |].
  exact (proj1 (updatePhotos_only_active 0.7 _ Hready)).
Defined.

(** ** The drawing *)

(** The rectangle the loop over the bars fills at its [k]-th turn. *)
Lemma drawBars_lookup pg analyser dataArray random speed cv barWidth (x : Q)
    (ixs : list nat) (k i : nat) :
  ixs !! k = Some i →
  ∃ r, Player.drawBars pg analyser dataArray random speed cv barWidth x ixs !! k = Some r ∧
       rx r == x + inject_Z (Z.of_nat k) * (barWidth + 1) ∧
       rw r = barWidth ∧
       rh r = Player.barHeightAt pg analyser dataArray random speed (height cv) i ∧
       ry r = (λ h, height cv - h) <$> rh r.
Proof.
  revert x k. induction ixs as [| j ixs IH]; intros x k Hk; [done |].
  destruct k as [| k]; cbn [Player.drawBars].
  - injection Hk as ->. eexists. split; [reflexivity |]. cbn [rx rw rh ry].
    split; [| done]. change (inject_Z (Z.of_nat 0)) with 0. ring.
  - destruct (IH (x + (barWidth + 1)) k Hk) as (r & Hr & Hx & Hrest).
    exists r. split; [exact Hr |]. split; [| exact Hrest].
    rewrite Hx, Nat2Z.inj_succ, <- Z.add_1_r, inject_Z_plus.
    change (inject_Z 1) with 1. ring.
Qed.

(** X9.  The 32 bars tile the canvas from the left edge: bar [k] starts at
    k * width/32, is width/32 - 1 wide, so a gap of 1 is left before bar
    k+1, and stands on the bottom edge (its top plus its height is the
    canvas height).  On a canvas at least 32 wide every bar lies inside the
    canvas; on a narrower one the bar width is negative. *)
Theorem bars_tile_canvas :
  ∀ (pg : Player.Page) (inp : Player.FrameInput) (analyser : option Analyser)
    (cv : Canvas) (a : Audio) (speed : Q) (s : Player.Slideshow) (k : nat),
    (k < 32)%nat →
    ∃ r, bars (fst (Player.drawVisualizer pg inp analyser cv a speed s)) !! k = Some r ∧
         rx r == inject_Z (Z.of_nat k) * (width cv / 32) ∧
         rw r == width cv / 32 - 1 ∧
         rx r + rw r + 1 == inject_Z (Z.of_nat (S k)) * (width cv / 32) ∧
         (∀ y h, ry r = Some y → rh r = Some h → y + h == height cv) ∧
         (32 <= width cv → 0 <= rx r ∧ 0 <= rw r ∧ rx r + rw r < width cv) ∧
         (width cv < 32 → rw r < 0).
Proof.
  intros pg inp analyser cv a speed s k Hk.
  unfold Player.drawVisualizer. cbn [fst bars].
  destruct (drawBars_lookup pg analyser
              (Player.dataArrayOf pg analyser (Player.snapshot inp)) (Player.random inp)
              speed cv (width cv / inject_Z (Z.of_nat Player.bufferLength) - 1) 0
              (seq 0 Player.bufferLength) k k) as (r & Hr & Hx & Hw & Hh & Hy).
  { apply lookup_seq. unfold Player.bufferLength. split; [done | lia]. }
  exists r. split; [exact Hr |].
  change (inject_Z (Z.of_nat Player.bufferLength)) with 32 in Hx, Hw.
  assert (HK : 0 <= inject_Z (Z.of_nat k) <= 31).
  { change 0 with (inject_Z 0). change 31 with (inject_Z 31). rewrite <- !Zle_Qle. lia. }
  assert (HS : inject_Z (Z.of_nat (S k)) == inject_Z (Z.of_nat k) + 1).
  { rewrite Nat2Z.inj_succ, <- Z.add_1_r, inject_Z_plus. reflexivity. }
  rewrite Hw. revert Hx HS HK.
  change (width cv / 32) with (width cv * (1 # 32)).
  generalize (inject_Z (Z.of_nat k)) (inject_Z (Z.of_nat (S k))) (rx r).
  intros K K' x Hx HS HK.
  split; [rewrite Hx; ring |]. split; [reflexivity |].
  split; [rewrite Hx, HS; ring |]. split.
  - intros y h Hry Hrh. rewrite Hy, Hrh in Hry. injection Hry as <-. ring.
  - split; [intros Hwide; repeat split; nra | intros Hnarrow; lra].
Qed.

Lemma bars_tile_canvas_witness :
  (3 < 32)%nat ∧
  ∃ r, bars (fst (Player.drawVisualizer (Player.mkPage true (λ _, 0.5))
                    (Player.mkFrameInput 16 Fulfils [] (λ _, 0.25)) None (mkCanvas 320 150)
                    (mkAudio true 1 1 0 None) 0 (Player.mkSlideshow [] 0))) !! 3%nat = Some r ∧
       rx r == inject_Z (Z.of_nat 3) * (width (mkCanvas 320 150) / 32).
Proof.
  assert (Hk : (3 < 32)%nat) by lia.
  split; [exact Hk |].
  destruct (bars_tile_canvas (Player.mkPage true (λ _, 0.5))
              (Player.mkFrameInput 16 Fulfils [] (λ _, 0.25)) None (mkCanvas 320 150)
              (mkAudio true 1 1 0 None) 0 (Player.mkSlideshow [] 0) 3 Hk)
    as (r & Hr & Hx & _).
  exists r. split; [exact Hr | exact Hx].
Defined.

(** Below the thresholds the height of a bar is its entry of
    [pseudoWaveform], whatever the analyser and the frame bring. *)
Lemma rawBarHeight_idle pg analyser dataArray random (speed : Q) (i : nat) :
  speed <= 0.01 →
  Player.rawBarHeight pg analyser dataArray random speed i = Player.pseudoWaveform pg !! i.
Proof.
  intros Hs. unfold Player.rawBarHeight.
  assert (H1 : (speed >? 0.01) = false) by (apply gtb_le; lra).
  assert (H2 : (speed >? 0.02) = false) by (apply gtb_le; lra).
  rewrite H1, H2.
  by destruct analyser, (negb (Player.isLocalFile pg)), dataArray.
Qed.

Lemma drawBars_ext pg analyser analyser' dataArray dataArray' random random' speed speed'
    cv barWidth (x : Q) (ixs : list nat) :
  (∀ i, Player.rawBarHeight pg analyser dataArray random speed i
        = Player.rawBarHeight pg analyser' dataArray' random' speed' i) →
  Player.drawBars pg analyser dataArray random speed cv barWidth x ixs
  = Player.drawBars pg analyser' dataArray' random' speed' cv barWidth x ixs.
Proof.
  intros Hraw. revert x. induction ixs as [| i ixs IH]; intros x; [done |].
  cbn [Player.drawBars]. unfold Player.barHeightAt. by rewrite Hraw, IH.
Qed.

Lemma pseudoWaveform_lookup (pg : Player.Page) (i : nat) :
  (i < 32)%nat →
  Player.pseudoWaveform pg !! i = Some (Player.startupRandom pg i * 50 + 10).
Proof.
  intros Hi. unfold Player.pseudoWaveform.
  rewrite list_lookup_fmap, lookup_seq_lt by done. reflexivity.
Qed.

(** X10.  At rest the visualizer shows the waveform made when the script
    was installed, the same in every frame: for speeds up to 0.01 the bars
    do not depend on the analyser, on its data, on [Math.random()], on the
    audio element or on the speed; the height of bar [i] is its waveform
    entry, capped at the canvas height; with the start-up random numbers in
    [0, 1) it is at least 10 on a canvas at least 10 high, and below 60. *)
Theorem idle_bars_static :
  ∀ (pg : Player.Page) (cv : Canvas) (inp inp' : Player.FrameInput)
    (analyser analyser' : option Analyser) (a a' : Audio) (speed speed' : Q)
    (s s' : Player.Slideshow),
    speed <= 0.01 → speed' <= 0.01 →
    bars (fst (Player.drawVisualizer pg inp analyser cv a speed s))
    = bars (fst (Player.drawVisualizer pg inp' analyser' cv a' speed' s')) ∧
    ∀ i : nat,
      (i < 32)%nat →
      ∃ r, bars (fst (Player.drawVisualizer pg inp analyser cv a speed s)) !! i = Some r ∧
           rh r = Player.clampBar (height cv) (Some (Player.startupRandom pg i * 50 + 10)) ∧
           (0 <= Player.startupRandom pg i < 1 →
            ∃ h, rh r = Some h ∧ h < 60 ∧ h <= height cv ∧ (10 <= height cv → 10 <= h)).
Proof.
  intros pg cv inp inp' analyser analyser' a a' speed speed' s s' Hs Hs'.
  unfold Player.drawVisualizer. cbn [fst bars]. split.
  - apply drawBars_ext. intros i. by rewrite !rawBarHeight_idle.
  - intros i Hi.
    destruct (drawBars_lookup pg analyser
                (Player.dataArrayOf pg analyser (Player.snapshot inp)) (Player.random inp)
                speed cv (width cv / inject_Z (Z.of_nat Player.bufferLength) - 1) 0
                (seq 0 Player.bufferLength) i i) as (r & Hr & _ & _ & Hh & _).
    { apply lookup_seq. unfold Player.bufferLength. split; [done | lia]. }
    exists r. split; [exact Hr |].
    unfold Player.barHeightAt in Hh.
    rewrite rawBarHeight_idle, pseudoWaveform_lookup in Hh by done.
    split; [exact Hh |]. intros Hrand. rewrite Hh.
    destruct (clampBar_Some (height cv) (Player.startupRandom pg i * 50 + 10))
      as (h & -> & Heq & Hle & _ & _).
    exists h. split; [reflexivity |]. subst h.
    repeat split; cases_cmp; intros; lra.
Qed.

Lemma idle_bars_static_witness :
  0.005 <= 0.01 ∧ 0 <= 0.01 ∧
  bars (fst (Player.drawVisualizer (Player.mkPage false (λ _, 0.5))
               (Player.mkFrameInput 16 Fulfils [200; 100]%Z (λ _, 0.25))
               (Some (mkAnalyser 64)) (mkCanvas 320 150) (mkAudio true 1 1 0 None) 0.005
               (Player.mkSlideshow [] 0)))
  = bars (fst (Player.drawVisualizer (Player.mkPage false (λ _, 0.5))
                 (Player.mkFrameInput 32 Fulfils [] (λ _, 0.75))
                 None (mkCanvas 320 150) (mkAudio false 1 1 3 (Some 9)) 0
                 (Player.mkSlideshow [] 0))).
Proof.
  assert (H1 : 0.005 <= 0.01) by discriminate.
  assert (H2 : 0 <= 0.01) by discriminate.
  split; [exact H1 |]. split; [exact H2 |].
  exact (proj1 (idle_bars_static (Player.mkPage false (λ _, 0.5)) (mkCanvas 320 150)
                  (Player.mkFrameInput 16 Fulfils [200; 100]%Z (λ _, 0.25))
                  (Player.mkFrameInput 32 Fulfils [] (λ _, 0.75))
                  (Some (mkAnalyser 64)) None (mkAudio true 1 1 0 None)
                  (mkAudio false 1 1 3 (Some 9)) 0.005 0
                  (Player.mkSlideshow [] 0) (Player.mkSlideshow [] 0) H1 H2)).
Defined.

(** ** The drawing of the earlier revision *)

Lemma VoiceNoteApp_drawBars_length (dataArray : list Z) cv barWidth (x : Q) ixs :
  length (VoiceNoteApp.drawBars dataArray cv barWidth x ixs) = length ixs.
Proof. revert x. induction ixs as [| i ixs IH]; intros x; cbn; [done | by rewrite IH]. Qed.

Lemma VoiceNoteApp_drawBars_lookup (dataArray : list Z) cv barWidth (x : Q)
    (ixs : list nat) (k i : nat) :
  ixs !! k = Some i →
  ∃ r, VoiceNoteApp.drawBars dataArray cv barWidth x ixs !! k = Some r ∧
       rx r == x + inject_Z (Z.of_nat k) * (barWidth + 1) ∧
       rw r = barWidth ∧
       rh r = (λ b, inject_Z b / 2) <$> dataArray !! i ∧
       ry r = (λ h, height cv - h) <$> rh r.
Proof.
  revert x k. induction ixs as [| j ixs IH]; intros x k Hk; [done |].
  destruct k as [| k]; cbn [VoiceNoteApp.drawBars].
  - injection Hk as ->. eexists. split; [reflexivity |]. cbn [rx rw rh ry].
    split; [| done]. change (inject_Z (Z.of_nat 0)) with 0. ring.
  - destruct (IH (x + (barWidth + 1)) k Hk) as (r & Hr & Hx & Hrest).
    exists r. split; [exact Hr |]. split; [| exact Hrest].
    rewrite Hx, Nat2Z.inj_succ, <- Z.add_1_r, inject_Z_plus.
    change (inject_Z 1) with 1. ring.
Qed.

(** X11.  In the earlier revision nothing is drawn, and nothing thrown,
    before the audio is set up.  Once it is, a frame draws one bar per
    frequency bin; bar [k] has half the magnitude of bin [k] as its height,
    always a number, between 0 and 127.5 for a byte, and is not clamped: a
    bar higher than the canvas starts above its top edge.  Bar [k] starts at
    k * (2.5 * width / bins + 1), so with the 32 bins of FFT size 64 the
    bars from the 13th on start beyond the right edge of the canvas. *)
Theorem VoiceNoteApp_bars :
  ∀ (inp : VoiceNoteApp.FrameInput) (w : VoiceNoteApp.World) (a : Audio),
    (VoiceNoteApp.isAudioSetup w = false →
     VoiceNoteApp.drawVisualizer inp w a = (None, None)) ∧
    (∀ an : Analyser,
       VoiceNoteApp.isAudioSetup w = true →
       VoiceNoteApp.analyser w = Some an →
       ∃ d, VoiceNoteApp.drawVisualizer inp w a = (Some d, None) ∧
            length (bars d) = frequencyBinCount an ∧
            ∀ k : nat,
              (k < frequencyBinCount an)%nat →
              ∃ (b : Z) (r : Rect),
                byteFrequencyData an (VoiceNoteApp.snapshot inp) !! k = Some b ∧
                bars d !! k = Some r ∧
                rh r = Some (inject_Z b / 2) ∧
                ry r = Some (height (VoiceNoteApp.canvas w) - inject_Z b / 2) ∧
                rx r == inject_Z (Z.of_nat k)
                        * (width (VoiceNoteApp.canvas w)
                           / inject_Z (Z.of_nat (frequencyBinCount an)) * 2.5 + 1) ∧
                ((0 <= b <= 255)%Z → 0 <= inject_Z b / 2 <= 127.5) ∧
                (height (VoiceNoteApp.canvas w) < inject_Z b / 2 →
                 height (VoiceNoteApp.canvas w) - inject_Z b / 2 < 0) ∧
                (fftSize an = 64%nat → (13 <= k)%nat → 0 < width (VoiceNoteApp.canvas w) →
                 width (VoiceNoteApp.canvas w) < rx r)).
Proof.
  intros inp w a. unfold VoiceNoteApp.drawVisualizer. split; [by intros -> |].
  intros an -> ->. cbn [negb]. eexists. split; [reflexivity |]. cbn [bars].
  split; [by rewrite VoiceNoteApp_drawBars_length, length_seq |].
  intros k Hk.
  destruct (lookup_lt_is_Some_2 (byteFrequencyData an (VoiceNoteApp.snapshot inp)) k)
    as [b Hb]; [by rewrite byteFrequencyData_length |].
  destruct (VoiceNoteApp_drawBars_lookup (byteFrequencyData an (VoiceNoteApp.snapshot inp))
              (VoiceNoteApp.canvas w)
              (width (VoiceNoteApp.canvas w) / inject_Z (Z.of_nat (frequencyBinCount an)) * 2.5)
              0 (seq 0 (frequencyBinCount an)) k k) as (r & Hr & Hx & _ & Hh & Hy).
  { apply lookup_seq. split; [done | lia]. }
  rewrite Hb in Hh. cbn [fmap option_fmap option_map] in Hh.
  rewrite Hh in Hy. cbn [fmap option_fmap option_map] in Hy.
  exists b, r. split; [done |]. split; [done |]. split; [done |]. split; [done |].
  split; [rewrite Hx; ring |]. split; [| split].
  - intros [Hb0 Hb255].
    assert (0 <= inject_Z b <= 255).
    { change 0 with (inject_Z 0). change 255 with (inject_Z 255). rewrite <- !Zle_Qle. lia. }
    change (inject_Z b / 2) with (inject_Z b * (1 # 2)). lra.
  - intros Hhigh. lra.
  - intros Hfft H13 Hwide. rewrite Hx.
    unfold frequencyBinCount. rewrite Hfft.
    change (inject_Z (Z.of_nat (64 `div` 2))) with 32.
    change (width (VoiceNoteApp.canvas w) / 32 * 2.5)
      with (width (VoiceNoteApp.canvas w) * (1 # 32) * 2.5).
    assert (HK : 13 <= inject_Z (Z.of_nat k)).
    { change 13 with (inject_Z 13). rewrite <- Zle_Qle. lia. }
    revert HK. generalize (inject_Z (Z.of_nat k)). intros K HK. nra.
Qed.

Lemma VoiceNoteApp_bars_witness :
  VoiceNoteApp.isAudioSetup
    (VoiceNoteApp.mkWorld initialCrank (mkAudio true 1 1 0 None) true (Some (mkAnalyser 64))
       (mkCanvas 320 100)) = true ∧
  ∃ d, VoiceNoteApp.drawVisualizer (VoiceNoteApp.mkFrameInput 16 Fulfils [255; 10]%Z)
         (VoiceNoteApp.mkWorld initialCrank (mkAudio true 1 1 0 None) true
            (Some (mkAnalyser 64)) (mkCanvas 320 100)) (mkAudio true 1 1 0 None)
       = (Some d, None) ∧
       length (bars d) = frequencyBinCount (mkAnalyser 64).
Proof.
  split; [reflexivity |].
  destruct (proj2 (VoiceNoteApp_bars (VoiceNoteApp.mkFrameInput 16 Fulfils [255; 10]%Z)
                     (VoiceNoteApp.mkWorld initialCrank (mkAudio true 1 1 0 None) true
                        (Some (mkAnalyser 64)) (mkCanvas 320 100))
                     (mkAudio true 1 1 0 None)) (mkAnalyser 64) eq_refl eq_refl)
    as (d & Hd & Hlen & _).
  exists d. split; [exact Hd | exact Hlen].
Defined.

(** ** The current revision, event after event *)

Lemma updatePhotos_length (progress : Q) (s : Player.Slideshow) :
  Player.SlideshowReady s →
  length (Player.photos (fst (Player.updatePhotos progress s))) = length (Player.photos s).
Proof.
  intros [Hnil | Hcur].
  - by rewrite (updatePhotos_empty _ _ Hnil).
  - destruct (updatePhotos_spec progress s Hcur) as (old & new & _ & _ & ->). cbn [fst].
    destruct (Z.eqb_spec (Player.photoIndex progress (Z.of_nat (length (Player.photos s))))
                (Player.currentPhotoIndex s)); [done |].
    cbn [Player.photos]. by rewrite !length_insert.
Qed.

(** What a frame leaves of the slideshow. *)
Lemma loop_slideshow (pg : Player.Page) (inp : Player.FrameInput) (w : Player.World) :
  Player.slideshow (fst (Player.loop pg inp w))
  = fst (Player.updatePhotos (progressOf (Player.audio w)) (Player.slideshow w)).
Proof.
  rewrite loop_unfold. cbv zeta. cbn [fst Player.slideshow].
  unfold Player.drawVisualizer. cbn [fst snd]. by rewrite loopAudio_progress.
Qed.

Lemma loop_crank (pg : Player.Page) (inp : Player.FrameInput) (w : Player.World) :
  Player.crank (fst (Player.loop pg inp w))
  = loopPhysics (Player.time inp) (Player.crank w).
Proof. rewrite loop_unfold. reflexivity. Qed.

Lemma loop_audio (pg : Player.Page) (inp : Player.FrameInput) (w : Player.World) :
  Player.audio (fst (Player.loop pg inp w))
  = fst (loopAudio Ignore (Player.playAnswer inp)
           (speedOf (loopPhysics (Player.time inp) (Player.crank w))) (Player.audio w)).
Proof. rewrite loop_unfold. reflexivity. Qed.

Lemma loop_analyser (pg : Player.Page) (inp : Player.FrameInput) (w : Player.World) :
  Player.analyser (fst (Player.loop pg inp w)) = Player.analyser w.
Proof. rewrite loop_unfold. reflexivity. Qed.

Section PlayerEvents.
Import PlayerScript.

Variable pg : Player.Page.

(** Only a frame touches the slideshow. *)
Lemma handle_slideshow (ev : Event) (s : Script) :
  Player.slideshow (world (handle pg ev s))
  = match ev with
    | Frame inp => fst (Player.updatePhotos (progressOf (Player.audio (world s)))
                          (Player.slideshow (world s)))
    | _ => Player.slideshow (world s)
    end.
Proof.
  destruct ev; cbn [handle world]; try reflexivity; try apply loop_slideshow.
  - unfold setupAudio. destruct (isAudioSetup s), (Player.isLocalFile pg); try reflexivity.
    by destruct (trySetup ans (audioContext s) (Player.analyser (world s))) as [[? ?] ?].
  - unfold setupAudio. cbn [isAudioSetup world audioContext].
    destruct (isAudioSetup s), (Player.isLocalFile pg); try reflexivity.
    by destruct (trySetup ans (audioContext s) _) as [[? ?] ?].
Qed.

Lemma handle_ready (ev : Event) (s : Script) :
  Player.SlideshowReady (Player.slideshow (world s)) →
  Player.SlideshowReady (Player.slideshow (world (handle pg ev s))) ∧
  length (Player.photos (Player.slideshow (world (handle pg ev s))))
  = length (Player.photos (Player.slideshow (world s))).
Proof.
  intros Hready. rewrite handle_slideshow. destruct ev; try done.
  destruct (updatePhotos_ready (progressOf (Player.audio (world s))) _ Hready)
    as (s' & Hupd & Hready').
  split; [by rewrite Hupd | by apply updatePhotos_length].
Qed.

Lemma run_ready (evs : list Event) (s : Script) :
  Player.SlideshowReady (Player.slideshow (world s)) →
  Player.SlideshowReady (Player.slideshow (world (run pg evs s))) ∧
  length (Player.photos (Player.slideshow (world (run pg evs s))))
  = length (Player.photos (Player.slideshow (world s))).
Proof.
  revert s. induction evs as [| ev evs IH]; intros s Hready; [done |].
  cbn [run]. destruct (handle_ready ev s Hready) as [Hready' Hlen].
  destruct (IH _ Hready') as [Hready'' Hlen']. split; [done | congruence].
Qed.

Lemma initial_ready (photos : list (gset string)) (cv : Canvas) (a : Audio) :
  Player.SlideshowReady (Player.slideshow (world (initial photos cv a))).
Proof.
  cbn. destruct photos as [| p photos]; [by left | right].
  cbn [Player.photos Player.currentPhotoIndex length]. lia.
Qed.

Lemma handle_one_active (ev : Event) (s : Script) :
  Player.OnlyActiveAt (Player.photos (Player.slideshow (world s)))
    (Player.currentPhotoIndex (Player.slideshow (world s))) →
  Player.OnlyActiveAt (Player.photos (Player.slideshow (world (handle pg ev s))))
    (Player.currentPhotoIndex (Player.slideshow (world (handle pg ev s)))).
Proof.
  intros Hinv. rewrite handle_slideshow. destruct ev; try done.
  destruct (updatePhotos_OnlyActiveAt (progressOf (Player.audio (world s))) _ Hinv)
    as (s' & Hupd & _ & _ & Hinv' & _).
  by rewrite Hupd.
Qed.

Lemma run_one_active (evs : list Event) (s : Script) :
  Player.OnlyActiveAt (Player.photos (Player.slideshow (world s)))
    (Player.currentPhotoIndex (Player.slideshow (world s))) →
  Player.OnlyActiveAt (Player.photos (Player.slideshow (world (run pg evs s))))
    (Player.currentPhotoIndex (Player.slideshow (world (run pg evs s)))).
Proof.
  revert s. induction evs as [| ev evs IH]; intros s Hinv; [done |].
  cbn [run]. apply IH. by apply handle_one_active.
Qed.

(** Once [isAudioSetup] is set, no handler changes it or the analyser. *)
Lemma handle_setup_done (ev : Event) (s : Script) :
  isAudioSetup s = true →
  isAudioSetup (handle pg ev s) = true ∧
  Player.analyser (world (handle pg ev s)) = Player.analyser (world s).
Proof.
  intros Hset. destruct ev; cbn [handle world isAudioSetup]; try done.
  - unfold setupAudio. by rewrite Hset.
  - unfold setupAudio. cbn [isAudioSetup]. by rewrite Hset.
  - split; [done | apply loop_analyser].
Qed.

Lemma run_setup_done (evs : list Event) (s : Script) :
  isAudioSetup s = true →
  isAudioSetup (run pg evs s) = true ∧
  Player.analyser (world (run pg evs s)) = Player.analyser (world s).
Proof.
  revert s. induction evs as [| ev evs IH]; intros s Hset; [done |].
  cbn [run]. destruct (handle_setup_done ev s Hset) as [Hset' Han].
  destruct (IH _ Hset') as [Hset'' Han']. split; [done | congruence].
Qed.

(** In the local file mode no handler stores an analyser. *)
Lemma handle_local_file (ev : Event) (s : Script) :
  Player.isLocalFile pg = true →
  Player.analyser (world (handle pg ev s)) = Player.analyser (world s).
Proof.
  intros Hlocal. destruct ev; cbn [handle world]; try done.
  - unfold setupAudio. rewrite Hlocal. by destruct (isAudioSetup s).
  - unfold setupAudio. cbn [isAudioSetup world]. rewrite Hlocal. by destruct (isAudioSetup s).
  - apply loop_analyser.
Qed.

Lemma run_local_file (evs : list Event) (s : Script) :
  Player.isLocalFile pg = true →
  Player.analyser (world (run pg evs s)) = Player.analyser (world s).
Proof.
  intros Hlocal. revert s. induction evs as [| ev evs IH]; intros s; [done |].
  cbn [run]. by rewrite IH, handle_local_file.
Qed.

End PlayerEvents.

(** X12.  The frame loop of the current revision never stops: from the
    state in which the script is installed, after any sequence of pointer
    events, gestures, resizes, frames and changes of the audio element, a
    frame ends without exception and requests the next frame; the number of
    photos is still that of the page. *)
Theorem loop_never_stops :
  ∀ (pg : Player.Page) (photos : list (gset string)) (cv : Canvas) (a : Audio)
    (evs : list PlayerScript.Event) (inp : Player.FrameInput),
    Player.thrown (snd (Player.loop pg inp
      (PlayerScript.world (PlayerScript.run pg evs (PlayerScript.initial photos cv a)))))
    = None ∧
    Player.animationFrameRequested (snd (Player.loop pg inp
      (PlayerScript.world (PlayerScript.run pg evs (PlayerScript.initial photos cv a)))))
    = true ∧
    length (Player.photos (Player.slideshow
      (PlayerScript.world (PlayerScript.run pg evs (PlayerScript.initial photos cv a)))))
    = length photos.
Proof.
  intros pg photos cv a evs inp.
  destruct (run_ready pg evs _ (initial_ready photos cv a)) as [Hready Hlen].
  destruct (loop_completes pg inp _ Hready) as (Hthrown & Hraf & _).
  done.
Qed.

(** X13.  If the page marks its first photo, and only it, as active, then
    after any sequence of events exactly one photo is active, the one at the
    stored index. *)
Theorem one_active_photo_always :
  ∀ (pg : Player.Page) (photos : list (gset string)) (cv : Canvas) (a : Audio)
    (evs : list PlayerScript.Event),
    Player.OnlyActiveAt photos 0 →
    Player.OnlyActiveAt
      (Player.photos (Player.slideshow
         (PlayerScript.world (PlayerScript.run pg evs (PlayerScript.initial photos cv a)))))
      (Player.currentPhotoIndex (Player.slideshow
         (PlayerScript.world (PlayerScript.run pg evs (PlayerScript.initial photos cv a))))) ∧
    Player.activeCount
      (Player.photos (Player.slideshow
         (PlayerScript.world (PlayerScript.run pg evs (PlayerScript.initial photos cv a)))))
    = 1%nat.
Proof.
  intros pg photos cv a evs Hinv.
  pose proof (run_one_active pg evs (PlayerScript.initial photos cv a) Hinv) as Hinv'.
  split; [exact Hinv' | by apply (OnlyActiveAt_count _ _ Hinv')].
Qed.

Lemma one_active_photo_always_witness :
  Player.OnlyActiveAt [ {["photo"; "active"]}; {["photo"]}; {["photo"]} ] 0 ∧
  Player.activeCount
    (Player.photos (Player.slideshow
       (PlayerScript.world
          (PlayerScript.run (Player.mkPage true (λ _, 0.5))
             [ PlayerScript.Media (mkAudio false 1 1 50 (Some 60));
               PlayerScript.Frame (Player.mkFrameInput 16 Fulfils [] (λ _, 0.25)) ]
             (PlayerScript.initial [ {["photo"; "active"]}; {["photo"]}; {["photo"]} ]
                (mkCanvas 320 150) (mkAudio true 1 1 0 None))))))
  = 1%nat.
Proof.
  assert (Hinv : Player.OnlyActiveAt [ {["photo"; "active"]}; {["photo"]}; {["photo"]} ] 0).
  { split.
    - eexists. split; [reflexivity |].
      apply elem_of_union. right. by apply elem_of_singleton.
    - intros [| [| [| i]]] p Hp Hin; [done | | | done];
        injection Hp as <-; apply elem_of_singleton in Hin; discriminate. }
  split; [exact Hinv |].
  exact (proj2 (one_active_photo_always (Player.mkPage true (λ _, 0.5)) _ (mkCanvas 320 150)
                  (mkAudio true 1 1 0 None)
                  [ PlayerScript.Media (mkAudio false 1 1 50 (Some 60));
                    PlayerScript.Frame (Player.mkFrameInput 16 Fulfils [] (λ _, 0.25)) ]
                  Hinv)).
Defined.

(** X14.  In the current revision the audio is set up once: the first
    gesture or press sets [isAudioSetup], whether the set-up succeeds, fails
    or is skipped for a local file, and from then on no event changes the
    flag or the analyser, so a failed set-up is not tried again.  On a page
    opened from a local file no analyser is ever stored. *)
Theorem setupAudio_once :
  ∀ pg : Player.Page,
    (∀ (ans : SetupAnswer) (angle : Q) (s : PlayerScript.Script),
       PlayerScript.isAudioSetup (PlayerScript.handle pg (PlayerScript.Gesture ans) s) = true ∧
       PlayerScript.isAudioSetup (PlayerScript.handle pg (PlayerScript.MouseDown angle ans) s)
       = true) ∧
    (∀ (evs : list PlayerScript.Event) (s : PlayerScript.Script),
       PlayerScript.isAudioSetup s = true →
       PlayerScript.isAudioSetup (PlayerScript.run pg evs s) = true ∧
       Player.analyser (PlayerScript.world (PlayerScript.run pg evs s))
       = Player.analyser (PlayerScript.world s)) ∧
    (Player.isLocalFile pg = true →
     ∀ (evs : list PlayerScript.Event) (photos : list (gset string)) (cv : Canvas) (a : Audio),
       Player.analyser
         (PlayerScript.world (PlayerScript.run pg evs (PlayerScript.initial photos cv a)))
       = None).
Proof.
  intros pg. split; [| split].
  - intros ans angle s. cbn [PlayerScript.handle]. unfold PlayerScript.setupAudio.
    cbn [PlayerScript.isAudioSetup PlayerScript.world PlayerScript.audioContext].
    split.
    + destruct (PlayerScript.isAudioSetup s) eqn:Hset; [done |].
      destruct (Player.isLocalFile pg); [done |].
      by destruct (trySetup ans _ _) as [[? ?] ?].
    + destruct (PlayerScript.isAudioSetup s) eqn:Hset; [done |].
      destruct (Player.isLocalFile pg); [done |].
      by destruct (trySetup ans _ _) as [[? ?] ?].
  - intros evs s Hset. by apply run_setup_done.
  - intros Hlocal evs photos cv a. by rewrite run_local_file.
Qed.

Lemma setupAudio_once_witness :
  PlayerScript.isAudioSetup
    (PlayerScript.handle (Player.mkPage false (λ _, 0.5))
       (PlayerScript.Gesture (mkSetupAnswer Suspended (mkAnalyser 2048)
                                (Some (CreateSource, "InvalidStateError"))))
       (PlayerScript.initial [] (mkCanvas 320 150) (mkAudio true 1 1 0 None))) = true ∧
  Player.analyser
    (PlayerScript.world
       (PlayerScript.run (Player.mkPage false (λ _, 0.5))
          [ PlayerScript.Gesture (mkSetupAnswer Running (mkAnalyser 2048) None) ]
          (PlayerScript.handle (Player.mkPage false (λ _, 0.5))
             (PlayerScript.Gesture (mkSetupAnswer Suspended (mkAnalyser 2048)
                                      (Some (CreateSource, "InvalidStateError"))))
             (PlayerScript.initial [] (mkCanvas 320 150) (mkAudio true 1 1 0 None)))))
  = Player.analyser
      (PlayerScript.world
         (PlayerScript.handle (Player.mkPage false (λ _, 0.5))
            (PlayerScript.Gesture (mkSetupAnswer Suspended (mkAnalyser 2048)
                                     (Some (CreateSource, "InvalidStateError"))))
            (PlayerScript.initial [] (mkCanvas 320 150) (mkAudio true 1 1 0 None)))).
Proof.
  split; [reflexivity |].
  exact (proj2 (proj1 (proj2 (setupAudio_once (Player.mkPage false (λ _, 0.5))))
                  [ PlayerScript.Gesture (mkSetupAnswer Running (mkAnalyser 2048) None) ]
                  (PlayerScript.handle (Player.mkPage false (λ _, 0.5))
                     (PlayerScript.Gesture (mkSetupAnswer Suspended (mkAnalyser 2048)
                                              (Some (CreateSource, "InvalidStateError"))))
                     (PlayerScript.initial [] (mkCanvas 320 150) (mkAudio true 1 1 0 None)))
                  eq_refl)).
Defined.

(** ** The earlier revision, event after event *)

Section VoiceNoteEvents.
Import VoiceNoteScript.

(** The press handler, on the set-up flag and the analyser. *)
Lemma startDrag_setup (angle : Q) (sans : SetupAnswer) (pans : PlayAnswer)
    (w : VoiceNoteApp.World) :
  (VoiceNoteApp.isAudioSetup w = true →
   VoiceNoteApp.isAudioSetup (fst (startDrag angle sans pans w)) = true ∧
   VoiceNoteApp.analyser (fst (startDrag angle sans pans w)) = VoiceNoteApp.analyser w) ∧
  (VoiceNoteApp.isAudioSetup w = false → failure sans = None →
   VoiceNoteApp.isAudioSetup (fst (startDrag angle sans pans w)) = true ∧
   VoiceNoteApp.analyser (fst (startDrag angle sans pans w)) = Some (mkAnalyser 64)) ∧
  (VoiceNoteApp.isAudioSetup w = false → failure sans ≠ None →
   VoiceNoteApp.isAudioSetup (fst (startDrag angle sans pans w)) = false).
Proof.
  unfold startDrag, setupAudio, trySetup, setCrank.
  cbn [VoiceNoteApp.isAudioSetup VoiceNoteApp.analyser VoiceNoteApp.audio].
  split; [| split].
  - intros Hset. rewrite Hset. cbn [negb fst VoiceNoteApp.isAudioSetup VoiceNoteApp.analyser].
    done.
  - intros Hset Hfail. rewrite Hset, Hfail. cbn [negb]. by destruct pans.
  - intros Hset Hfail. rewrite Hset. cbn [negb].
    destruct (failure sans) as [[[] msg] |]; [| | | | done]; by destruct pans.
Qed.

Lemma handle_SetUp (ev : Event) (w : VoiceNoteApp.World) : SetUp w → SetUp (handle ev w).
Proof.
  unfold SetUp. intros Hinv. destruct ev; cbn [handle]; try exact Hinv.
  - destruct (startDrag_setup angle sans pans w) as (Hdone & Hok & Hfail).
    destruct (VoiceNoteApp.isAudioSetup w) eqn:Hset.
    + intros _. destruct Hdone as [_ ->]; [done |]. by apply Hinv.
    + destruct (failure sans) eqn:Hf.
      * rewrite Hfail; [done | done | congruence].
      * intros _. by apply Hok.
  - rewrite VoiceNoteApp_loop_unfold. exact Hinv.
Qed.

Lemma run_SetUp (evs : list Event) (w : VoiceNoteApp.World) : SetUp w → SetUp (run evs w).
Proof.
  revert w. induction evs as [| ev evs IH]; intros w Hinv; [done |].
  cbn [run]. apply IH. by apply handle_SetUp.
Qed.

End VoiceNoteEvents.

(** X15.  The frame loop of the earlier revision never stops either: from
    the state in which the script is installed, after any sequence of
    events, the flag [isAudioSetup] is set only with the analyser of FFT
    size 64 in place, a frame ends without exception and requests the next
    one, and it draws nothing while the flag is down and exactly 32 bars
    once it is up. *)
Theorem VoiceNoteApp_loop_never_stops :
  ∀ (cv : Canvas) (a : Audio) (evs : list VoiceNoteScript.Event)
    (inp : VoiceNoteApp.FrameInput),
    (VoiceNoteApp.isAudioSetup (VoiceNoteScript.run evs (VoiceNoteScript.initial cv a)) = true →
     VoiceNoteApp.analyser (VoiceNoteScript.run evs (VoiceNoteScript.initial cv a))
     = Some (mkAnalyser 64)) ∧
    VoiceNoteApp.thrown
      (snd (VoiceNoteApp.loop inp (VoiceNoteScript.run evs (VoiceNoteScript.initial cv a))))
    = None ∧
    VoiceNoteApp.animationFrameRequested
      (snd (VoiceNoteApp.loop inp (VoiceNoteScript.run evs (VoiceNoteScript.initial cv a))))
    = true ∧
    match VoiceNoteApp.drawing
            (snd (VoiceNoteApp.loop inp
                    (VoiceNoteScript.run evs (VoiceNoteScript.initial cv a)))) with
    | None =>
        VoiceNoteApp.isAudioSetup (VoiceNoteScript.run evs (VoiceNoteScript.initial cv a))
        = false
    | Some d => length (bars d) = 32%nat
    end.
Proof.
  intros cv a evs inp.
  assert (Hinv : VoiceNoteScript.SetUp (VoiceNoteScript.run evs (VoiceNoteScript.initial cv a)))
    by (apply run_SetUp; intros Hset; discriminate).
  revert Hinv. generalize (VoiceNoteScript.run evs (VoiceNoteScript.initial cv a)).
  intros w Hinv. split; [exact Hinv |].
  rewrite VoiceNoteApp_loop_unfold. cbv zeta.
  cbn [snd VoiceNoteApp.thrown VoiceNoteApp.animationFrameRequested VoiceNoteApp.drawing].
  unfold VoiceNoteApp.drawVisualizer.
  destruct (VoiceNoteApp.isAudioSetup w) eqn:Hset; cbn [negb fst snd]; [| done].
  rewrite (Hinv Hset). cbn [fst snd bars].
  split; [done |]. split; [done |].
  by rewrite VoiceNoteApp_drawBars_length, length_seq.
Qed.

Lemma VoiceNoteApp_loop_never_stops_witness :
  VoiceNoteApp.isAudioSetup
    (VoiceNoteScript.run
       [ VoiceNoteScript.MouseDown 1 (mkSetupAnswer Running (mkAnalyser 2048) None) Fulfils ]
       (VoiceNoteScript.initial (mkCanvas 320 150) (mkAudio true 1 1 0 None))) = true ∧
  VoiceNoteApp.analyser
    (VoiceNoteScript.run
       [ VoiceNoteScript.MouseDown 1 (mkSetupAnswer Running (mkAnalyser 2048) None) Fulfils ]
       (VoiceNoteScript.initial (mkCanvas 320 150) (mkAudio true 1 1 0 None)))
  = Some (mkAnalyser 64).
Proof.
  split; [reflexivity |].
  exact (proj1 (VoiceNoteApp_loop_never_stops (mkCanvas 320 150) (mkAudio true 1 1 0 None)
                  [ VoiceNoteScript.MouseDown 1 (mkSetupAnswer Running (mkAnalyser 2048) None)
                      Fulfils ]
                  (VoiceNoteApp.mkFrameInput 16 Fulfils [])) eq_refl).
Defined.

(** X16.  A press in the earlier revision always starts the drag at the
    pressed angle.  While the audio is not set up, every press tries the
    set-up again, which sets the flag exactly when no statement of it
    throws, and calls [play()] to unlock the audio: a rejection is taken by
    the handler of [catch] and leaves the element as it was, a granted call
    leaves it playing until the callback of [then] pauses it, and on a host
    whose [play()] returns no promise the handler ends with a [TypeError],
    the drag already started.  Once the audio is set up a press only starts
    the drag. *)
Theorem VoiceNoteApp_press :
  ∀ (angle : Q) (sans : SetupAnswer) (pans : PlayAnswer) (w : VoiceNoteApp.World),
    let r := VoiceNoteScript.startDrag angle sans pans w in
    VoiceNoteApp.crank (fst r) = startDrag angle (VoiceNoteApp.crank w) ∧
    (VoiceNoteApp.isAudioSetup w = true →
     fst r = VoiceNoteScript.setCrank (startDrag angle (VoiceNoteApp.crank w)) w ∧
     VoiceNoteScript.played (snd r) = false ∧
     VoiceNoteScript.thrown (snd r) = None) ∧
    (VoiceNoteApp.isAudioSetup w = false →
     VoiceNoteScript.played (snd r) = true ∧
     unhandledRejections (VoiceNoteScript.unlockPromises (snd r)) = [] ∧
     (VoiceNoteApp.isAudioSetup (fst r) = true ↔ failure sans = None) ∧
     (VoiceNoteScript.thrown (snd r) = Some TypeError ↔ pans = NoPromise) ∧
     (∀ reason, pans = Rejects reason →
                VoiceNoteApp.audio (fst r) = VoiceNoteApp.audio w) ∧
     (pans = Fulfils →
      paused (VoiceNoteApp.audio (fst r)) = false ∧
      paused (VoiceNoteApp.audio (VoiceNoteScript.handle VoiceNoteScript.Unlocked (fst r)))
      = true)).
Proof.
  intros angle sans pans w r. subst r.
  destruct (startDrag_setup angle sans pans w) as (_ & Hok & Hfail).
  split; [| split].
  - unfold VoiceNoteScript.startDrag, VoiceNoteScript.setupAudio, trySetup.
    unfold VoiceNoteScript.setCrank.
    cbn [VoiceNoteApp.isAudioSetup VoiceNoteApp.analyser VoiceNoteApp.audio VoiceNoteApp.crank].
    destruct (VoiceNoteApp.isAudioSetup w); cbn [negb]; [done |].
    destruct (failure sans) as [[[] msg] |]; by destruct pans.
  - intros Hset. unfold VoiceNoteScript.startDrag, VoiceNoteScript.setCrank.
    cbn [VoiceNoteApp.isAudioSetup]. by rewrite Hset.
  - intros Hset. split; [| split; [| split; [| split; [| split]]]].
    + unfold VoiceNoteScript.startDrag, VoiceNoteScript.setupAudio, trySetup.
      unfold VoiceNoteScript.setCrank.
      cbn [VoiceNoteApp.isAudioSetup VoiceNoteApp.analyser VoiceNoteApp.audio].
      rewrite Hset. cbn [negb].
      destruct (failure sans) as [[[] msg] |]; by destruct pans.
    + unfold VoiceNoteScript.startDrag, VoiceNoteScript.setupAudio, trySetup.
      unfold VoiceNoteScript.setCrank.
      cbn [VoiceNoteApp.isAudioSetup VoiceNoteApp.analyser VoiceNoteApp.audio].
      rewrite Hset. cbn [negb].
      destruct (failure sans) as [[[] msg] |]; by destruct pans.
    + split.
      * intros Hup. destruct (failure sans) eqn:Hf; [| done].
        rewrite Hfail in Hup; [done | done | congruence].
      * intros Hf. by apply Hok.
    + unfold VoiceNoteScript.startDrag, VoiceNoteScript.setupAudio, trySetup.
      unfold VoiceNoteScript.setCrank.
      cbn [VoiceNoteApp.isAudioSetup VoiceNoteApp.analyser VoiceNoteApp.audio].
      rewrite Hset. cbn [negb].
      destruct (failure sans) as [[[] msg] |]; by destruct pans.
    + intros reason ->.
      unfold VoiceNoteScript.startDrag, VoiceNoteScript.setupAudio, trySetup.
      unfold VoiceNoteScript.setCrank.
      cbn [VoiceNoteApp.isAudioSetup VoiceNoteApp.analyser VoiceNoteApp.audio].
      rewrite Hset. cbn [negb].
      by destruct (failure sans) as [[[] msg] |].
    + intros ->.
      unfold VoiceNoteScript.startDrag, VoiceNoteScript.setupAudio, trySetup.
      unfold VoiceNoteScript.setCrank.
      cbn [VoiceNoteApp.isAudioSetup VoiceNoteApp.analyser VoiceNoteApp.audio].
      rewrite Hset. cbn [negb].
      by destruct (failure sans) as [[[] msg] |].
Qed.

Lemma VoiceNoteApp_press_witness :
  VoiceNoteApp.isAudioSetup (VoiceNoteScript.initial (mkCanvas 320 150) (mkAudio true 1 1 0 None))
  = false ∧
  VoiceNoteScript.thrown
    (snd (VoiceNoteScript.startDrag 1 (mkSetupAnswer Running (mkAnalyser 2048) None) NoPromise
            (VoiceNoteScript.initial (mkCanvas 320 150) (mkAudio true 1 1 0 None))))
  = Some TypeError.
Proof.
  split; [reflexivity |].
  exact (proj2 (proj1 (proj2 (proj2 (proj2 (proj2 (proj2
           (VoiceNoteApp_press 1 (mkSetupAnswer Running (mkAnalyser 2048) None) NoPromise
              (VoiceNoteScript.initial (mkCanvas 320 150) (mkAudio true 1 1 0 None))))
           eq_refl))))) eq_refl).
Defined.

(** ** The rotation on the page *)

Lemma handlers_Synced (c : Crank) :
  Synced c →
  (∀ angle, Synced (startDrag angle c)) ∧
  (∀ angle, Synced (moveDrag angle c)) ∧
  Synced (endDrag c) ∧
  (∀ time, Synced (loopPhysics time c)).
Proof.
  unfold Synced. intros Hs. split; [done |]. split; [| split; [done |]].
  - intros angle. destruct (isDragging c) eqn:Hd.
    + rewrite (moveDrag_dragging _ _ Hd). cbn [spinnerRotation currentAngle]. reflexivity.
    + by rewrite (moveDrag_released _ _ Hd).
  - intros time. destruct (isDragging c) eqn:Hd.
    + by rewrite (loopPhysics_dragging _ _ Hd).
    + rewrite (loopPhysics_released _ _ Hd). cbn [spinnerRotation currentAngle]. reflexivity.
Qed.

Lemma PlayerScript_handle_crank (pg : Player.Page) (ev : PlayerScript.Event)
    (s : PlayerScript.Script) :
  Player.crank (PlayerScript.world (PlayerScript.handle pg ev s))
  = match ev with
    | PlayerScript.MouseDown angle _ => startDrag angle (Player.crank (PlayerScript.world s))
    | PlayerScript.MouseMove angle => moveDrag angle (Player.crank (PlayerScript.world s))
    | PlayerScript.MouseUp => endDrag (Player.crank (PlayerScript.world s))
    | PlayerScript.Frame inp =>
        loopPhysics (Player.time inp) (Player.crank (PlayerScript.world s))
    | _ => Player.crank (PlayerScript.world s)
    end.
Proof.
  destruct ev; cbn [PlayerScript.handle PlayerScript.world]; try reflexivity;
    try apply loop_crank.
  - unfold PlayerScript.setupAudio.
    destruct (PlayerScript.isAudioSetup s), (Player.isLocalFile pg); try reflexivity.
    by destruct (trySetup ans _ _) as [[? ?] ?].
  - unfold PlayerScript.setupAudio.
    cbn [PlayerScript.isAudioSetup PlayerScript.world PlayerScript.audioContext].
    destruct (PlayerScript.isAudioSetup s), (Player.isLocalFile pg); try reflexivity.
    by destruct (trySetup ans _ _) as [[? ?] ?].
Qed.

Lemma VoiceNoteScript_handle_crank (ev : VoiceNoteScript.Event) (w : VoiceNoteApp.World) :
  VoiceNoteApp.crank (VoiceNoteScript.handle ev w)
  = match ev with
    | VoiceNoteScript.MouseDown angle _ _ => startDrag angle (VoiceNoteApp.crank w)
    | VoiceNoteScript.MouseMove angle => moveDrag angle (VoiceNoteApp.crank w)
    | VoiceNoteScript.MouseUp => endDrag (VoiceNoteApp.crank w)
    | VoiceNoteScript.Frame inp => loopPhysics (VoiceNoteApp.time inp) (VoiceNoteApp.crank w)
    | _ => VoiceNoteApp.crank w
    end.
Proof.
  destruct ev; cbn [VoiceNoteScript.handle]; try reflexivity.
  - unfold VoiceNoteScript.startDrag, VoiceNoteScript.setupAudio, trySetup,
      VoiceNoteScript.setCrank.
    cbn [VoiceNoteApp.isAudioSetup VoiceNoteApp.analyser VoiceNoteApp.audio VoiceNoteApp.crank].
    destruct (VoiceNoteApp.isAudioSetup w); cbn [negb]; [done |].
    destruct (failure sans) as [[[] msg] |]; by destruct pans.
  - by rewrite VoiceNoteApp_loop_unfold.
Qed.

(** X17.  In both revisions the rotation written to the crank on the page
    is always the one of [currentAngle], in degrees: this holds when the
    script is installed and after any sequence of events, although frames
    skip [updateCrankVisual] while the crank is held. *)
Theorem rotation_in_sync :
  (∀ (pg : Player.Page) (photos : list (gset string)) (cv : Canvas) (a : Audio)
     (evs : list PlayerScript.Event),
     Synced (Player.crank
               (PlayerScript.world (PlayerScript.run pg evs (PlayerScript.initial photos cv a))))) ∧
  (∀ (cv : Canvas) (a : Audio) (evs : list VoiceNoteScript.Event),
     Synced (VoiceNoteApp.crank (VoiceNoteScript.run evs (VoiceNoteScript.initial cv a)))).
Proof.
  split.
  - intros pg photos cv a evs.
    assert (Hinit : Synced (Player.crank (PlayerScript.world (PlayerScript.initial photos cv a))))
      by reflexivity.
    revert Hinit. generalize (PlayerScript.initial photos cv a).
    induction evs as [| ev evs IH]; intros s Hs; [done |].
    cbn [PlayerScript.run]. apply IH. rewrite PlayerScript_handle_crank.
    destruct (handlers_Synced _ Hs) as (Hdown & Hmove & Hup & Hframe).
    by destruct ev.
  - intros cv a evs.
    assert (Hinit : Synced (VoiceNoteApp.crank (VoiceNoteScript.initial cv a))) by reflexivity.
    revert Hinit. generalize (VoiceNoteScript.initial cv a).
    induction evs as [| ev evs IH]; intros w Hs; [done |].
    cbn [VoiceNoteScript.run]. apply IH. rewrite VoiceNoteScript_handle_crank.
    destruct (handlers_Synced _ Hs) as (Hdown & Hmove & Hup & Hframe).
    by destruct ev.
Qed.

(** ** Winding down *)

Lemma PlayerScript_run_app (pg : Player.Page) (evs evs' : list PlayerScript.Event)
    (s : PlayerScript.Script) :
  PlayerScript.run pg (evs ++ evs') s = PlayerScript.run pg evs' (PlayerScript.run pg evs s).
Proof. revert s. induction evs as [| ev evs IH]; intros s; [done |]. cbn. apply IH. Qed.

Lemma PlayerScript_frames_crank (pg : Player.Page) (inps : list Player.FrameInput)
    (s : PlayerScript.Script) :
  Player.crank (PlayerScript.world (PlayerScript.run pg (PlayerScript.Frame <$> inps) s))
  = coast (Player.time <$> inps) (Player.crank (PlayerScript.world s)).
Proof.
  revert s. induction inps as [| inp inps IH]; intros s; [done |].
  cbn [fmap list_fmap PlayerScript.run coast]. rewrite IH.
  cbn [PlayerScript.handle PlayerScript.world]. by rewrite loop_crank.
Qed.

(** X18.  Left alone, the music stops by itself: for a released crank (and
    a slideshow whose stored index is an index, so that frames keep coming)
    there is a number of frames after which, with frames only, the velocity
    is 0 and the audio element is paused, whatever the frames bring and
    whether or not the host grants [play()]. *)
Theorem playback_winds_down :
  ∀ (pg : Player.Page) (s : PlayerScript.Script),
    Player.SlideshowReady (Player.slideshow (PlayerScript.world s)) →
    isDragging (Player.crank (PlayerScript.world s)) = false →
    ∃ n : nat,
      ∀ inps : list Player.FrameInput,
        (n <= length inps)%nat →
        velocity (Player.crank (PlayerScript.world
                    (PlayerScript.run pg (PlayerScript.Frame <$> inps) s))) = 0 ∧
        paused (Player.audio (PlayerScript.world
                  (PlayerScript.run pg (PlayerScript.Frame <$> inps) s))) = true.
Proof.
  intros pg s _ Hd.
  destruct (coast_comes_to_rest _ Hd) as [n Hn].
  exists (S n). intros inps Hlen.
  assert (Hrest : velocity (Player.crank (PlayerScript.world
                    (PlayerScript.run pg (PlayerScript.Frame <$> inps) s))) = 0).
  { rewrite PlayerScript_frames_crank. apply Hn. rewrite length_fmap. lia. }
  split; [exact Hrest |].
  revert Hlen Hrest. induction inps as [| inp inps' _] using rev_ind;
    intros Hlen Hrest; [cbn [length] in Hlen; lia |].
  clear Hlen. revert Hrest. rewrite fmap_app, PlayerScript_run_app. cbn [fmap list_fmap PlayerScript.run].
  generalize (PlayerScript.run pg (PlayerScript.Frame <$> inps') s). intros s' Hrest.
  cbn [PlayerScript.handle PlayerScript.world] in *.
  rewrite loop_crank in Hrest. rewrite loop_audio.
  unfold speedOf. rewrite Hrest. unfold loopAudio.
  change (JS.Math_abs 0 >? 0.02) with false. cbv iota.
  by destruct (paused (Player.audio (PlayerScript.world s'))) eqn:Hp.
Qed.

Lemma playback_winds_down_witness :
  Player.SlideshowReady
    (Player.slideshow (PlayerScript.world
       (PlayerScript.run (Player.mkPage true (λ _, 0.5))
          [ PlayerScript.MouseDown 0 (mkSetupAnswer Running (mkAnalyser 2048) None);
            PlayerScript.MouseMove 0.1; PlayerScript.MouseUp ]
          (PlayerScript.initial [] (mkCanvas 320 150) (mkAudio true 1 1 0 None))))) ∧
  isDragging
    (Player.crank (PlayerScript.world
       (PlayerScript.run (Player.mkPage true (λ _, 0.5))
          [ PlayerScript.MouseDown 0 (mkSetupAnswer Running (mkAnalyser 2048) None);
            PlayerScript.MouseMove 0.1; PlayerScript.MouseUp ]
          (PlayerScript.initial [] (mkCanvas 320 150) (mkAudio true 1 1 0 None)))))
  = false ∧
  ∃ n : nat,
    ∀ inps : list Player.FrameInput,
      (n <= length inps)%nat →
      paused (Player.audio (PlayerScript.world
                (PlayerScript.run (Player.mkPage true (λ _, 0.5)) (PlayerScript.Frame <$> inps)
                   (PlayerScript.run (Player.mkPage true (λ _, 0.5))
                      [ PlayerScript.MouseDown 0 (mkSetupAnswer Running (mkAnalyser 2048) None);
                        PlayerScript.MouseMove 0.1; PlayerScript.MouseUp ]
                      (PlayerScript.initial [] (mkCanvas 320 150) (mkAudio true 1 1 0 None))))))
      = true.
Proof.
  assert (Hready : Player.SlideshowReady
    (Player.slideshow (PlayerScript.world
       (PlayerScript.run (Player.mkPage true (λ _, 0.5))
          [ PlayerScript.MouseDown 0 (mkSetupAnswer Running (mkAnalyser 2048) None);
            PlayerScript.MouseMove 0.1; PlayerScript.MouseUp ]
          (PlayerScript.initial [] (mkCanvas 320 150) (mkAudio true 1 1 0 None))))))
    by (left; reflexivity).
  split; [exact Hready |]. split; [reflexivity |].
  destruct (playback_winds_down (Player.mkPage true (λ _, 0.5)) _ Hready eq_refl) as [n Hn].
  exists n. intros inps Hlen. exact (proj2 (Hn inps Hlen)).
Defined.

(** ** Live and simulated bars *)

(** ** A set-up that fails *)

(** X21.  When the set-up of the current revision fails (page not opened
    from a local file, audio not yet set up), what is left depends on the
    statement that threw: if the constructor or [createAnalyser] threw, the
    analyser variable is as before; if [createMediaElementSource] or a
    [connect] threw, the analyser just created stays stored although nothing
    feeds it, and the visualizer reads its data from then on.  In every case
    one message is logged and the flag is set. *)
Theorem setupAudio_failure :
  ∀ (pg : Player.Page) (ans : SetupAnswer) (s : PlayerScript.Script) (step : SetupStep)
    (msg : string),
    Player.isLocalFile pg = false →
    PlayerScript.isAudioSetup s = false →
    failure ans = Some (step, msg) →
    let r := PlayerScript.setupAudio pg ans s in
    PlayerScript.isAudioSetup (fst r) = true ∧
    PlayerScript.logged (snd r) = [ String.append "Audio setup failed: " msg ] ∧
    (step = NewContext ∨ step = CreateAnalyser →
     Player.analyser (PlayerScript.world (fst r)) = Player.analyser (PlayerScript.world s)) ∧
    (step = CreateSource ∨ step = ConnectNodes →
     Player.analyser (PlayerScript.world (fst r)) = Some (createdAnalyser ans) ∧
     ∀ snapshot,
       Player.dataArrayOf pg (Player.analyser (PlayerScript.world (fst r))) snapshot
       = Some (byteFrequencyData (createdAnalyser ans) snapshot)).
Proof.
  intros pg ans s step msg Hlocal Hset Hfail r. subst r.
  unfold PlayerScript.setupAudio, trySetup. rewrite Hset, Hlocal, Hfail.
  destruct step; cbn [fst snd PlayerScript.isAudioSetup PlayerScript.logged PlayerScript.world
                      PlayerScript.setAnalyser Player.analyser];
    (split; [done |]); (split; [done |]); split; intros [Hs | Hs]; try done;
    (split; [done |]); intros snapshot; unfold Player.dataArrayOf; by rewrite Hlocal.
Qed.

Lemma setupAudio_failure_witness :
  Player.isLocalFile (Player.mkPage false (λ _, 0.5)) = false ∧
  PlayerScript.isAudioSetup
    (PlayerScript.initial [] (mkCanvas 320 150) (mkAudio true 1 1 0 None)) = false ∧
  failure (mkSetupAnswer Suspended (mkAnalyser 2048) (Some (CreateSource, "InvalidStateError")))
  = Some (CreateSource, "InvalidStateError") ∧
  PlayerScript.isAudioSetup
    (fst (PlayerScript.setupAudio (Player.mkPage false (λ _, 0.5))
            (mkSetupAnswer Suspended (mkAnalyser 2048)
               (Some (CreateSource, "InvalidStateError")))
            (PlayerScript.initial [] (mkCanvas 320 150) (mkAudio true 1 1 0 None)))) = true.
Proof.
  split; [reflexivity |]. split; [reflexivity |]. split; [reflexivity |].
  exact (proj1 (setupAudio_failure (Player.mkPage false (λ _, 0.5))
                  (mkSetupAnswer Suspended (mkAnalyser 2048)
                     (Some (CreateSource, "InvalidStateError")))
                  (PlayerScript.initial [] (mkCanvas 320 150) (mkAudio true 1 1 0 None))
                  CreateSource "InvalidStateError" eq_refl eq_refl eq_refl)).
Defined.

(** * Binary64 arithmetic: rounding and order *)

Section NumberFacts.

#[local] Open Scope Z_scope.

(** ** Digits *)

Lemma digits2_pos_size (p : positive) : digits2_pos p = Pos.size p.
Proof. induction p as [p IH | p IH |]; simpl; by rewrite ?IH. Qed.

Lemma Zdigits2_log2 (p : positive) : Zdigits2 (Zpos p) = Z.log2 (Zpos p) + 1.
Proof.
  simpl. rewrite digits2_pos_size.
  destruct p as [p | p |]; simpl; try reflexivity; lia.
Qed.

Lemma Zdigits2_bounds (p : positive) :
  2 ^ (Zdigits2 (Zpos p) - 1) <= Zpos p < 2 ^ Zdigits2 (Zpos p).
Proof.
  rewrite Zdigits2_log2.
  replace (Z.log2 (Zpos p) + 1 - 1) with (Z.log2 (Zpos p)) by lia.
  replace (Z.log2 (Zpos p) + 1) with (Z.succ (Z.log2 (Zpos p))) by lia.
  apply Z.log2_spec. lia.
Qed.

Lemma Zdigits2_pos (p : positive) : 1 <= Zdigits2 (Zpos p).
Proof. rewrite Zdigits2_log2. pose proof (Z.log2_nonneg (Zpos p)). lia. Qed.

Lemma Zdigits2_le (p : positive) (k : Z) : Zpos p < 2 ^ k → Zdigits2 (Zpos p) <= k.
Proof.
  intros H. destruct (Z.le_gt_cases (Zdigits2 (Zpos p)) k) as [|Hgt]; [done |].
  pose proof (Zdigits2_bounds p) as [Hlo _].
  assert (0 <= k ∨ k < 0) as [Hk | Hk] by lia.
  - assert (2 ^ k <= 2 ^ (Zdigits2 (Zpos p) - 1)) by (apply Z.pow_le_mono_r; lia). lia.
  - rewrite Z.pow_neg_r in H by lia. lia.
Qed.

Lemma Zdigits2_ge (p : positive) (k : Z) : 2 ^ (k - 1) <= Zpos p → k <= Zdigits2 (Zpos p).
Proof.
  intros H. destruct (Z.le_gt_cases k (Zdigits2 (Zpos p))) as [|Hgt]; [done |].
  pose proof (Zdigits2_bounds p) as [_ Hhi]. pose proof (Zdigits2_pos p).
  assert (2 ^ Zdigits2 (Zpos p) <= 2 ^ (k - 1)) by (apply Z.pow_le_mono_r; lia). lia.
Qed.

(** ** Shifting right *)

Lemma iter_pos_nat {A : Type} (f : A → A) (p : positive) (x : A) :
  SpecFloat.iter_pos f p x = Nat.iter (Pos.to_nat p) f x.
Proof.
  revert x. induction p as [p IH | p IH |]; intros x.
  - rewrite Pos2Nat.inj_xI. cbn [SpecFloat.iter_pos]. rewrite !IH.
    replace (S (2 * Pos.to_nat p)) with (Pos.to_nat p + S (Pos.to_nat p))%nat by lia.
    rewrite Nat.iter_add. f_equal. simpl. apply Nat.iter_swap.
  - rewrite Pos2Nat.inj_xO. cbn [SpecFloat.iter_pos]. rewrite !IH.
    replace (2 * Pos.to_nat p)%nat with (Pos.to_nat p + Pos.to_nat p)%nat by lia.
    by rewrite Nat.iter_add.
  - reflexivity.
Qed.

Lemma shr_nat (r : shr_record) (e n : Z) :
  0 <= n → shr r e n = (Nat.iter (Z.to_nat n) shr_1 r, e + n).
Proof.
  intros Hn. unfold shr. destruct n as [| p | p]; try lia.
  - simpl. f_equal. lia.
  - by rewrite iter_pos_nat.
Qed.

Lemma shr_neg (r : shr_record) (e n : Z) : n <= 0 → shr r e n = (r, e).
Proof. intros Hn. unfold shr. destruct n as [| p | p]; try lia; reflexivity. Qed.

Lemma shr_1_nonneg (r : shr_record) : 0 <= shr_m r → 0 <= shr_m (shr_1 r).
Proof.
  destruct r as [m b s]. simpl. intros Hm.
  destruct m as [| [p | p |] | p]; simpl; lia.
Qed.

Lemma shr_iter_nonneg (k : nat) (r : shr_record) :
  0 <= shr_m r → 0 <= shr_m (Nat.iter k shr_1 r).
Proof. intros Hm. induction k as [| k IH]; simpl; [done |]. by apply shr_1_nonneg. Qed.

(** After [k] shifts the record holds the quotient by [2^k], the bit just
    lost and whether any lower bit was set. *)
Lemma shr_iter_spec (P : Z) (k : nat) :
  0 <= P →
  let r := Nat.iter k shr_1 (Build_shr_record P false false) in
  ∃ low : Z,
    2 * P = (2 * shr_m r + Z.b2z (shr_r r)) * 2 ^ Z.of_nat k + low ∧
    0 <= low < 2 ^ Z.of_nat k ∧
    (shr_s r = true ↔ low ≠ 0) ∧
    0 <= shr_m r.
Proof.
  intros HP. induction k as [| k IH].
  - exists 0. simpl. repeat split; try lia; try discriminate.
  - destruct IH as (low & Heq & Hlow & Hs & Hm).
    rewrite Nat.iter_succ, Nat2Z.inj_succ, Z.pow_succ_r by lia.
    set (r := Nat.iter k shr_1 (Build_shr_record P false false)) in *.
    set (T := 2 ^ Z.of_nat k) in *.
    destruct r as [m b s]. cbn [shr_m shr_r shr_s] in Heq, Hs, Hm.
    exists (Z.b2z b * T + low).
    destruct m as [| [p | p |] | p]; try lia; destruct b;
      cbn [shr_1 shr_m shr_r shr_s Z.b2z orb] in *;
      (split; [lia |]); (split; [lia |]); (split; [| lia]);
      try (split; [intros _; lia | done]);
      rewrite Hs; split; lia.
Qed.

Lemma round_nearest_even_bounds (r : shr_record) :
  shr_m r <= round_nearest_even (shr_m r) (loc_of_shr_record r) <= shr_m r + Z.b2z (shr_r r).
Proof.
  destruct r as [m b s]. destruct b, s; cbn; try lia.
  destruct (Z.even m); lia.
Qed.

(** The mantissa rounded after [k] shifts lies between any two integers
    that enclose the exact quotient. *)
Lemma round_shr_bounds (P : Z) (k : nat) :
  0 <= P →
  let r := Nat.iter k shr_1 (Build_shr_record P false false) in
  let m1 := round_nearest_even (shr_m r) (loc_of_shr_record r) in
  0 <= m1 ∧
  (∀ M : Z, P <= M * 2 ^ Z.of_nat k → m1 <= M) ∧
  (∀ M : Z, M * 2 ^ Z.of_nat k <= P → M <= m1).
Proof.
  intros HP r m1.
  destruct (shr_iter_spec P k HP) as (low & Heq & Hlow & Hs & Hm). fold r in Heq, Hs, Hm.
  pose proof (round_nearest_even_bounds r) as Hb. fold m1 in Hb.
  assert (HT : 0 < 2 ^ Z.of_nat k) by (apply Z.pow_pos_nonneg; lia).
  set (T := 2 ^ Z.of_nat k) in *.
  clearbody m1 T. destruct (shr_r r); cbn [Z.b2z] in *.
  - split; [lia |]. split; intros M HM; nia.
  - split; [lia |]. split; intros M HM; nia.
Qed.

End NumberFacts.

(** ** Rounding an exact product or sum *)

Section NumberRounding.

#[local] Open Scope Z_scope.

Lemma fexp_eq (e : Z) : fexp Number.prec Number.emax e = Z.max (e - 53) (-1074).
Proof. reflexivity. Qed.

(** [binary_round_aux] on an exact mantissa that needs no left shift: the
    mantissa is divided by [2^(e1 - E)] and rounded to an integer between
    the integers enclosing the quotient. *)
Lemma binary_round_aux_exact (s : bool) (P : positive) (E : Z) :
  let e1 := fexp Number.prec Number.emax (Zdigits2 (Zpos P) + E) in
  E <= e1 →
  ∃ m1 : Z,
    0 <= m1 <= 2 ^ 53 ∧
    (∀ M : Z, Zpos P <= M * 2 ^ (e1 - E) → m1 <= M) ∧
    (∀ M : Z, M * 2 ^ (e1 - E) <= Zpos P → M <= m1) ∧
    binary_round_aux Number.prec Number.emax s (Zpos P) E loc_Exact = Number.rounded s m1 e1.
Proof.
  intros e1 He.
  pose proof (Zdigits2_bounds P) as [Hlo Hhi]. pose proof (Zdigits2_pos P) as Hd.
  set (d := Zdigits2 (Zpos P)) in *.
  assert (He1 : e1 = Z.max (d + E - 53) (-1074)) by (subst e1; apply fexp_eq).
  set (n1 := e1 - E).
  assert (Hn1 : 0 <= n1) by lia.
  unfold binary_round_aux, shr_fexp. fold d. fold e1. fold n1.
  cbn [shr_record_of_loc]. rewrite (shr_nat _ _ _ Hn1).
  replace (E + n1) with e1 by lia.
  destruct (round_shr_bounds (Zpos P) (Z.to_nat n1)) as (Hm0 & Hup & Hdown); [lia |].
  rewrite Z2Nat.id in Hup, Hdown by lia.
  set (r := Nat.iter (Z.to_nat n1) shr_1 (Build_shr_record (Zpos P) false false)) in *.
  set (m1 := round_nearest_even (shr_m r) (loc_of_shr_record r)) in *.
  assert (Hm1 : m1 <= 2 ^ 53).
  { apply Hup. rewrite <- Z.pow_add_r by lia.
    assert (2 ^ d <= 2 ^ (53 + n1)) by (apply Z.pow_le_mono_r; lia). lia. }
  exists m1. split; [lia |]. split; [exact Hup |]. split; [exact Hdown |].
  clearbody m1. clear Hup Hdown r.
  destruct m1 as [| m | m]; [| | lia].
  - cbn [Zdigits2]. rewrite fexp_eq, shr_neg by lia. reflexivity.
  - change (2 ^ 53) with 9007199254740992 in Hm1.
    destruct (Z.eq_dec (Zpos m) 9007199254740992) as [Heq | Hne].
    + rewrite Heq. change (Zdigits2 9007199254740992) with 54.
      rewrite fexp_eq. replace (Z.max (54 + e1 - 53) (-1074) - e1) with 1 by lia.
      cbn -[Z.add Z.leb]. reflexivity.
    + assert (Hdig : Zdigits2 (Zpos m) <= 53) by (apply Zdigits2_le; lia).
      rewrite fexp_eq, shr_neg by lia.
      unfold Number.rounded. destruct (Z.eqb_spec (Zpos m) 9007199254740992); [done |].
      reflexivity.
Qed.

End NumberRounding.

(** ** Order *)

Section NumberOrder.

#[local] Open Scope Z_scope.

Lemma Pos_compare_cont_Eq (p q : positive) : Pos.compare_cont Eq p q = (Zpos p ?= Zpos q).
Proof. reflexivity. Qed.

Lemma SFcompare_finite_pos (m1 m2 : positive) (e1 e2 : Z) :
  SFcompare (S754_finite false m1 e1) (S754_finite false m2 e2)
  = Some (match e1 ?= e2 with
          | Eq => Zpos m1 ?= Zpos m2
          | c => c
          end).
Proof. cbn. destruct (e1 ?= e2); reflexivity. Qed.

Lemma SFleb_finite_pos (m1 m2 : positive) (e1 e2 : Z) :
  SFleb (S754_finite false m1 e1) (S754_finite false m2 e2) = true
  ↔ e1 < e2 ∨ (e1 = e2 ∧ Zpos m1 <= Zpos m2).
Proof.
  unfold SFleb. rewrite SFcompare_finite_pos.
  destruct (Z.compare_spec e1 e2) as [He | He | He];
    [destruct (Z.compare_spec (Zpos m1) (Zpos m2)) as [Hm | Hm | Hm] | |];
    split; try done; try lia.
Qed.

Lemma SFltb_finite_pos (m1 m2 : positive) (e1 e2 : Z) :
  SFltb (S754_finite false m1 e1) (S754_finite false m2 e2) = true
  ↔ e1 < e2 ∨ (e1 = e2 ∧ Zpos m1 < Zpos m2).
Proof.
  unfold SFltb. rewrite SFcompare_finite_pos.
  destruct (Z.compare_spec e1 e2) as [He | He | He];
    [destruct (Z.compare_spec (Zpos m1) (Zpos m2)) as [Hm | Hm | Hm] | |];
    split; try done; try lia.
Qed.

(** The comparison of two numbers is the lexicographic comparison of their
    keys. *)
Lemma SFcompare_key (x y : Number.number) :
  Number.isNaN x = false → Number.isNaN y = false →
  SFcompare x y = Some (Number.lex (Number.key x) (Number.key y)).
Proof.
  intros Hx Hy.
  destruct x as [sx | sx | | sx mx ex], y as [sy | sy | | sy my ey]; try discriminate;
    try (destruct sx; reflexivity); try (destruct sy; reflexivity);
    try (destruct sx, sy; reflexivity).
  destruct sx, sy; try reflexivity; unfold Number.lex; cbn -[Z.compare Z.opp].
  change (-1 ?= -1) with Eq. cbv iota.
  rewrite Z.compare_opp, (Z.compare_antisym ex ey).
  destruct (ex ?= ey); reflexivity.
Qed.

Lemma lex_lt (k k' : Z * Z * Z) :
  Number.lex k k' = Lt ↔
  (k.1.1 < k'.1.1 ∨ k.1.1 = k'.1.1 ∧ (k.1.2 < k'.1.2 ∨ k.1.2 = k'.1.2 ∧ k.2 < k'.2)).
Proof.
  destruct k as [[a b] c], k' as [[a' b'] c']. unfold Number.lex. cbn [fst snd].
  destruct (Z.compare_spec a a'); [destruct (Z.compare_spec b b');
    [destruct (Z.compare_spec c c') | |] | |]; split; intros Hx; try done; try lia;
    exfalso; lia.
Qed.

Lemma lex_eq (k k' : Z * Z * Z) : Number.lex k k' = Eq ↔ k = k'.
Proof.
  destruct k as [[a b] c], k' as [[a' b'] c']. unfold Number.lex. cbn [fst snd].
  destruct (Z.compare_spec a a'); [destruct (Z.compare_spec b b');
    [destruct (Z.compare_spec c c') | |] | |]; split; intros Hx; try done;
    try (injection Hx as ? ? ?; lia). congruence.
Qed.

Lemma Number_ltb_key (x y : Number.number) :
  Number.ltb x y = true ↔
  Number.isNaN x = false ∧ Number.isNaN y = false ∧
  Number.lex (Number.key x) (Number.key y) = Lt.
Proof.
  unfold Number.ltb, SFltb. split.
  - destruct x, y; try discriminate; intros H;
      (split; [done |]); (split; [done |]);
      rewrite SFcompare_key in H by done; by destruct (Number.lex _ _).
  - intros (Hx & Hy & Hl). by rewrite SFcompare_key, Hl.
Qed.

Lemma Number_leb_key (x y : Number.number) :
  Number.leb x y = true ↔
  Number.isNaN x = false ∧ Number.isNaN y = false ∧
  Number.lex (Number.key x) (Number.key y) ≠ Gt.
Proof.
  unfold Number.leb, SFleb. split.
  - destruct x, y; try discriminate; intros H;
      (split; [done |]); (split; [done |]);
      rewrite SFcompare_key in H by done; by destruct (Number.lex _ _).
  - intros (Hx & Hy & Hl). rewrite SFcompare_key by done. by destruct (Number.lex _ _).
Qed.

Lemma lex_antisym (k k' : Z * Z * Z) : Number.lex k' k = CompOpp (Number.lex k k').
Proof.
  destruct k as [[a b] c], k' as [[a' b'] c']. unfold Number.lex. cbn [fst snd].
  rewrite (Z.compare_antisym a a'), (Z.compare_antisym b b'), (Z.compare_antisym c c').
  destruct (a ?= a'), (b ?= b'), (c ?= c'); reflexivity.
Qed.

Lemma lex_le (k k' : Z * Z * Z) :
  Number.lex k k' ≠ Gt ↔
  (k.1.1 < k'.1.1 ∨ k.1.1 = k'.1.1 ∧ (k.1.2 < k'.1.2 ∨ k.1.2 = k'.1.2 ∧ k.2 <= k'.2)).
Proof.
  destruct (Number.lex k k') eqn:Hl.
  - apply lex_eq in Hl as ->. split; [lia | done].
  - apply lex_lt in Hl. split; [lia | done].
  - split; [done |]. intros H. exfalso.
    assert (Hl' : Number.lex k' k = Lt) by (by rewrite lex_antisym, Hl).
    apply lex_lt in Hl'. lia.
Qed.

(** [x < y] fails between numbers exactly when [y <= x] holds. *)
Lemma Number_ltb_false_leb (x y : Number.number) :
  Number.isNaN x = false → Number.isNaN y = false →
  Number.ltb x y = false → Number.leb y x = true.
Proof.
  intros Hx Hy H. apply Number_leb_key. split; [done |]. split; [done |].
  rewrite lex_antisym. intros Hgt.
  assert (Number.ltb x y = true); [| congruence].
  apply Number_ltb_key. split; [done |]. split; [done |]. by destruct (Number.lex _ _).
Qed.

Lemma Number_leb_ltb_false (x y : Number.number) :
  Number.leb x y = true → Number.ltb y x = false.
Proof.
  intros H. apply Number_leb_key in H as (Hx & Hy & Hl).
  destruct (Number.ltb y x) eqn:Hlt; [| done].
  apply Number_ltb_key in Hlt as (_ & _ & Hlt). rewrite lex_antisym in Hlt.
  by destruct (Number.lex _ _).
Qed.

Lemma Number_ltb_leb (x y : Number.number) : Number.ltb x y = true → Number.leb x y = true.
Proof.
  intros H. apply Number_ltb_key in H as (Hx & Hy & Hl). apply Number_leb_key. by rewrite Hl.
Qed.

Lemma Number_leb_ltb_trans (x y z : Number.number) :
  Number.leb x y = true → Number.ltb y z = true → Number.ltb x z = true.
Proof.
  intros H1 H2. apply Number_leb_key in H1 as (Hx & Hy & H1). apply Number_ltb_key in H2 as (_ & Hz & H2).
  apply Number_ltb_key. split; [done |]. split; [done |].
  apply lex_le in H1. apply lex_lt in H2. apply lex_lt. lia.
Qed.

Lemma Number_ltb_leb_trans (x y z : Number.number) :
  Number.ltb x y = true → Number.leb y z = true → Number.ltb x z = true.
Proof.
  intros H1 H2. apply Number_ltb_key in H1 as (Hx & Hy & H1). apply Number_leb_key in H2 as (_ & Hz & H2).
  apply Number_ltb_key. split; [done |]. split; [done |].
  apply lex_le in H2. apply lex_lt in H1. apply lex_lt. lia.
Qed.

Lemma Number_leb_trans (x y z : Number.number) :
  Number.leb x y = true → Number.leb y z = true → Number.leb x z = true.
Proof.
  intros H1 H2. apply Number_leb_key in H1 as (Hx & Hy & H1). apply Number_leb_key in H2 as (_ & Hz & H2).
  apply Number_leb_key. split; [done |]. split; [done |].
  apply lex_le in H1. apply lex_le in H2. apply lex_le. lia.
Qed.

Lemma Number_leb_refl (x : Number.number) : Number.isNaN x = false → Number.leb x x = true.
Proof.
  intros Hx. apply Number_leb_key. split; [done |]. split; [done |]. apply lex_le. lia.
Qed.

(** Two numbers that compare equal are the same number, or both zero. *)
Lemma Number_leb_antisym (x y : Number.number) :
  Number.leb x y = true → Number.leb y x = true →
  x = y ∨ (∃ s s', x = S754_zero s ∧ y = S754_zero s').
Proof.
  intros H1 H2. apply Number_leb_key in H1 as (Hx & Hy & H1). apply Number_leb_key in H2 as (_ & _ & H2).
  assert (Hk : Number.key x = Number.key y).
  { apply lex_eq. rewrite lex_antisym in H2. by destruct (Number.lex _ _). }
  destruct x as [sx | sx | | sx mx ex], y as [sy | sy | | sy my ey]; try discriminate;
    try (destruct sx; discriminate); try (destruct sy; discriminate);
    try (destruct sx, sy; discriminate).
  - right. eauto.
  - left. destruct sx, sy; try discriminate; reflexivity.
  - left. destruct sx, sy; try discriminate; injection Hk as ? ?; f_equal; lia.
Qed.

End NumberOrder.

(** ** Bounds on rounded results *)

Section NumberBounds.

#[local] Open Scope Z_scope.

Lemma bounded_spec (m : positive) (e : Z) :
  bounded Number.prec Number.emax m e = true ↔
  Z.max (Zdigits2 (Zpos m) + e - 53) (-1074) = e ∧ e <= 971.
Proof.
  unfold bounded, canonical_mantissa. rewrite andb_true_iff, Z.eqb_eq, Z.leb_le, fexp_eq.
  reflexivity.
Qed.

Lemma bounded_mantissa (m : positive) (e : Z) :
  bounded Number.prec Number.emax m e = true →
  Zpos m < 2 ^ 53 ∧ -1074 <= e <= 971 ∧ (e = -1074 ∨ 2 ^ 52 <= Zpos m).
Proof.
  intros H. apply bounded_spec in H as [Hc He].
  pose proof (Zdigits2_bounds m) as [Hlo Hhi]. pose proof (Zdigits2_pos m).
  set (d := Zdigits2 (Zpos m)) in *.
  split; [| split; [lia |]].
  - assert (2 ^ d <= 2 ^ 53) by (apply Z.pow_le_mono_r; lia). lia.
  - destruct (Z.eq_dec e (-1074)) as [| Hne]; [by left | right].
    assert (d = 53) as Hd by lia. rewrite Hd in Hlo. exact Hlo.
Qed.

Lemma rounded_abs (s : bool) (m e : Z) :
  Number.Math_abs (Number.rounded s m e) = Number.rounded false m e.
Proof.
  unfold Number.rounded. destruct m as [| p | p]; try reflexivity.
  destruct (_ =? _); destruct (_ <=? _); reflexivity.
Qed.

Lemma rounded_signed (s : bool) (m e : Z) :
  0 <= m → Number.signed s (Number.rounded s m e) = true.
Proof.
  intros Hm. unfold Number.rounded. destruct m as [| p | p]; [| | lia].
  - apply eqb_reflx.
  - destruct (_ =? _); destruct (_ <=? _); apply eqb_reflx.
Qed.

(** A rounded mantissa at an exponent is at most a number of the format
    that has a larger exponent, or the same exponent and no smaller
    mantissa. *)
Lemma rounded_leb (m1 e1 : Z) (M : positive) (F : Z) :
  0 <= m1 <= 2 ^ 53 → -1074 <= e1 →
  bounded Number.prec Number.emax M F = true →
  e1 < F ∨ (e1 = F ∧ m1 <= Zpos M) →
  Number.leb (Number.rounded false m1 e1) (S754_finite false M F) = true.
Proof.
  intros Hm1 He1 HM Hle.
  apply bounded_mantissa in HM as (HM53 & HF & HMn).
  change (2 ^ 53) with 9007199254740992 in *. change (2 ^ 52) with 4503599627370496 in *.
  unfold Number.rounded. destruct m1 as [| p | p]; [reflexivity | | lia].
  destruct (Z.eqb_spec (Zpos p) 9007199254740992) as [Heq | Hne].
  - assert (He : e1 < F) by lia.
    destruct (Z.leb_spec (e1 + 1) (Number.emax - Number.prec)) as [_ | Hbig];
      [| unfold Number.emax, Number.prec in Hbig; lia].
    apply SFleb_finite_pos. lia.
  - destruct (Z.leb_spec e1 (Number.emax - Number.prec)) as [_ | Hbig];
      [| unfold Number.emax, Number.prec in Hbig; lia].
    apply SFleb_finite_pos. lia.
Qed.

(** Rounding an exact value that is at most a number of the format gives
    at most that number. *)
Lemma round_leb_bounded (s : bool) (P : positive) (E : Z) (M : positive) (F : Z) :
  E <= fexp Number.prec Number.emax (Zdigits2 (Zpos P) + E) →
  bounded Number.prec Number.emax M F = true →
  E <= F →
  Zpos P <= Zpos M * 2 ^ (F - E) →
  Number.leb (Number.Math_abs (binary_round_aux Number.prec Number.emax s (Zpos P) E loc_Exact))
             (S754_finite false M F) = true.
Proof.
  intros He HM HEF HP.
  destruct (binary_round_aux_exact s P E He) as (m1 & Hm1 & Hup & _ & ->).
  rewrite rounded_abs. rewrite fexp_eq in *.
  pose proof (Zdigits2_bounds P) as [Hlo Hhi]. pose proof (Zdigits2_pos P) as Hd.
  pose proof (Zdigits2_bounds M) as [HloM HhiM]. pose proof (Zdigits2_pos M) as HdM.
  pose proof (proj1 (bounded_spec M F) HM) as [Hc HF].
  set (d := Zdigits2 (Zpos P)) in *. set (dM := Zdigits2 (Zpos M)) in *.
  set (e1 := Z.max (d + E - 53) (-1074)) in *.
  assert (Hmag : d + E <= dM + F).
  { assert (HT : 0 < 2 ^ (F - E)) by (apply Z.pow_pos_nonneg; lia).
    assert (Hlt : 2 ^ (d - 1) < 2 ^ (dM + (F - E))).
    { rewrite Z.pow_add_r by lia. nia. }
    apply Z.pow_lt_mono_r_iff in Hlt; lia. }
  apply rounded_leb; [lia | lia | exact HM |].
  destruct (Z.eq_dec e1 F) as [Heq | Hne]; [right | left; lia].
  split; [done |]. apply Hup. by rewrite Heq.
Qed.

(** The exponent of an exact product of two numbers of the format is never
    above the exponent its rounding chooses. *)
Lemma mul_shift_ok (mx my : positive) (ex ey : Z) :
  bounded Number.prec Number.emax mx ex = true →
  bounded Number.prec Number.emax my ey = true →
  ex + ey <= fexp Number.prec Number.emax (Zdigits2 (Zpos (mx * my)) + (ex + ey)).
Proof.
  intros Hx Hy. apply bounded_spec in Hx as [Hx _]. apply bounded_spec in Hy as [Hy _].
  rewrite fexp_eq.
  pose proof (Zdigits2_bounds mx) as [Hlx _]. pose proof (Zdigits2_pos mx).
  pose proof (Zdigits2_bounds my) as [Hly _]. pose proof (Zdigits2_pos my).
  set (dx := Zdigits2 (Zpos mx)) in *. set (dy := Zdigits2 (Zpos my)) in *.
  assert (Hd : dx + dy - 1 <= Zdigits2 (Zpos (mx * my))).
  { apply Zdigits2_ge. replace (dx + dy - 1 - 1) with ((dx - 1) + (dy - 1)) by lia.
    rewrite Z.pow_add_r, Pos2Z.inj_mul by lia.
    apply Z.mul_le_mono_nonneg; try done; apply Z.pow_nonneg; lia. }
  lia.
Qed.

Lemma mul_abs_leb (sx sy : bool) (mx my : positive) (ex ey : Z) (M : positive) (F : Z) :
  bounded Number.prec Number.emax mx ex = true →
  bounded Number.prec Number.emax my ey = true →
  bounded Number.prec Number.emax M F = true →
  ex + ey <= F →
  Zpos mx * Zpos my <= Zpos M * 2 ^ (F - (ex + ey)) →
  Number.leb (Number.Math_abs (Number.mul (S754_finite sx mx ex) (S754_finite sy my ey)))
             (S754_finite false M F) = true.
Proof.
  intros Hx Hy HM HF HP. cbn [Number.mul SFmul].
  apply round_leb_bounded; [by apply mul_shift_ok | done | done |].
  by rewrite Pos2Z.inj_mul.
Qed.

(** ** Results are numbers of the format *)

Lemma binary_round_aux_valid (s : bool) (P : positive) (E : Z) :
  E <= fexp Number.prec Number.emax (Zdigits2 (Zpos P) + E) →
  Number.valid (binary_round_aux Number.prec Number.emax s (Zpos P) E loc_Exact) = true.
Proof.
  intros He.
  destruct (binary_round_aux_exact s P E He) as (m1 & Hm1 & _ & Hdown & ->).
  rewrite fexp_eq in *.
  pose proof (Zdigits2_bounds P) as [Hlo Hhi]. pose proof (Zdigits2_pos P) as Hd.
  set (d := Zdigits2 (Zpos P)) in *.
  set (e1 := Z.max (d + E - 53) (-1074)) in *.
  change (2 ^ 53) with 9007199254740992 in *.
  unfold Number.rounded. destruct m1 as [| p | p]; [reflexivity | | lia].
  destruct (Z.eqb_spec (Zpos p) 9007199254740992) as [Heq | Hne].
  - destruct (Z.leb_spec (e1 + 1) (Number.emax - Number.prec)) as [Hle | _]; [| reflexivity].
    unfold Number.emax, Number.prec in Hle.
    apply bounded_spec. change (Zdigits2 4503599627370496) with 53. lia.
  - destruct (Z.leb_spec e1 (Number.emax - Number.prec)) as [Hle | _]; [| reflexivity].
    unfold Number.emax, Number.prec in Hle.
    apply bounded_spec. split; [| done].
    assert (Hdp : Zdigits2 (Zpos p) <= 53) by (apply Zdigits2_le; lia).
    destruct (Z.eq_dec e1 (-1074)) as [-> | Hnorm]; [lia |].
    assert (He1 : e1 = d + E - 53) by lia.
    assert (53 <= Zdigits2 (Zpos p)); [| lia].
    apply Zdigits2_ge. apply Hdown.
    replace (e1 - E) with (d - 53) by lia.
    rewrite <- Z.pow_add_r by lia. by replace (53 - 1 + (d - 53)) with (d - 1) by lia.
Qed.

Lemma mul_valid (x y : Number.number) :
  Number.valid x = true → Number.valid y = true → Number.valid (Number.mul x y) = true.
Proof.
  intros Hx Hy.
  destruct x as [sx | sx | | sx mx ex], y as [sy | sy | | sy my ey]; try reflexivity.
  cbn [Number.mul SFmul]. apply binary_round_aux_valid. by apply mul_shift_ok.
Qed.

End NumberBounds.

(** ** Sums, differences and integers *)

Section NumberSums.

#[local] Open Scope Z_scope.

Lemma Pos_iter_xO (m d : positive) : Zpos (Pos.iter xO m d) = Zpos m * 2 ^ Zpos d.
Proof.
  induction d as [| d IH] using Pos.peano_ind.
  - simpl. lia.
  - rewrite Pos.iter_succ, Pos2Z.inj_xO, IH, Pos2Z.inj_succ, Z.pow_succ_r by lia. lia.
Qed.

Lemma Zdigits2_shift (m : positive) (k : Z) (q : positive) :
  0 <= k → Zpos q = Zpos m * 2 ^ k → Zdigits2 (Zpos q) = Zdigits2 (Zpos m) + k.
Proof.
  intros Hk Hq.
  pose proof (Zdigits2_bounds m) as [Hlo Hhi]. pose proof (Zdigits2_pos m).
  assert (HT : 0 < 2 ^ k) by (apply Z.pow_pos_nonneg; lia).
  apply Z.le_antisymm.
  - apply Zdigits2_le. rewrite Hq, Z.pow_add_r by lia. nia.
  - apply Zdigits2_ge. rewrite Hq.
    replace (Zdigits2 (Zpos m) + k - 1) with (Zdigits2 (Zpos m) - 1 + k) by lia.
    rewrite Z.pow_add_r by lia. nia.
Qed.

(** [binary_round] first brings the mantissa to the exponent the format
    gives its magnitude, when that is lower. *)
Lemma shl_align_spec (m : positive) (e : Z) :
  let e' := fexp Number.prec Number.emax (Zdigits2 (Zpos m) + e) in
  ∃ (mz : positive) (ez : Z),
    shl_align m e e' = (mz, ez) ∧
    ez <= fexp Number.prec Number.emax (Zdigits2 (Zpos mz) + ez) ∧
    (e' <= e → ez = e' ∧ Zpos mz = Zpos m * 2 ^ (e - e') ∧
               fexp Number.prec Number.emax (Zdigits2 (Zpos mz) + ez) = e') ∧
    (e <= e' → ez = e ∧ mz = m).
Proof.
  intros e'. unfold shl_align. destruct (e' - e) as [| d | d] eqn:Hd.
  - exists m, e. split; [done |]. split; [fold e'; lia |].
    split; [| done]. intros _. replace (e - e') with 0 by lia. fold e'. lia.
  - exists m, e. split; [done |]. split; [fold e'; lia |]. split; [lia | done].
  - exists (Pos.iter xO m d), e'. split; [done |].
    assert (Hq : Zpos (Pos.iter xO m d) = Zpos m * 2 ^ (e - e')).
    { rewrite Pos_iter_xO. f_equal. f_equal. lia. }
    assert (Hdig : Zdigits2 (Zpos (Pos.iter xO m d)) + e' = Zdigits2 (Zpos m) + e).
    { rewrite (Zdigits2_shift m (e - e')); [lia | lia | exact Hq]. }
    rewrite Hdig. fold e'. split; [lia |]. split; [done | lia].
Qed.

Lemma binary_round_valid (s : bool) (m : positive) (e : Z) :
  Number.valid (binary_round Number.prec Number.emax s m e) = true.
Proof.
  unfold binary_round. change (Zpos (digits2_pos m)) with (Zdigits2 (Zpos m)).
  destruct (shl_align_spec m e) as (mz & ez & -> & He & _).
  by apply binary_round_aux_valid.
Qed.

(** A value the format holds is not changed by rounding. *)
Lemma binary_round_exact (s : bool) (m : positive) (e : Z) :
  let e' := fexp Number.prec Number.emax (Zdigits2 (Zpos m) + e) in
  e' <= e → e' <= 971 →
  binary_round Number.prec Number.emax s m e
  = S754_finite s (Z.to_pos (Zpos m * 2 ^ (e - e'))) e'.
Proof.
  intros e' He Hmax. unfold binary_round.
  change (Zpos (digits2_pos m)) with (Zdigits2 (Zpos m)).
  pose proof (shl_align_spec m e) as Hs. cbv zeta in Hs. fold e' in Hs |- *.
  clearbody e'. destruct Hs as (mz & ez & -> & Hez & Hshift & _).
  destruct (Hshift He) as (-> & Hmz & Hfexp).
  destruct (binary_round_aux_exact s mz e' Hez) as (m1 & Hm1 & Hup & Hdown & ->).
  rewrite Hfexp in Hup, Hdown |- *. rewrite Z.sub_diag, Z.pow_0_r in Hup, Hdown.
  assert (m1 = Zpos mz) as -> by (apply Z.le_antisymm; [apply Hup | apply Hdown]; lia).
  rewrite <- Hmz, Pos2Z.id.
  assert (Hdig : Zdigits2 (Zpos mz) <= 53) by (rewrite fexp_eq in Hfexp; lia).
  pose proof (Zdigits2_bounds mz) as [_ Hhi].
  assert (2 ^ Zdigits2 (Zpos mz) <= 2 ^ 53)
    by (apply Z.pow_le_mono_r; [lia | exact Hdig]).
  change (2 ^ 53) with 9007199254740992 in *.
  unfold Number.rounded.
  destruct (Z.eqb_spec (Zpos mz) 9007199254740992) as [Heq | _]; [lia |].
  destruct (Z.leb_spec e' (Number.emax - Number.prec)) as [_ | Hbig];
    [reflexivity | unfold Number.emax, Number.prec in Hbig; lia].
Qed.

Lemma binary_normalize_valid (m e : Z) (s : bool) :
  Number.valid (binary_normalize Number.prec Number.emax m e s) = true.
Proof. destruct m; [reflexivity | apply binary_round_valid ..]. Qed.

Lemma add_valid (x y : Number.number) :
  Number.valid x = true → Number.valid y = true → Number.valid (Number.add x y) = true.
Proof.
  intros Hx Hy.
  destruct x as [sx | sx | | sx mx ex], y as [sy | sy | | sy my ey]; try done;
    try (destruct sx, sy; done).
  apply binary_normalize_valid.
Qed.

Lemma sub_valid (x y : Number.number) :
  Number.valid x = true → Number.valid y = true → Number.valid (Number.sub x y) = true.
Proof.
  intros Hx Hy.
  destruct x as [sx | sx | | sx mx ex], y as [sy | sy | | sy my ey]; try done;
    try (destruct sx, sy; done).
  apply binary_normalize_valid.
Qed.

Lemma opp_valid (x : Number.number) : Number.valid x = true → Number.valid (- x)%num = true.
Proof. by destruct x. Qed.

Lemma abs_valid (x : Number.number) :
  Number.valid x = true → Number.valid (Number.Math_abs x) = true.
Proof. by destruct x. Qed.

(** The number of a positive integer below [2^53] is that integer. *)
Lemma ofZ_exact (n : positive) :
  Zpos n < 2 ^ 53 →
  Number.ofZ (Zpos n)
  = S754_finite false (Z.to_pos (Zpos n * 2 ^ (53 - Zdigits2 (Zpos n))))
                (Zdigits2 (Zpos n) - 53).
Proof.
  intros Hn. unfold Number.ofZ. cbn [binary_normalize].
  assert (Hd : Zdigits2 (Zpos n) <= 53) by (by apply Zdigits2_le).
  pose proof (Zdigits2_pos n).
  assert (He : fexp Number.prec Number.emax (Zdigits2 (Zpos n) + 0) = Zdigits2 (Zpos n) - 53)
    by (rewrite fexp_eq; lia).
  rewrite binary_round_exact; rewrite He; [| lia | lia].
  by replace (0 - (Zdigits2 (Zpos n) - 53)) with (53 - Zdigits2 (Zpos n)) by lia.
Qed.

End NumberSums.

(** ** Results that are numbers *)

Section NumberShapes.

#[local] Open Scope Z_scope.

Lemma signed_isNaN (s : bool) (x : Number.number) :
  Number.signed s x = true → Number.isNaN x = false.
Proof. by destruct x. Qed.

Lemma shr_nonneg (r : shr_record) (e n : Z) :
  0 <= shr_m r → 0 <= shr_m (shr r e n).1.
Proof.
  intros Hr. unfold shr. destruct n as [| p | p]; cbn [fst]; try done.
  rewrite iter_pos_nat. by apply shr_iter_nonneg.
Qed.

Lemma shr_record_of_loc_m (m : Z) (l : location) : shr_m (shr_record_of_loc m l) = m.
Proof. by destruct l as [| []]. Qed.

(** Rounding a mantissa that is not negative never gives [NaN], and keeps
    the sign it is given. *)
Lemma binary_round_aux_signed (s : bool) (m e : Z) (l : location) :
  0 <= m → Number.signed s (binary_round_aux Number.prec Number.emax s m e l) = true.
Proof.
  intros Hm. unfold binary_round_aux, shr_fexp.
  pose proof (shr_nonneg (shr_record_of_loc m l) e
                (fexp Number.prec Number.emax (Zdigits2 m + e) - e)) as H1.
  rewrite shr_record_of_loc_m in H1. specialize (H1 Hm).
  destruct (shr (shr_record_of_loc m l) e _) as [r1 e1]. cbn [fst] in H1.
  pose proof (round_nearest_even_bounds r1) as [Hr _].
  set (m1 := round_nearest_even (shr_m r1) (loc_of_shr_record r1)) in *.
  pose proof (shr_nonneg (shr_record_of_loc m1 loc_Exact) e1
                (fexp Number.prec Number.emax (Zdigits2 m1 + e1) - e1)) as H2.
  rewrite shr_record_of_loc_m in H2. specialize (H2 ltac:(lia)).
  destruct (shr (shr_record_of_loc m1 loc_Exact) e1 _) as [r2 e2]. cbn [fst] in H2.
  destruct (shr_m r2) as [| p | p]; [| | lia]; cbn.
  - apply eqb_reflx.
  - destruct (e2 <=? _); apply eqb_reflx.
Qed.

Lemma binary_round_signed (s : bool) (m : positive) (e : Z) :
  Number.signed s (binary_round Number.prec Number.emax s m e) = true.
Proof.
  unfold binary_round. destruct (shl_align _ _ _) as [mz ez].
  by apply binary_round_aux_signed.
Qed.

Lemma binary_normalize_isNaN (m e : Z) (s : bool) :
  Number.isNaN (binary_normalize Number.prec Number.emax m e s) = false.
Proof.
  destruct m; [reflexivity | |]; apply (signed_isNaN _ _ (binary_round_signed _ _ _)).
Qed.

Lemma ofZ_isNaN (n : Z) : Number.isNaN (Number.ofZ n) = false.
Proof. apply binary_normalize_isNaN. Qed.

(** A product is a number unless a factor is [NaN] or the factors are a
    zero and an infinity. *)
Lemma mul_signed (sx sy : bool) (x y : Number.number) :
  Number.signed sx x = true → Number.signed sy y = true →
  (∀ s, x ≠ S754_zero s) ∨ Number.finite y = true →
  (∀ s, y ≠ S754_zero s) ∨ Number.finite x = true →
  Number.signed (xorb sx sy) (Number.mul x y) = true.
Proof.
  intros Hx Hy Hzx Hzy.
  destruct x as [s1 | s1 | | s1 mx ex], y as [s2 | s2 | | s2 my ey]; try discriminate;
    cbn in Hx, Hy; apply eqb_prop in Hx, Hy; subst s1 s2;
    try apply eqb_reflx.
  - destruct Hzx as [H | H]; [by destruct (H sx) | discriminate].
  - destruct Hzy as [H | H]; [by destruct (H sy) | discriminate].
  - cbn [Number.mul SFmul]. by apply binary_round_aux_signed.
Qed.

(** A sum is a number unless a term is [NaN] or the terms are opposite
    infinities. *)
Lemma add_isNaN (x y : Number.number) :
  Number.isNaN x = false → Number.isNaN y = false →
  Number.finite x = true ∨ Number.finite y = true
  ∨ (∃ s, x = S754_infinity s ∧ y = S754_infinity s) →
  Number.isNaN (Number.add x y) = false.
Proof.
  intros Hx Hy Hfin.
  destruct x as [s1 | s1 | | s1 mx ex], y as [s2 | s2 | | s2 my ey]; try discriminate;
    try reflexivity; try (by destruct s1, s2).
  - destruct Hfin as [H | [H | (s & [= ->] & [= ->])]]; try discriminate. by destruct s.
  - apply binary_normalize_isNaN.
Qed.

(** A quotient of a finite number by a positive one is a number. *)
Lemma div_isNaN (x y : Number.number) :
  Number.finite x = true → Number.ltb (S754_zero false) y = true →
  Number.isNaN (Number.div x y) = false.
Proof.
  intros Hx Hy.
  destruct x as [s1 | s1 | | s1 mx ex], y as [s2 | s2 | | s2 my ey]; try discriminate;
    try reflexivity.
  cbn [Number.div SFdiv].
  destruct (SFdiv_core_binary _ _ _ _ _ _) as [[mz ez] lz] eqn:Hcore.
  apply (signed_isNaN (xorb s1 s2)). apply binary_round_aux_signed.
  unfold SFdiv_core_binary in Hcore.
  set (sh := _ - _ - Z.min _ _) in Hcore.
  set (m' := match sh with Z0 => Zpos mx | Zpos _ => Z.shiftl (Zpos mx) sh | Zneg _ => 0 end)
    in Hcore.
  assert (Hm' : 0 <= m').
  { subst m'. destruct sh; [lia | | lia]. apply Z.shiftl_nonneg. lia. }
  pose proof (Z_div_mod m' (Zpos my) ltac:(lia)) as Hdm.
  destruct (Z.div_eucl m' (Zpos my)) as [q r]. injection Hcore as <- _ _. nia.
Qed.

End NumberShapes.

(** * Properties in binary64 arithmetic *)

Section Binary64Physics.

Import Binary64.
#[local] Open Scope Z_scope.

Lemma FRICTION_bits : FRICTION = S754_finite false 8556839292003942 (-53).
Proof. vm_compute. reflexivity. Qed.

Lemma cutoff_bits : Number.lit 0.001 = S754_finite false 4611686018427388 (-62).
Proof. vm_compute. reflexivity. Qed.

Lemma five_bits : Number.ofZ 5 = S754_finite false 5629499534213120 (-50).
Proof. vm_compute. reflexivity. Qed.

Lemma small_bits : Number.lit 0.0002 = S754_finite false 7378697629483821 (-65).
Proof. vm_compute. reflexivity. Qed.

(** Friction never enlarges a velocity. *)
Lemma friction_leb (s : bool) (m : positive) (e : Z) :
  bounded Number.prec Number.emax m e = true →
  Number.leb (Number.Math_abs (S754_finite s m e * FRICTION)%num) (S754_finite false m e) = true.
Proof.
  intros Hb. rewrite FRICTION_bits.
  apply mul_abs_leb; [done | reflexivity | done | lia |].
  replace (e - (e + -53)) with 53 by lia. lia.
Qed.

(** Friction makes a normal velocity strictly smaller, the smallest normal
    number apart. *)
Lemma friction_ltb (s : bool) (m : positive) (e : Z) :
  bounded Number.prec Number.emax m e = true →
  2 ^ 52 < Zpos m ∨ (Zpos m = 2 ^ 52 ∧ -1074 < e) →
  Number.ltb (Number.Math_abs (S754_finite s m e * FRICTION)%num) (S754_finite false m e) = true.
Proof.
  intros Hb Hnorm. rewrite FRICTION_bits.
  pose proof (bounded_mantissa m e Hb) as (Hm & He & _).
  apply bounded_spec in Hb as Hc.
  change (2 ^ 52) with 4503599627370496 in *. change (2 ^ 53) with 9007199254740992 in *.
  destruct Hnorm as [Hbig | [Hmin Hemin]].
  - apply (Number_leb_ltb_trans _ (S754_finite false (Z.to_pos (Zpos m - 1)) e)).
    + assert (Hpos : Zpos (Z.to_pos (Zpos m - 1)) = Zpos m - 1) by (apply Z2Pos.id; lia).
      apply mul_abs_leb; [by apply bounded_spec | reflexivity | | lia |].
      * apply bounded_spec.
        assert (Hd : Zdigits2 (Zpos m) = 53).
        { apply Z.le_antisymm; [apply Zdigits2_le; lia | apply Zdigits2_ge; lia]. }
        assert (Hd' : Zdigits2 (Zpos (Z.to_pos (Zpos m - 1))) = 53).
        { apply Z.le_antisymm; [apply Zdigits2_le | apply Zdigits2_ge]; rewrite Hpos;
            change (2 ^ 53) with 9007199254740992;
            change (2 ^ (53 - 1)) with 4503599627370496; lia. }
        rewrite Hd'. rewrite Hd in Hc. exact Hc.
      * rewrite Hpos. replace (e - (e + -53)) with 53 by lia.
        change (2 ^ 53) with 9007199254740992. lia.
    + apply SFltb_finite_pos. right. split; [done |]. rewrite Z2Pos.id; lia.
  - apply (Number_leb_ltb_trans _ (S754_finite false 9007199254740991 (e - 1))).
    + apply mul_abs_leb; [by apply bounded_spec | reflexivity | | lia |].
      * apply bounded_spec. change (Zdigits2 9007199254740991) with 53. lia.
      * replace (e - 1 - (e + -53)) with 52 by lia. rewrite Hmin.
        change (2 ^ 52) with 4503599627370496. lia.
    + apply SFltb_finite_pos. left. lia.
Qed.

(** One frame of friction followed by the cut-off: the velocity a released
    crank has after the frame. *)
Lemma released_velocity (time : Number.number) (c : Crank) :
  isDragging c = false →
  velocity (loopPhysics time c)
  = if (Number.Math_abs (velocity c * FRICTION) <? Number.lit 0.001)%num then zero
    else (velocity c * FRICTION)%num.
Proof.
  intros Hd. unfold loopPhysics. cbn [isDragging velocity]. rewrite Hd. cbn [negb].
  unfold updateCrankVisual. cbn [velocity].
  by destruct (_ <? _)%num.
Qed.




End Binary64Physics.

Section Binary64Friction.

Import Binary64.




End Binary64Friction.

Section Binary64CutOff.

Import Binary64.
#[local] Open Scope Z_scope.

Lemma wrapDelta_valid (delta : Number.number) :
  Number.valid delta = true → Number.valid (wrapDelta delta) = true.
Proof.
  intros Hd. unfold wrapDelta.
  assert (Hturn : Number.valid (Number.Math_PI * Number.ofZ 2)%num = true) by reflexivity.
  assert (H1 : Number.valid (if (delta >? Number.Math_PI)%num
                             then (delta - Number.Math_PI * Number.ofZ 2)%num else delta) = true).
  { destruct (_ >? _)%num; [by apply sub_valid | done]. }
  destruct (_ <? _)%num; [by apply add_valid | done].
Qed.

Lemma moveDrag_velocity (angle : Number.number) (c : Crank) :
  isDragging c = true →
  velocity (moveDrag angle c) = (wrapDelta (angle - lastMouseAngle c) * Number.ofZ 5)%num ∧
  isDragging (moveDrag angle c) = true.
Proof. intros Hd. unfold moveDrag. by rewrite Hd. Qed.

(** Five times a number below the binary64 0.0002 is, once rounded, at most
    the binary64 0.001. *)
Lemma small_delta_velocity (delta : Number.number) :
  Number.valid delta = true →
  (Number.Math_abs delta <? Number.lit 0.0002)%num = true →
  (Number.Math_abs (delta * Number.ofZ 5) <=? Number.lit 0.001)%num = true.
Proof.
  intros Hval Hsmall. rewrite small_bits in Hsmall. rewrite five_bits, cutoff_bits.
  destruct delta as [s | s | | s m e]; try discriminate.
  - by destruct s.
  - change (Number.valid (S754_finite s m e)) with (bounded Number.prec Number.emax m e) in Hval.
    pose proof (bounded_mantissa m e Hval) as (Hm & He & _).
    change (Number.Math_abs (S754_finite s m e)) with (S754_finite false m e) in Hsmall.
    apply SFltb_finite_pos in Hsmall.
    apply mul_abs_leb; [done | reflexivity | reflexivity | lia |].
    change (2 ^ 53) with 9007199254740992 in Hm.
    destruct Hsmall as [Hlow | [-> Hm']].
    + replace (-62 - (e + -50)) with (54 + (-66 - e)) by lia.
      rewrite Z.pow_add_r by lia.
      assert (HT : 1 <= 2 ^ (-66 - e)) by (apply Z.pow_le_mono_r with (b := 0); lia).
      change (2 ^ 54) with 18014398509481984. nia.
    + change (2 ^ (-62 - (-65 + -50))) with 9007199254740992. lia.
Qed.

(** Friction takes a finite velocity of magnitude at most 0.001 below
    0.001. *)
Lemma friction_below_cutoff (v : Number.number) :
  Number.valid v = true →
  (Number.Math_abs v <=? Number.lit 0.001)%num = true →
  (Number.Math_abs (v * FRICTION) <? Number.lit 0.001)%num = true.
Proof.
  intros Hval Hle. rewrite cutoff_bits in Hle |- *.
  destruct v as [s | s | | s m e]; try discriminate.
  - rewrite FRICTION_bits. by destruct s.
  - change (Number.valid (S754_finite s m e)) with (bounded Number.prec Number.emax m e) in Hval.
    change (Number.Math_abs (S754_finite s m e)) with (S754_finite false m e) in Hle.
    pose proof (bounded_mantissa m e Hval) as (Hm & He & Hsub).
    destruct (Z.lt_ge_cases (2 ^ 52) (Zpos m)) as [Hbig | Hsmall];
      [| destruct (Z.eq_dec e (-1074)) as [-> | Hne]].
    + apply (Number_ltb_leb_trans _ (S754_finite false m e)); [| done].
      apply friction_ltb; [done | by left].
    + apply (Number_leb_ltb_trans _ (S754_finite false m (-1074))); [by apply friction_leb |].
      apply SFltb_finite_pos. left. lia.
    + apply (Number_ltb_leb_trans _ (S754_finite false m e)); [| done].
      apply friction_ltb; [done | right; lia].
Qed.

(** The velocity a frame leaves, whatever the drag state, is 0 or not below
    the cut-off. *)
Lemma cutoff_applied (time : Number.number) (c : Crank) :
  velocity (loopPhysics time c) = zero ∨
  (Number.Math_abs (velocity (loopPhysics time c)) <? Number.lit 0.001)%num = false.
Proof.
  unfold loopPhysics. cbn [isDragging velocity].
  destruct (negb (isDragging c)); unfold updateCrankVisual; cbn [velocity];
    destruct (_ <? _)%num eqn:Hcut; cbn [velocity]; auto.
Qed.

Lemma held_velocity (time : Number.number) (c : Crank) :
  isDragging c = true →
  velocity (loopPhysics time c)
  = if (Number.Math_abs (velocity c) <? Number.lit 0.001)%num then zero else velocity c.
Proof.
  intros Hd. unfold loopPhysics. cbn [isDragging velocity]. rewrite Hd. cbn [negb velocity].
  by destruct (_ <? _)%num.
Qed.

Lemma loopAudio_slow_binary64 (h : Handler) (ans : PlayAnswer) (speed : Number.number) (a : Audio) :
  (speed >? Number.lit 0.02)%num = false →
  paused (loopAudio h ans speed a).1 = true.
Proof.
  intros Hs. unfold loopAudio. rewrite Hs.
  destruct (paused a) eqn:Hp; cbn [negb fst]; [exact Hp | reflexivity].
Qed.

(** C10.  The cut-off is applied in every frame, dragging or not: a held
    crank whose velocity has magnitude below 0.001 has velocity 0 after the
    frame, and the speed the playback logic reads is 0 or not below 0.001.
    After a drag move whose delta has magnitude below the binary64 0.0002
    the velocity, five times the delta as the host rounds it, has magnitude
    at most 0.001: the next frame reads speed 0, or exactly 0.001 when the
    product was rounded up to it; it reads speed 0 whenever the product is
    below 0.001, and always when the crank was released in between; in each
    case it leaves the transport paused. *)
Theorem loop_cutoff_every_frame :
  (∀ (time : Number.number) (c : Crank),
     (isDragging c = true →
      (Number.Math_abs (velocity c) <? Number.lit 0.001)%num = true →
      velocity (loopPhysics time c) = zero) ∧
     (speedOf (loopPhysics time c) = zero ∨
      (speedOf (loopPhysics time c) <? Number.lit 0.001)%num = false)) ∧
  (∀ (time angle : Number.number) (c : Crank),
     isDragging c = true →
     Number.valid angle = true → Number.valid (lastMouseAngle c) = true →
     let delta := wrapDelta (angle - lastMouseAngle c)%num in
     (Number.Math_abs delta <? Number.lit 0.0002)%num = true →
     (speedOf (loopPhysics time (moveDrag angle c)) = zero ∨
      speedOf (loopPhysics time (moveDrag angle c)) = Number.lit 0.001) ∧
     ((Number.Math_abs (delta * Number.ofZ 5) <? Number.lit 0.001)%num = true →
      speedOf (loopPhysics time (moveDrag angle c)) = zero) ∧
     speedOf (loopPhysics time (endDrag (moveDrag angle c))) = zero ∧
     ∀ (h : Handler) (ans : PlayAnswer) (a : Audio),
       paused (loopAudio h ans (speedOf (loopPhysics time (moveDrag angle c))) a).1 = true).
Proof.
  split.
  - intros time c. split.
    + intros Hd Hsmall. by rewrite held_velocity, Hsmall.
    + unfold speedOf. destruct (cutoff_applied time c) as [-> | H]; [by left | by right].
  - intros time angle c Hd Hangle Hlast delta Hsmall.
    destruct (moveDrag_velocity angle c Hd) as [Hv Hd'].
    assert (Hdelta : Number.valid delta = true)
      by (by apply wrapDelta_valid, sub_valid).
    pose proof (small_delta_velocity delta Hdelta Hsmall) as Hle.
    fold delta in Hv.
    assert (Hheld :
      speedOf (loopPhysics time (moveDrag angle c)) = zero ∨
      speedOf (loopPhysics time (moveDrag angle c)) = Number.lit 0.001).
    { unfold speedOf. rewrite held_velocity, Hv by done.
      destruct (Number.Math_abs (delta * Number.ofZ 5) <? Number.lit 0.001)%num eqn:Hcut;
        [left; reflexivity | right].
      assert (Hnan : Number.isNaN (Number.Math_abs (delta * Number.ofZ 5)%num) = false)
        by (by apply Number_leb_key in Hle as (? & _)).
      pose proof (Number_ltb_false_leb _ (Number.lit 0.001) Hnan eq_refl Hcut) as Hge.
      destruct (Number_leb_antisym _ _ Hle Hge) as [Heq | (s & s' & _ & Hz)];
        [exact Heq | rewrite cutoff_bits in Hz; discriminate]. }
    split; [exact Hheld |]. split; [| split].
    + intros Hcut. unfold speedOf. rewrite held_velocity, Hv, Hcut by done. reflexivity.
    + unfold speedOf. rewrite released_velocity by done.
      change (velocity (endDrag (moveDrag angle c))) with (velocity (moveDrag angle c)).
      rewrite Hv, friction_below_cutoff; [reflexivity | | done].
      apply mul_valid; [done | rewrite five_bits; reflexivity].
    + intros h ans a. apply loopAudio_slow_binary64.
      destruct Hheld as [-> | ->]; reflexivity.
Qed.

Lemma loop_cutoff_every_frame_witness :
  isDragging (startDrag zero initialCrank) = true ∧
  Number.valid (Number.lit 0.0001) = true ∧
  Number.valid (lastMouseAngle (startDrag zero initialCrank)) = true ∧
  (Number.Math_abs (wrapDelta (Number.lit 0.0001 - lastMouseAngle (startDrag zero initialCrank)))
   <? Number.lit 0.0002)%num = true ∧
  speedOf (loopPhysics zero (endDrag (moveDrag (Number.lit 0.0001) (startDrag zero initialCrank))))
  = zero.
Proof.
  split; [reflexivity |]. split; [reflexivity |]. split; [reflexivity |].
  split; [reflexivity |].
  exact (proj1 (proj2 (proj2 (proj2 loop_cutoff_every_frame zero (Number.lit 0.0001)
                                (startDrag zero initialCrank) eq_refl eq_refl eq_refl eq_refl)))).
Defined.

(** C10, as first stated: a delta below 0.0002 need not give speed 0.  The
    largest binary64 number below 0.0002, five times which rounds up to
    0.001. *)
Lemma loop_cutoff_last_place :
  let delta := S754_finite false 7378697629483820 (-65) in
  let c := moveDrag delta (startDrag zero initialCrank) in
  Number.valid delta = true ∧
  wrapDelta (delta - lastMouseAngle (startDrag zero initialCrank))%num = delta ∧
  (Number.Math_abs delta <? Number.lit 0.0002)%num = true ∧
  speedOf (loopPhysics zero c) = Number.lit 0.001 ∧
  speedOf (loopPhysics zero c) ≠ zero.
Proof. vm_compute. repeat split; discriminate. Qed.

End Binary64CutOff.

Section Binary64Audio.

Import Binary64.

Lemma threshold_bits : Number.lit 0.02 = S754_finite false 5764607523034235 (-58).
Proof. vm_compute. reflexivity. Qed.

Lemma three_bits : Number.ofZ 3 = S754_finite false 6755399441055744 (-51).
Proof. vm_compute. reflexivity. Qed.

Lemma half_bits : Number.lit 0.5 = S754_finite false 4503599627370496 (-53).
Proof. vm_compute. reflexivity. Qed.

Lemma low_rate_bits : Number.lit 0.8 = S754_finite false 7205759403792794 (-53).
Proof. vm_compute. reflexivity. Qed.

Lemma high_rate_bits : Number.lit 1.5 = S754_finite false 6755399441055744 (-52).
Proof. vm_compute. reflexivity. Qed.

Lemma one_bits : Number.ofZ 1 = S754_finite false 4503599627370496 (-52).
Proof. vm_compute. reflexivity. Qed.

(** A number above a positive number is positive. *)
Lemma positive_signed (x : Number.number) (m : positive) (e : Z) :
  (x >? S754_finite false m e)%num = true →
  Number.signed false x = true ∧ ∀ s, x ≠ S754_zero s.
Proof.
  intros H. destruct x as [s | [] | | [] mx ex]; try discriminate; by split.
Qed.

Lemma signed_nonneg (x : Number.number) :
  Number.signed false x = true → (zero <=? x)%num = true.
Proof. intros H. by destruct x as [[] | [] | | [] mx ex]. Qed.

(** The two tests on [rate] compute [clamp(rate, lo, hi)], for bounds in
    order that are neither 0 nor [NaN]. *)
Lemma rate_tests_clamp (x lo hi : Number.number) :
  Number.isNaN x = false →
  Number.finite lo = true → Number.finite hi = true →
  (lo <? hi)%num = true →
  (∀ s, lo ≠ S754_zero s) → (∀ s, hi ≠ S754_zero s) →
  let r1 := if (x >? hi)%num then hi else x in
  let r2 := if (r1 <? lo)%num then lo else r1 in
  r2 = Number.clamp x lo hi ∧ (lo <=? r2)%num = true ∧ (r2 <=? hi)%num = true.
Proof.
  intros Hx Hlo Hhi Hlt Hlo0 Hhi0 r1 r2.
  assert (Hnlo : Number.isNaN lo = false) by (by destruct lo).
  assert (Hnhi : Number.isNaN hi = false) by (by destruct hi).
  assert (Hmax : Number.Math_max x lo = if (x <? lo)%num then lo else x).
  { unfold Number.Math_max. rewrite Hx, Hnlo. cbn [orb]. fold (x <? lo)%num.
    destruct (x <? lo)%num eqn:H1; [done |]. fold (lo <? x)%num.
    destruct (lo <? x)%num eqn:H2; [done |].
    destruct x as [[] | | |]; try done.
    pose proof (Number_ltb_false_leb (S754_zero true) lo eq_refl Hnlo H1) as H3.
    pose proof (Number_ltb_false_leb lo (S754_zero true) Hnlo eq_refl H2) as H4.
    destruct (Number_leb_antisym _ _ H3 H4) as [-> | (s & s' & -> & _)]; [done |].
    by destruct (Hlo0 s). }
  assert (Hmin : ∀ y, Number.isNaN y = false →
                      Number.Math_min y hi
                      = if (y <? hi)%num then y else if (hi <? y)%num then hi else y).
  { intros y Hy. unfold Number.Math_min. rewrite Hy, Hnhi. cbn [orb].
    fold (y <? hi)%num. destruct (y <? hi)%num eqn:H1; [done |].
    fold (hi <? y)%num. destruct (hi <? y)%num eqn:H2; [done |].
    destruct y as [[] | | |]; try done.
    pose proof (Number_ltb_false_leb (S754_zero false) hi eq_refl Hnhi H1) as H3.
    pose proof (Number_ltb_false_leb hi (S754_zero false) Hnhi eq_refl H2) as H4.
    destruct (Number_leb_antisym _ _ H3 H4) as [Heq | (s & s' & Hs & _)];
      [exact Heq | by destruct (Hhi0 s)]. }
  unfold Number.clamp. rewrite Hmax. subst r2 r1.
  change (x >? hi)%num with (hi <? x)%num.
  destruct (x <? lo)%num eqn:Hxlo.
  - (* below the lower bound *)
    assert (Hxhi : (hi <? x)%num = false).
    { destruct (hi <? x)%num eqn:H; [| done].
      pose proof (Number_ltb_leb_trans _ _ _ H (Number_ltb_leb _ _ Hxlo)) as H'.
      pose proof (Number_leb_ltb_false _ _ (Number_ltb_leb _ _ Hlt)). congruence. }
    rewrite Hxhi, Hxlo, (Hmin lo Hnlo), Hlt.
    split; [done |]. split; [by apply Number_leb_refl | by apply Number_ltb_leb].
  - rewrite (Hmin x Hx). destruct (hi <? x)%num eqn:Hxhi.
    + (* above the upper bound *)
      rewrite (Number_leb_ltb_false _ _ (Number_ltb_leb _ _ Hxhi)).
      rewrite (Number_leb_ltb_false _ _ (Number_ltb_leb _ _ Hlt)).
      split; [done |]. split; [by apply Number_ltb_leb | by apply Number_leb_refl].
    + rewrite Hxlo.
      split; [by destruct (x <? hi)%num |].
      split; [by apply Number_ltb_false_leb | by apply Number_ltb_false_leb].
Qed.

(** [Math.min(1, t)] lies between 0 and 1 for a number [t] that is not
    negative. *)
Lemma volume_range (t : Number.number) :
  Number.signed false t = true →
  (zero <=? Number.Math_min (Number.ofZ 1) t)%num = true ∧
  (Number.Math_min (Number.ofZ 1) t <=? Number.ofZ 1)%num = true.
Proof.
  intros Ht. pose proof (signed_isNaN _ _ Ht) as Hn. pose proof (signed_nonneg _ Ht) as H0.
  unfold Number.Math_min. rewrite one_bits in *. rewrite Hn. cbn [Number.isNaN orb].
  fold (S754_finite false 4503599627370496 (-52) <? t)%num.
  destruct (_ <? t)%num eqn:H1; [done |].
  fold (t <? S754_finite false 4503599627370496 (-52))%num.
  destruct (t <? _)%num eqn:H2; [| done].
  split; [exact H0 | by apply Number_ltb_leb].
Qed.

Lemma rate_not_NaN (speed : Number.number) :
  (speed >? Number.lit 0.02)%num = true →
  Number.isNaN (Number.lit 0.5 + speed * Number.ofZ 3)%num = false ∧
  Number.signed false (speed * Number.ofZ 5)%num = true.
Proof.
  intros Hs. rewrite threshold_bits in Hs.
  destruct (positive_signed _ _ _ Hs) as [Hsig Hnz].
  rewrite half_bits, three_bits, five_bits. split.
  - apply add_isNaN; [done | | by left].
    apply (signed_isNaN false).
    apply (mul_signed false false); [done | done | by left | by left].
  - apply (mul_signed false false); [done | done | by left | by left].
Qed.

Lemma loopAudio_fast_binary64 (h : Handler) (ans : PlayAnswer) (speed : Number.number)
    (a : Audio) :
  (speed >? Number.lit 0.02)%num = true →
  playbackRate (loopAudio h ans speed a).1 = rateOf speed ∧
  volume (loopAudio h ans speed a).1 = volumeOf speed ∧
  currentTime (loopAudio h ans speed a).1 = currentTime a ∧
  duration (loopAudio h ans speed a).1 = duration a.
Proof.
  intros Hs. unfold loopAudio. rewrite Hs.
  set (rate := rateOf speed). set (vol := volumeOf speed). clearbody rate vol.
  destruct a as [p r v t d].
  destruct p; [destruct ans |]; cbn; repeat split; reflexivity.
Qed.

(** C3.  In a frame whose speed exceeds the binary64 0.02 the playback rate
    written to the audio element is clamp(0.5 + speed*3, 0.8, 1.5), computed
    in binary64, between 0.8 and 1.5, and the volume written is
    min(1, speed*5), between 0 and 1; speed 0.3 gives rate 1.4 and
    volume 1. *)
Theorem loop_rate_volume :
  (∀ (h : Handler) (ans : PlayAnswer) (speed : Number.number) (a : Audio),
     (speed >? Number.lit 0.02)%num = true →
     let a' := (loopAudio h ans speed a).1 in
     playbackRate a'
     = Number.clamp (Number.lit 0.5 + speed * Number.ofZ 3)%num (Number.lit 0.8) (Number.lit 1.5) ∧
     (Number.lit 0.8 <=? playbackRate a')%num = true ∧
     (playbackRate a' <=? Number.lit 1.5)%num = true ∧
     volume a' = Number.Math_min (Number.ofZ 1) (speed * Number.ofZ 5)%num ∧
     (zero <=? volume a')%num = true ∧
     (volume a' <=? Number.ofZ 1)%num = true) ∧
  (∀ (h : Handler) (ans : PlayAnswer) (a : Audio),
     playbackRate (loopAudio h ans (Number.lit 0.3) a).1 = Number.lit 1.4 ∧
     volume (loopAudio h ans (Number.lit 0.3) a).1 = Number.ofZ 1).
Proof.
  split.
  - intros h ans speed a Hs a'. subst a'.
    destruct (loopAudio_fast_binary64 h ans speed a Hs) as (-> & -> & _).
    destruct (rate_not_NaN speed Hs) as [Hn Hsig].
    unfold rateOf, volumeOf.
    rewrite low_rate_bits, high_rate_bits.
    destruct (rate_tests_clamp (Number.lit 0.5 + speed * Number.ofZ 3)%num
                (S754_finite false 7205759403792794 (-53))
                (S754_finite false 6755399441055744 (-52)) Hn eq_refl eq_refl eq_refl
                ltac:(done) ltac:(done)) as (Hc & Hlo & Hhi).
    split; [exact Hc |]. split; [exact Hlo |]. split; [exact Hhi |].
    split; [done |]. by apply volume_range.
  - intros h ans a.
    assert (Hs : (Number.lit 0.3 >? Number.lit 0.02)%num = true) by (vm_compute; reflexivity).
    destruct (loopAudio_fast_binary64 h ans (Number.lit 0.3) a Hs) as (-> & -> & _).
    split; vm_compute; reflexivity.
Qed.

Lemma loop_rate_volume_witness :
  (Number.lit 0.1 >? Number.lit 0.02)%num = true ∧
  playbackRate (loopAudio Ignore Fulfils (Number.lit 0.1)
                  (mkAudio true (Number.ofZ 1) (Number.ofZ 1) zero Number.NaN)).1
  = Number.clamp (Number.lit 0.5 + Number.lit 0.1 * Number.ofZ 3)%num
                 (Number.lit 0.8) (Number.lit 1.5).
Proof.
  assert (Hs : (Number.lit 0.1 >? Number.lit 0.02)%num = true) by (vm_compute; reflexivity).
  split; [exact Hs |].
  exact (proj1 (proj1 loop_rate_volume Ignore Fulfils (Number.lit 0.1)
                  (mkAudio true (Number.ofZ 1) (Number.ofZ 1) zero Number.NaN) Hs)).
Defined.

(** C8.  The playback logic is a threshold test with one threshold, the
    binary64 0.02: with speed above it a paused transport gets [play()],
    with speed not above it, in particular at most it, a playing transport
    gets [pause()], and otherwise no call is made; so the state the frame
    asks for is playing exactly when speed > 0.02.  When the host does not
    deny playback, the element is then paused exactly when speed is not
    above the threshold, and a second evaluation at the same speed makes no
    call and changes nothing. *)
Theorem loop_playback_threshold :
  ∀ (h : Handler) (ans : PlayAnswer) (speed : Number.number) (a : Audio),
    let a' := (loopAudio h ans speed a).1 in
    let tr := (loopAudio h ans speed a).2 in
    ((speed >? Number.lit 0.02)%num = true → paused a = true → called tr = Some CallPlay) ∧
    ((speed >? Number.lit 0.02)%num = false → paused a = false →
     called tr = Some CallPause) ∧
    ((speed <=? Number.lit 0.02)%num = true → (speed >? Number.lit 0.02)%num = false) ∧
    ((speed >? Number.lit 0.02)%num = true → paused a = false → called tr = None) ∧
    ((speed >? Number.lit 0.02)%num = false → paused a = true → called tr = None ∧ a' = a) ∧
    (intendedPlaying a tr = true ↔ (speed >? Number.lit 0.02)%num = true) ∧
    ((∀ reason, ans ≠ Rejects reason) →
     (paused a' = false ↔ (speed >? Number.lit 0.02)%num = true) ∧
     ∀ ans', loopAudio h ans' speed a' = (a', {| called := None; promises := [] |})).
Proof.
  intros h ans speed a a' tr. subst a' tr.
  assert (Hle : (speed <=? Number.lit 0.02)%num = true → (speed >? Number.lit 0.02)%num = false)
    by apply Number_leb_ltb_false.
  unfold loopAudio, intendedPlaying.
  set (fast := (speed >? Number.lit 0.02)%num) in *. clearbody fast.
  set (rate := rateOf speed). set (vol := volumeOf speed). clearbody rate vol.
  split; [| split; [| split; [| split; [| split; [| split]]]]].
  - intros -> ->. by destruct ans.
  - by intros -> ->.
  - exact Hle.
  - by intros -> ->.
  - by intros -> ->.
  - destruct fast, (paused a); [destruct ans | | |]; cbn; split; done.
  - intros Hans. destruct a as [p r v t d].
    destruct fast, p; [destruct ans as [| reason |]; [| by destruct (Hans reason) |] | | |];
      cbn; (split; [done |]); intros ans'; reflexivity.
Qed.

Lemma loop_playback_threshold_witness :
  (Number.lit 0.1 >? Number.lit 0.02)%num = true ∧
  paused (mkAudio true (Number.ofZ 1) (Number.ofZ 1) zero Number.NaN) = true ∧
  called (loopAudio Ignore Fulfils (Number.lit 0.1)
            (mkAudio true (Number.ofZ 1) (Number.ofZ 1) zero Number.NaN)).2
  = Some CallPlay.
Proof.
  assert (Hs : (Number.lit 0.1 >? Number.lit 0.02)%num = true) by (vm_compute; reflexivity).
  split; [exact Hs |]. split; [reflexivity |].
  exact (proj1 (loop_playback_threshold Ignore Fulfils (Number.lit 0.1)
                  (mkAudio true (Number.ofZ 1) (Number.ofZ 1) zero Number.NaN)) Hs eq_refl).
Defined.

End Binary64Audio.

Section Binary64Drag.

Import Binary64.

Lemma tenth_bits : Number.lit 0.1 = S754_finite false 7205759403792794 (-56).
Proof. vm_compute. reflexivity. Qed.

Lemma moveDrag_dragging_binary64 (angle : Number.number) (c : Crank) :
  isDragging c = true →
  let delta := wrapDelta (angle - lastMouseAngle c)%num in
  moveDrag angle c
  = {| isDragging := true;
       currentAngle := (currentAngle c + delta)%num;
       lastMouseAngle := angle;
       velocity := (delta * Number.ofZ 5)%num;
       lastTime := lastTime c;
       spinnerRotation :=
         ((currentAngle c + delta) * (Number.ofZ 180 / Number.Math_PI))%num |}.
Proof. intros Hd delta. unfold moveDrag, updateCrankVisual. by rewrite Hd. Qed.

(** C4.  A move while dragging adds the wrapped delta to [currentAngle],
    sets [velocity] to five times it and [lastMouseAngle] to the new angle,
    each as the host rounds it.  Three moves whose deltas are each the
    binary64 0.1, from rest, end with [velocity] 0.5 and with [currentAngle]
    0.1 + 0.1 + 0.1 as binary64 adds it: 0.30000000000000004, the number
    next above 0.3. *)
Theorem moveDrag_update :
  (∀ (angle : Number.number) (c : Crank),
     isDragging c = true →
     let delta := wrapDelta (angle - lastMouseAngle c)%num in
     let c' := moveDrag angle c in
     currentAngle c' = (currentAngle c + delta)%num ∧
     velocity c' = (delta * Number.ofZ 5)%num ∧
     lastMouseAngle c' = angle ∧
     isDragging c' = true) ∧
  (∀ a0 a1 a2 a3 : Number.number,
     wrapDelta (a1 - a0)%num = Number.lit 0.1 →
     wrapDelta (a2 - a1)%num = Number.lit 0.1 →
     wrapDelta (a3 - a2)%num = Number.lit 0.1 →
     let c := moveDrag a3 (moveDrag a2 (moveDrag a1 (startDrag a0 initialCrank))) in
     currentAngle c = S754_finite false 5404319552844596 (-54) ∧
     velocity c = Number.lit 0.5 ∧
     Number.lit 0.3 = S754_finite false 5404319552844595 (-54)).
Proof.
  split.
  - intros angle c Hd delta c'. subst c'. by rewrite moveDrag_dragging_binary64.
  - intros a0 a1 a2 a3 H1 H2 H3 c. subst c.
    rewrite !moveDrag_dragging_binary64 by (by rewrite ?moveDrag_dragging_binary64).
    cbn [startDrag initialCrank currentAngle lastMouseAngle velocity].
    rewrite H1, H2, H3. split; [| split]; vm_compute; reflexivity.
Qed.

Lemma moveDrag_update_witness :
  wrapDelta (zero - Number.lit (-0.1))%num = Number.lit 0.1 ∧
  wrapDelta (Number.lit 0.1 - zero)%num = Number.lit 0.1 ∧
  wrapDelta (Number.lit 0.2 - Number.lit 0.1)%num = Number.lit 0.1 ∧
  velocity (moveDrag (Number.lit 0.2) (moveDrag (Number.lit 0.1) (moveDrag zero
              (startDrag (Number.lit (-0.1)) initialCrank)))) = Number.lit 0.5.
Proof.
  assert (H1 : wrapDelta (zero - Number.lit (-0.1))%num = Number.lit 0.1)
    by (vm_compute; reflexivity).
  assert (H2 : wrapDelta (Number.lit 0.1 - zero)%num = Number.lit 0.1)
    by (vm_compute; reflexivity).
  assert (H3 : wrapDelta (Number.lit 0.2 - Number.lit 0.1)%num = Number.lit 0.1)
    by (vm_compute; reflexivity).
  split; [exact H1 |]. split; [exact H2 |]. split; [exact H3 |].
  exact (proj1 (proj2 (proj2 moveDrag_update (Number.lit (-0.1)) zero (Number.lit 0.1)
                         (Number.lit 0.2) H1 H2 H3))).
Defined.

(** C4, as first stated: three deltas of 0.1 do not add up to 0.3.  The
    drag starts at -0.1 and moves to 0, 0.1 and 0.2; and a drag from 0 to
    0.1, 0.2 and 0.3 ends with velocity 0.4999999999999999, its last delta
    being 0.09999999999999998. *)
Lemma moveDrag_three_tenths :
  let c := moveDrag (Number.lit 0.2) (moveDrag (Number.lit 0.1) (moveDrag zero
             (startDrag (Number.lit (-0.1)) initialCrank))) in
  let c' := moveDrag (Number.lit 0.3) (moveDrag (Number.lit 0.2) (moveDrag (Number.lit 0.1)
              (startDrag zero initialCrank))) in
  wrapDelta (zero - Number.lit (-0.1))%num = Number.lit 0.1 ∧
  wrapDelta (Number.lit 0.1 - zero)%num = Number.lit 0.1 ∧
  wrapDelta (Number.lit 0.2 - Number.lit 0.1)%num = Number.lit 0.1 ∧
  currentAngle c ≠ Number.lit 0.3 ∧
  velocity c = Number.lit 0.5 ∧
  velocity c' = S754_finite false 9007199254740990 (-54) ∧
  velocity c' ≠ Number.lit 0.5.
Proof. vm_compute. repeat split; discriminate. Qed.

End Binary64Drag.

Section Binary64Slideshow.

#[local] Open Scope Z_scope.

(** The index computed from a progress that is a number is an index of the
    photo list. *)
Lemma photoIndex_range_binary64 (progress : Number.number) (n : Z) :
  1 <= n < 2 ^ 53 →
  Number.isNaN progress = false →
  ∃ k : Z,
    Binary64.Player.photoIndex progress n = Number.Integer k ∧
    0 <= k <= n - 1 ∧
    ∀ z, Number.Math_floor (progress * Number.ofZ n)%num = Number.Integer z →
         k = Z.max 0 (Z.min z (n - 1)).
Proof.
  intros Hn Hp. destruct n as [| n | n]; try lia.
  unfold Binary64.Player.photoIndex. rewrite (ofZ_exact n (proj2 Hn)).
  set (M := Z.to_pos _). set (F := _ - 53).
  assert (Hprod : Number.isNaN (progress * S754_finite false M F)%num = false).
  { destruct progress as [s | s | | s mp ep]; try done.
    apply (signed_isNaN (xorb s false)). cbn [Number.mul SFmul].
    by apply binary_round_aux_signed. }
  destruct (Number.Math_floor (progress * S754_finite false M F)%num) as [| [] | z] eqn:Hfl.
  - by destruct (progress * S754_finite false M F)%num.
  - exists 0. cbn [Number.Integral_geb Number.Integral_ltb negb].
    split; [done |]. split; [lia | done].
  - exists (Zpos n - 1). cbn [Number.Integral_geb Number.Integral_ltb negb].
    destruct (Z.ltb_spec (Zpos n - 1) 0); [lia |].
    split; [done |]. split; [lia | done].
  - cbn [Number.Integral_geb]. destruct (Z.leb_spec (Zpos n) z) as [Hge | Hlt].
    + exists (Zpos n - 1). cbn [Number.Integral_ltb].
      destruct (Z.ltb_spec (Zpos n - 1) 0); [lia |].
      split; [done |]. split; [lia |]. intros ? [= <-]. lia.
    + cbn [Number.Integral_ltb]. destruct (Z.ltb_spec z 0) as [Hneg | Hpos].
      * exists 0. split; [done |]. split; [lia |]. intros ? [= <-]. lia.
      * exists z. split; [done |]. split; [lia |]. intros ? [= <-]. lia.
Qed.


(** [showPhoto] at an index of the list does what the update of the first
    layer does at a progress that gives this index. *)
Lemma photoIndex_of_index (k n : Z) :
  0 <= k <= n - 1 → Player.photoIndex (inject_Z k / inject_Z n) n = k.
Proof.
  intros Hk. destruct (photoIndex_clamp (inject_Z k / inject_Z n) n) as [-> _]; [lia |].
  assert (Hfl : JS.Math_floor (inject_Z k / inject_Z n * inject_Z n) = k).
  { unfold JS.Math_floor. rewrite <- (Qfloor_Z k) at 2. apply Qfloor_comp.
    field. intros H0. apply (inject_Z_injective n 0) in H0. lia. }
  rewrite Hfl. lia.
Qed.

Lemma showPhoto_exact (k : Z) (s : Player.Slideshow) :
  0 <= k <= Z.of_nat (length (Player.photos s)) - 1 →
  Binary64.Player.showPhoto (Number.Integer k) s
  = Player.updatePhotos (inject_Z k / inject_Z (Z.of_nat (length (Player.photos s)))) s.
Proof.
  intros Hk. unfold Player.updatePhotos, Binary64.Player.showPhoto.
  rewrite (photoIndex_of_index k _ Hk).
  destruct (Z.eqb_spec (Z.of_nat (length (Player.photos s))) 0) as [H0 | _]; [lia |].
  cbn [Number.Integral_neqb].
  destruct (negb (k =? Player.currentPhotoIndex s)); [| done].
  destruct (elementAt (Player.photos s) (Player.currentPhotoIndex s)) as [old |]; [| done].
  cbn zeta. unfold Number.elementAt, elementAt.
  by destruct (k <? 0); [| destruct (_ !! Z.to_nat k)].
Qed.

Lemma updatePhotos_binary64 (progress : Number.number) (s : Player.Slideshow) :
  Player.photos s ≠ [] →
  Z.of_nat (length (Player.photos s)) < 2 ^ 53 →
  Number.isNaN progress = false →
  ∃ k : Z,
    Binary64.Player.photoIndex progress (Z.of_nat (length (Player.photos s)))
    = Number.Integer k ∧
    0 <= k <= Z.of_nat (length (Player.photos s)) - 1 ∧
    Binary64.Player.updatePhotos progress s
    = Player.updatePhotos (inject_Z k / inject_Z (Z.of_nat (length (Player.photos s)))) s ∧
    Player.photoIndex (inject_Z k / inject_Z (Z.of_nat (length (Player.photos s))))
      (Z.of_nat (length (Player.photos s))) = k.
Proof.
  intros Hne Hn Hp. unfold Binary64.Player.updatePhotos.
  assert (Hpos : 1 <= Z.of_nat (length (Player.photos s)))
    by (destruct (Player.photos s); [done | simpl; lia]).
  destruct (Z.eqb_spec (Z.of_nat (length (Player.photos s))) 0) as [H0 | _]; [lia |].
  destruct (photoIndex_range_binary64 progress _ (conj Hpos Hn) Hp) as (k & Hk & Hrange & _).
  exists k. rewrite Hk. split; [done |]. split; [done |].
  split; [by apply showPhoto_exact | by apply photoIndex_of_index].
Qed.



End Binary64Slideshow.

Section Binary64Frames.

#[local] Open Scope Z_scope.

Lemma progressOf_isNaN (a : Binary64.Audio) :
  Number.finite (Binary64.currentTime a) = true →
  Number.isNaN (Binary64.progressOf a) = false.
Proof.
  intros Hfin. unfold Binary64.progressOf.
  destruct (Binary64.duration a >? Binary64.zero)%num eqn:Hpos; [| reflexivity].
  destruct (negb (Number.isNaN (Binary64.duration a))); [| reflexivity].
  cbn [andb]. by apply div_isNaN.
Qed.

Lemma loopAudio_shape_binary64 (h : Handler) (ans : PlayAnswer) (speed : Number.number)
    (a : Binary64.Audio) :
  let r := Binary64.loopAudio h ans speed a in
  Binary64.currentTime r.1 = Binary64.currentTime a ∧
  Binary64.duration r.1 = Binary64.duration a ∧
  Binary64.playbackRate r.1
  = (if (speed >? Number.lit 0.02)%num then Binary64.rateOf speed
     else Binary64.playbackRate a) ∧
  Binary64.volume r.1
  = (if (speed >? Number.lit 0.02)%num then Binary64.volumeOf speed else Binary64.volume a) ∧
  called r.2
  = (if (speed >? Number.lit 0.02)%num
     then if Binary64.paused a then Some CallPlay else None
     else if Binary64.paused a then None else Some CallPause) ∧
  promises r.2
  = (if (speed >? Number.lit 0.02)%num && Binary64.paused a
     then match ans with
          | Fulfils => [ {| settlement := Fulfilled; onRejected := Some h |} ]
          | Rejects reason => [ {| settlement := Rejected reason; onRejected := Some h |} ]
          | NoPromise => []
          end
     else []) ∧
  Binary64.paused r.1
  = (if (speed >? Number.lit 0.02)%num
     then if Binary64.paused a
          then match ans with Rejects _ => true | _ => false end
          else false
     else true).
Proof.
  unfold Binary64.loopAudio.
  set (fast := (speed >? Number.lit 0.02)%num). clearbody fast.
  set (rate := Binary64.rateOf speed). set (vol := Binary64.volumeOf speed).
  clearbody rate vol. destruct a as [p r v t d].
  destruct fast, p; [destruct ans | | |]; cbn; repeat split; reflexivity.
Qed.

Lemma loop_unfold_binary64 (pg : Binary64.Player.Page) (inp : Binary64.Player.FrameInput)
    (w : Binary64.Player.World) :
  let c := Binary64.loopPhysics (Binary64.Player.time inp) (Binary64.Player.crank w) in
  let au := Binary64.loopAudio Ignore (Binary64.Player.playAnswer inp) (Binary64.speedOf c)
              (Binary64.Player.audio w) in
  let dv := Binary64.Player.drawVisualizer pg inp (Binary64.Player.analyser w)
              (Binary64.Player.canvas w) au.1 (Binary64.speedOf c)
              (Binary64.Player.slideshow w) in
  Binary64.Player.loop pg inp w =
    ({| Binary64.Player.crank := c; Binary64.Player.audio := au.1;
        Binary64.Player.analyser := Binary64.Player.analyser w;
        Binary64.Player.canvas := Binary64.Player.canvas w;
        Binary64.Player.slideshow := dv.2.1 |},
     {| Binary64.Player.transport := au.2; Binary64.Player.drawing := dv.1;
        Binary64.Player.thrown := dv.2.2;
        Binary64.Player.animationFrameRequested :=
          match dv.2.2 with None => true | Some _ => false end |}).
Proof.
  intros c au dv. unfold Binary64.Player.loop. fold c. fold au.
  destruct au as [a tr] eqn:Hau. cbn [fst snd] in dv |- *. fold dv.
  by destruct dv as [d [s e]].
Qed.

Lemma VoiceNoteApp_loop_unfold_binary64 (inp : Binary64.VoiceNoteApp.FrameInput)
    (w : Binary64.VoiceNoteApp.World) :
  let c := Binary64.loopPhysics (Binary64.VoiceNoteApp.time inp)
             (Binary64.VoiceNoteApp.crank w) in
  let au := Binary64.loopAudio (ConsoleLog VoiceNoteApp.playbackPrevented)
              (Binary64.VoiceNoteApp.playAnswer inp) (Binary64.speedOf c)
              (Binary64.VoiceNoteApp.audio w) in
  let dv := Binary64.VoiceNoteApp.drawVisualizer inp w au.1 in
  Binary64.VoiceNoteApp.loop inp w =
    ({| Binary64.VoiceNoteApp.crank := c; Binary64.VoiceNoteApp.audio := au.1;
        Binary64.VoiceNoteApp.isAudioSetup := Binary64.VoiceNoteApp.isAudioSetup w;
        Binary64.VoiceNoteApp.analyser := Binary64.VoiceNoteApp.analyser w;
        Binary64.VoiceNoteApp.canvas := Binary64.VoiceNoteApp.canvas w |},
     {| Binary64.VoiceNoteApp.transport := au.2; Binary64.VoiceNoteApp.drawing := dv.1;
        Binary64.VoiceNoteApp.thrown := dv.2;
        Binary64.VoiceNoteApp.animationFrameRequested :=
          match dv.2 with None => true | Some _ => false end |}).
Proof.
  intros c au dv. unfold Binary64.VoiceNoteApp.loop. fold c. fold au.
  destruct au as [a tr] eqn:Hau. cbn [fst snd] in dv |- *. fold dv.
  by destruct dv as [d e].
Qed.

(** The slideshow update of a frame ends without exception when the stored
    index is an index and the progress is a number. *)
Lemma updatePhotos_ready_binary64 (progress : Number.number) (s : Player.Slideshow) :
  Player.SlideshowReady s →
  Z.of_nat (length (Player.photos s)) < 2 ^ 53 →
  Number.isNaN progress = false →
  ∃ s', Binary64.Player.updatePhotos progress s = (s', None) ∧
        Player.SlideshowReady s' ∧
        length (Player.photos s') = length (Player.photos s).
Proof.
  intros Hready Hsize Hp.
  destruct (decide (Player.photos s = [])) as [Hnil | Hne].
  - exists s. unfold Binary64.Player.updatePhotos. by rewrite Hnil.
  - destruct (updatePhotos_binary64 progress s Hne Hsize Hp) as (k & _ & _ & -> & _).
    destruct (updatePhotos_ready (inject_Z k / inject_Z (Z.of_nat (length (Player.photos s)))) s
                Hready) as (s' & Hup & Hready').
    exists s'. split; [done |]. split; [done |].
    pose proof (updatePhotos_length
                  (inject_Z k / inject_Z (Z.of_nat (length (Player.photos s)))) s Hready) as Hl.
    by rewrite Hup in Hl.
Qed.

Lemma drawVisualizer_audio_binary64 (pg : Binary64.Player.Page)
    (inp inp' : Binary64.Player.FrameInput) (analyser : option Analyser)
    (cv : Binary64.Canvas) (a a' : Binary64.Audio) (speed : Number.number)
    (s : Player.Slideshow) :
  Binary64.Player.snapshot inp = Binary64.Player.snapshot inp' →
  Binary64.Player.random inp = Binary64.Player.random inp' →
  Binary64.currentTime a = Binary64.currentTime a' →
  Binary64.duration a = Binary64.duration a' →
  Binary64.Player.drawVisualizer pg inp analyser cv a speed s
  = Binary64.Player.drawVisualizer pg inp' analyser cv a' speed s.
Proof.
  intros Hs Hr Ht Hd. unfold Binary64.Player.drawVisualizer, Binary64.progressOf.
  by rewrite Hs, Hr, Ht, Hd.
Qed.

Lemma VoiceNoteApp_drawVisualizer_audio_binary64 (inp inp' : Binary64.VoiceNoteApp.FrameInput)
    (w : Binary64.VoiceNoteApp.World) (a a' : Binary64.Audio) :
  Binary64.VoiceNoteApp.snapshot inp = Binary64.VoiceNoteApp.snapshot inp' →
  Binary64.currentTime a = Binary64.currentTime a' →
  Binary64.duration a = Binary64.duration a' →
  Binary64.VoiceNoteApp.drawVisualizer inp w a = Binary64.VoiceNoteApp.drawVisualizer inp' w a'.
Proof.
  intros Hs Ht Hd. unfold Binary64.VoiceNoteApp.drawVisualizer, Binary64.progressOf.
  by rewrite Hs, Ht, Hd.
Qed.

(** A frame of the current revision ends without exception and asks for
    the next one, when the stored index is an index and the position in the
    clip is a finite number. *)
Lemma loop_completes_binary64 (pg : Binary64.Player.Page) (inp : Binary64.Player.FrameInput)
    (w : Binary64.Player.World) :
  Player.SlideshowReady (Binary64.Player.slideshow w) →
  Z.of_nat (length (Player.photos (Binary64.Player.slideshow w))) < 2 ^ 53 →
  Number.finite (Binary64.currentTime (Binary64.Player.audio w)) = true →
  Binary64.Player.thrown (Binary64.Player.loop pg inp w).2 = None ∧
  Binary64.Player.animationFrameRequested (Binary64.Player.loop pg inp w).2 = true ∧
  Player.SlideshowReady (Binary64.Player.slideshow (Binary64.Player.loop pg inp w).1) ∧
  length (Player.photos (Binary64.Player.slideshow (Binary64.Player.loop pg inp w).1))
  = length (Player.photos (Binary64.Player.slideshow w)).
Proof.
  intros Hready Hsize Hfin. rewrite loop_unfold_binary64.
  cbn [fst snd Binary64.Player.thrown Binary64.Player.animationFrameRequested
       Binary64.Player.slideshow].
  unfold Binary64.Player.drawVisualizer. cbn [fst snd].
  set (au := Binary64.loopAudio _ _ _ _).
  assert (Hp : Number.isNaN (Binary64.progressOf au.1) = false).
  { apply progressOf_isNaN. subst au.
    by rewrite (proj1 (loopAudio_shape_binary64 _ _ _ _)). }
  destruct (updatePhotos_ready_binary64 _ _ Hready Hsize Hp) as (s' & -> & Hready' & Hlen).
  cbn [fst snd]. split; [reflexivity |]. split; [reflexivity |]. split; assumption.
Qed.

(** C9.  In both revisions a frame in which the host rejects [play()] ends
    like the frame in which it grants it.  The frame calls [play()] exactly
    when the speed is above 0.02 and the element is paused; the promise it
    then gets is the rejected one and carries the handler the revision
    attaches, so no rejection stays unhandled; no exception leaves [loop]
    and the next frame is requested; the rate and the volume are written as
    in any frame above the threshold; the crank, the rate, the volume, the
    drawing and (current revision) the slideshow are those of the granted
    frame; the current revision writes nothing to the console, the earlier
    one the rejection; the element stays paused, so the next frame that
    reads a speed above 0.02 calls [play()] again. *)
Theorem loop_play_rejected :
  (∀ (pg : Binary64.Player.Page) (inp : Binary64.Player.FrameInput)
     (w : Binary64.Player.World) (reason : string),
     Player.SlideshowReady (Binary64.Player.slideshow w) →
     Z.of_nat (length (Player.photos (Binary64.Player.slideshow w))) < 2 ^ 53 →
     Number.finite (Binary64.currentTime (Binary64.Player.audio w)) = true →
     let speed :=
       Binary64.speedOf
         (Binary64.loopPhysics (Binary64.Player.time inp) (Binary64.Player.crank w)) in
     let denied :=
       Binary64.Player.loop pg (Binary64.Player.withPlayAnswer (Rejects reason) inp) w in
     let granted := Binary64.Player.loop pg (Binary64.Player.withPlayAnswer Fulfils inp) w in
     Binary64.Player.thrown denied.2 = None ∧
     Binary64.Player.animationFrameRequested denied.2 = true ∧
     called (Binary64.Player.transport denied.2)
     = (if (speed >? Number.lit 0.02)%num
        then if Binary64.paused (Binary64.Player.audio w) then Some CallPlay else None
        else if Binary64.paused (Binary64.Player.audio w) then None else Some CallPause) ∧
     promises (Binary64.Player.transport denied.2)
     = (if (speed >? Number.lit 0.02)%num && Binary64.paused (Binary64.Player.audio w)
        then [ {| settlement := Rejected reason; onRejected := Some Ignore |} ]
        else []) ∧
     unhandledRejections (promises (Binary64.Player.transport denied.2)) = [] ∧
     consoleLines (promises (Binary64.Player.transport denied.2)) = [] ∧
     Binary64.Player.crank denied.1 = Binary64.Player.crank granted.1 ∧
     ((speed >? Number.lit 0.02)%num = true →
      Binary64.playbackRate (Binary64.Player.audio denied.1) = Binary64.rateOf speed ∧
      Binary64.volume (Binary64.Player.audio denied.1) = Binary64.volumeOf speed) ∧
     Binary64.playbackRate (Binary64.Player.audio denied.1)
     = Binary64.playbackRate (Binary64.Player.audio granted.1) ∧
     Binary64.volume (Binary64.Player.audio denied.1)
     = Binary64.volume (Binary64.Player.audio granted.1) ∧
     Binary64.Player.drawing denied.2 = Binary64.Player.drawing granted.2 ∧
     Binary64.Player.slideshow denied.1 = Binary64.Player.slideshow granted.1 ∧
     (Binary64.paused (Binary64.Player.audio w) = true →
      Binary64.paused (Binary64.Player.audio denied.1) = true) ∧
     (∀ (inp' : Binary64.Player.FrameInput) (w' : Binary64.Player.World),
        Binary64.Player.audio w' = Binary64.Player.audio denied.1 →
        Binary64.Player.slideshow w' = Binary64.Player.slideshow denied.1 →
        Binary64.paused (Binary64.Player.audio w) = true →
        (Binary64.speedOf
           (Binary64.loopPhysics (Binary64.Player.time inp') (Binary64.Player.crank w'))
         >? Number.lit 0.02)%num = true →
        Binary64.Player.thrown (Binary64.Player.loop pg inp' w').2 = None ∧
        called (Binary64.Player.transport (Binary64.Player.loop pg inp' w').2)
        = Some CallPlay)) ∧
  (∀ (inp : Binary64.VoiceNoteApp.FrameInput) (w : Binary64.VoiceNoteApp.World)
     (reason : string),
     Binary64.VoiceNoteApp.AnalyserReady w →
     let speed :=
       Binary64.speedOf
         (Binary64.loopPhysics (Binary64.VoiceNoteApp.time inp)
            (Binary64.VoiceNoteApp.crank w)) in
     let denied :=
       Binary64.VoiceNoteApp.loop (Binary64.VoiceNoteApp.withPlayAnswer (Rejects reason) inp)
         w in
     let granted :=
       Binary64.VoiceNoteApp.loop (Binary64.VoiceNoteApp.withPlayAnswer Fulfils inp) w in
     Binary64.VoiceNoteApp.thrown denied.2 = None ∧
     Binary64.VoiceNoteApp.animationFrameRequested denied.2 = true ∧
     called (Binary64.VoiceNoteApp.transport denied.2)
     = (if (speed >? Number.lit 0.02)%num
        then if Binary64.paused (Binary64.VoiceNoteApp.audio w) then Some CallPlay else None
        else if Binary64.paused (Binary64.VoiceNoteApp.audio w) then None
             else Some CallPause) ∧
     promises (Binary64.VoiceNoteApp.transport denied.2)
     = (if (speed >? Number.lit 0.02)%num && Binary64.paused (Binary64.VoiceNoteApp.audio w)
        then [ {| settlement := Rejected reason;
                  onRejected := Some (ConsoleLog VoiceNoteApp.playbackPrevented) |} ]
        else []) ∧
     unhandledRejections (promises (Binary64.VoiceNoteApp.transport denied.2)) = [] ∧
     consoleLines (promises (Binary64.VoiceNoteApp.transport denied.2))
     = (if (speed >? Number.lit 0.02)%num && Binary64.paused (Binary64.VoiceNoteApp.audio w)
        then [ String.append VoiceNoteApp.playbackPrevented reason ]
        else []) ∧
     Binary64.VoiceNoteApp.crank denied.1 = Binary64.VoiceNoteApp.crank granted.1 ∧
     ((speed >? Number.lit 0.02)%num = true →
      Binary64.playbackRate (Binary64.VoiceNoteApp.audio denied.1) = Binary64.rateOf speed ∧
      Binary64.volume (Binary64.VoiceNoteApp.audio denied.1) = Binary64.volumeOf speed) ∧
     Binary64.playbackRate (Binary64.VoiceNoteApp.audio denied.1)
     = Binary64.playbackRate (Binary64.VoiceNoteApp.audio granted.1) ∧
     Binary64.volume (Binary64.VoiceNoteApp.audio denied.1)
     = Binary64.volume (Binary64.VoiceNoteApp.audio granted.1) ∧
     Binary64.VoiceNoteApp.drawing denied.2 = Binary64.VoiceNoteApp.drawing granted.2 ∧
     (Binary64.paused (Binary64.VoiceNoteApp.audio w) = true →
      Binary64.paused (Binary64.VoiceNoteApp.audio denied.1) = true) ∧
     (∀ (inp' : Binary64.VoiceNoteApp.FrameInput) (w' : Binary64.VoiceNoteApp.World),
        Binary64.VoiceNoteApp.audio w' = Binary64.VoiceNoteApp.audio denied.1 →
        Binary64.VoiceNoteApp.AnalyserReady w' →
        Binary64.paused (Binary64.VoiceNoteApp.audio w) = true →
        (Binary64.speedOf
           (Binary64.loopPhysics (Binary64.VoiceNoteApp.time inp')
              (Binary64.VoiceNoteApp.crank w'))
         >? Number.lit 0.02)%num = true →
        Binary64.VoiceNoteApp.thrown (Binary64.VoiceNoteApp.loop inp' w').2 = None ∧
        called (Binary64.VoiceNoteApp.transport (Binary64.VoiceNoteApp.loop inp' w').2)
        = Some CallPlay)).
Proof.
  split.
  - intros pg inp w reason Hready Hsize Hfin speed denied granted.
    destruct (loop_completes_binary64 pg (Binary64.Player.withPlayAnswer (Rejects reason) inp)
                w Hready Hsize Hfin) as (Hthrown & Hreq & Hready' & Hlen').
    fold denied in Hthrown, Hreq, Hready', Hlen'.
    pose proof (loop_unfold_binary64 pg
                  (Binary64.Player.withPlayAnswer (Rejects reason) inp) w) as Hd.
    pose proof (loop_unfold_binary64 pg (Binary64.Player.withPlayAnswer Fulfils inp) w) as Hg.
    cbv zeta in Hd, Hg. cbn [Binary64.Player.withPlayAnswer Binary64.Player.time
                             Binary64.Player.playAnswer] in Hd, Hg.
    fold speed in Hd, Hg. fold denied in Hd. fold granted in Hg.
    destruct (loopAudio_shape_binary64 Ignore (Rejects reason) speed (Binary64.Player.audio w))
      as (Ht & Hdu & Hrate & Hvol & Hcall & Hprom & Hpaused).
    destruct (loopAudio_shape_binary64 Ignore Fulfils speed (Binary64.Player.audio w))
      as (Ht' & Hdu' & Hrate' & Hvol' & _).
    assert (Hdraw :
      Binary64.Player.drawVisualizer pg (Binary64.Player.withPlayAnswer (Rejects reason) inp)
        (Binary64.Player.analyser w) (Binary64.Player.canvas w)
        (Binary64.loopAudio Ignore (Rejects reason) speed (Binary64.Player.audio w)).1 speed
        (Binary64.Player.slideshow w)
      = Binary64.Player.drawVisualizer pg (Binary64.Player.withPlayAnswer Fulfils inp)
          (Binary64.Player.analyser w) (Binary64.Player.canvas w)
          (Binary64.loopAudio Ignore Fulfils speed (Binary64.Player.audio w)).1 speed
          (Binary64.Player.slideshow w)).
    { apply drawVisualizer_audio_binary64; try reflexivity; congruence. }
    cbv zeta in Hrate, Hvol, Hcall, Hprom, Hpaused, Ht, Hdu, Hrate', Hvol'.
    assert (Hdprom : promises (Binary64.Player.transport denied.2)
                     = (if (speed >? Number.lit 0.02)%num
                           && Binary64.paused (Binary64.Player.audio w)
                        then [ {| settlement := Rejected reason; onRejected := Some Ignore |} ]
                        else [])) by (by rewrite Hd).
    split; [exact Hthrown |]. split; [exact Hreq |].
    split; [by rewrite Hd |]. split; [exact Hdprom |].
    split; [rewrite Hdprom; by destruct (_ && _) |].
    split; [rewrite Hdprom; by destruct (_ && _) |].
    split; [by rewrite Hd, Hg |].
    split.
    { intros Hfast. rewrite Hd. cbn [fst Binary64.Player.audio].
      rewrite Hrate, Hvol, Hfast. split; reflexivity. }
    split; [rewrite Hd, Hg; cbn [fst Binary64.Player.audio]; congruence |].
    split; [rewrite Hd, Hg; cbn [fst Binary64.Player.audio]; congruence |].
    split; [rewrite Hd, Hg; cbn [snd Binary64.Player.drawing]; by rewrite Hdraw |].
    split; [rewrite Hd, Hg; cbn [fst Binary64.Player.slideshow]; by rewrite Hdraw |].
    split.
    { intros Hp. rewrite Hd. cbn [fst Binary64.Player.audio]. rewrite Hpaused, Hp.
      by destruct (_ >? _)%num. }
    intros inp' w' Haudio Hslides Hp Hfast.
    assert (Hp' : Binary64.paused (Binary64.Player.audio w') = true).
    { rewrite Haudio, Hd. cbn [fst Binary64.Player.audio]. rewrite Hpaused, Hp.
      by destruct (_ >? _)%num. }
    assert (Hfin' : Number.finite (Binary64.currentTime (Binary64.Player.audio w')) = true).
    { rewrite Haudio, Hd. cbn [fst Binary64.Player.audio]. by rewrite Ht. }
    destruct (loop_completes_binary64 pg inp' w') as (Hthrown' & _);
      [by rewrite Hslides | rewrite Hslides; lia | exact Hfin' |].
    split; [exact Hthrown' |].
    rewrite loop_unfold_binary64. cbn [snd Binary64.Player.transport].
    rewrite (proj1 (proj2 (proj2 (proj2 (proj2 (loopAudio_shape_binary64 _ _ _ _)))))).
    by rewrite Hfast, Hp'.
  - intros inp w reason Hready speed denied granted.
    pose proof (VoiceNoteApp_loop_unfold_binary64
                  (Binary64.VoiceNoteApp.withPlayAnswer (Rejects reason) inp) w) as Hd.
    pose proof (VoiceNoteApp_loop_unfold_binary64
                  (Binary64.VoiceNoteApp.withPlayAnswer Fulfils inp) w) as Hg.
    cbv zeta in Hd, Hg. cbn [Binary64.VoiceNoteApp.withPlayAnswer Binary64.VoiceNoteApp.time
                             Binary64.VoiceNoteApp.playAnswer] in Hd, Hg.
    fold speed in Hd, Hg. fold denied in Hd. fold granted in Hg.
    destruct (loopAudio_shape_binary64 (ConsoleLog VoiceNoteApp.playbackPrevented)
                (Rejects reason) speed (Binary64.VoiceNoteApp.audio w))
      as (Ht & Hdu & Hrate & Hvol & Hcall & Hprom & Hpaused).
    destruct (loopAudio_shape_binary64 (ConsoleLog VoiceNoteApp.playbackPrevented)
                Fulfils speed (Binary64.VoiceNoteApp.audio w))
      as (Ht' & Hdu' & Hrate' & Hvol' & _).
    cbv zeta in Hrate, Hvol, Hcall, Hprom, Hpaused, Ht, Hdu, Hrate', Hvol', Ht', Hdu'.
    assert (Hnothrow : ∀ inp0 a0, (Binary64.VoiceNoteApp.drawVisualizer inp0 w a0).2 = None).
    { intros inp0 a0. unfold Binary64.VoiceNoteApp.drawVisualizer.
      destruct (Binary64.VoiceNoteApp.isAudioSetup w) eqn:Hset; [| reflexivity].
      cbn [negb]. by destruct (Hready Hset) as [an ->]. }
    assert (Hdraw :
      Binary64.VoiceNoteApp.drawVisualizer
        (Binary64.VoiceNoteApp.withPlayAnswer (Rejects reason) inp) w
        (Binary64.loopAudio (ConsoleLog VoiceNoteApp.playbackPrevented) (Rejects reason) speed
           (Binary64.VoiceNoteApp.audio w)).1
      = Binary64.VoiceNoteApp.drawVisualizer
          (Binary64.VoiceNoteApp.withPlayAnswer Fulfils inp) w
          (Binary64.loopAudio (ConsoleLog VoiceNoteApp.playbackPrevented) Fulfils speed
             (Binary64.VoiceNoteApp.audio w)).1).
    { apply VoiceNoteApp_drawVisualizer_audio_binary64; try reflexivity; congruence. }
    assert (Hdprom :
      promises (Binary64.VoiceNoteApp.transport denied.2)
      = (if (speed >? Number.lit 0.02)%num && Binary64.paused (Binary64.VoiceNoteApp.audio w)
         then [ {| settlement := Rejected reason;
                   onRejected := Some (ConsoleLog VoiceNoteApp.playbackPrevented) |} ]
         else [])) by (by rewrite Hd).
    split; [rewrite Hd; cbn [snd Binary64.VoiceNoteApp.thrown]; apply Hnothrow |].
    split; [rewrite Hd; cbn [snd Binary64.VoiceNoteApp.animationFrameRequested];
            by rewrite Hnothrow |].
    split; [by rewrite Hd |]. split; [exact Hdprom |].
    split; [rewrite Hdprom; by destruct (_ && _) |].
    split; [rewrite Hdprom; by destruct (_ && _) |].
    split; [by rewrite Hd, Hg |].
    split.
    { intros Hfast. rewrite Hd. cbn [fst Binary64.VoiceNoteApp.audio].
      rewrite Hrate, Hvol, Hfast. split; reflexivity. }
    split; [rewrite Hd, Hg; cbn [fst Binary64.VoiceNoteApp.audio]; congruence |].
    split; [rewrite Hd, Hg; cbn [fst Binary64.VoiceNoteApp.audio]; congruence |].
    split; [rewrite Hd, Hg; cbn [snd Binary64.VoiceNoteApp.drawing]; by rewrite Hdraw |].
    split.
    { intros Hp. rewrite Hd. cbn [fst Binary64.VoiceNoteApp.audio]. rewrite Hpaused, Hp.
      by destruct (_ >? _)%num. }
    intros inp' w' Haudio Hready' Hp Hfast.
    assert (Hp' : Binary64.paused (Binary64.VoiceNoteApp.audio w') = true).
    { rewrite Haudio, Hd. cbn [fst Binary64.VoiceNoteApp.audio]. rewrite Hpaused, Hp.
      by destruct (_ >? _)%num. }
    rewrite VoiceNoteApp_loop_unfold_binary64.
    cbn [snd Binary64.VoiceNoteApp.thrown Binary64.VoiceNoteApp.transport]. split.
    + unfold Binary64.VoiceNoteApp.drawVisualizer.
      destruct (Binary64.VoiceNoteApp.isAudioSetup w') eqn:Hset; [| reflexivity].
      cbn [negb]. by destruct (Hready' Hset) as [an ->].
    + rewrite (proj1 (proj2 (proj2 (proj2 (proj2 (loopAudio_shape_binary64 _ _ _ _)))))).
      by rewrite Hfast, Hp'.
Qed.

Lemma loop_play_rejected_witness :
  Player.SlideshowReady
    (Binary64.Player.slideshow
       (Binary64.Player.mkWorld
          (Binary64.moveDrag (Number.lit 0.1) (Binary64.startDrag Binary64.zero
                                                 Binary64.initialCrank))
          (Binary64.mkAudio true (Number.ofZ 1) (Number.ofZ 1) (Number.ofZ 2) (Number.ofZ 8))
          None (Binary64.mkCanvas (Number.ofZ 300) (Number.ofZ 150))
          (Player.mkSlideshow [{["photo"; "active"]}; {["photo"]}] 0))) ∧
  Binary64.VoiceNoteApp.AnalyserReady
    (Binary64.VoiceNoteApp.mkWorld
       (Binary64.moveDrag (Number.lit 0.1) (Binary64.startDrag Binary64.zero
                                              Binary64.initialCrank))
       (Binary64.mkAudio true (Number.ofZ 1) (Number.ofZ 1) (Number.ofZ 2) (Number.ofZ 8))
       false None (Binary64.mkCanvas (Number.ofZ 300) (Number.ofZ 150))) ∧
  promises (Binary64.Player.transport
    (Binary64.Player.loop (Binary64.Player.mkPage true (λ _, Number.lit 0.5))
       (Binary64.Player.withPlayAnswer (Rejects "NotAllowedError")
          (Binary64.Player.mkFrameInput (Number.ofZ 16) Fulfils [] (λ _, Number.lit 0.25)))
       (Binary64.Player.mkWorld
          (Binary64.moveDrag (Number.lit 0.1) (Binary64.startDrag Binary64.zero
                                                 Binary64.initialCrank))
          (Binary64.mkAudio true (Number.ofZ 1) (Number.ofZ 1) (Number.ofZ 2) (Number.ofZ 8))
          None (Binary64.mkCanvas (Number.ofZ 300) (Number.ofZ 150))
          (Player.mkSlideshow [{["photo"; "active"]}; {["photo"]}] 0))).2)
  = [ {| settlement := Rejected "NotAllowedError"; onRejected := Some Ignore |} ] ∧
  consoleLines (promises (Binary64.VoiceNoteApp.transport
    (Binary64.VoiceNoteApp.loop
       (Binary64.VoiceNoteApp.withPlayAnswer (Rejects "NotAllowedError")
          (Binary64.VoiceNoteApp.mkFrameInput (Number.ofZ 16) Fulfils []))
       (Binary64.VoiceNoteApp.mkWorld
          (Binary64.moveDrag (Number.lit 0.1) (Binary64.startDrag Binary64.zero
                                                 Binary64.initialCrank))
          (Binary64.mkAudio true (Number.ofZ 1) (Number.ofZ 1) (Number.ofZ 2) (Number.ofZ 8))
          false None (Binary64.mkCanvas (Number.ofZ 300) (Number.ofZ 150)))).2))
  = [ "Playback prevented (waiting for interaction): NotAllowedError" ].
Proof.
  assert (Hready : Player.SlideshowReady
                     (Player.mkSlideshow [{["photo"; "active"]}; {["photo"]}] 0)).
  { right. cbn. lia. }
  assert (Hsize : Z.of_nat (length (Player.photos
                    (Player.mkSlideshow [{["photo"; "active"]}; {["photo"]}] 0))) < 2 ^ 53).
  { cbn. lia. }
  assert (Hanalyser : Binary64.VoiceNoteApp.AnalyserReady
            (Binary64.VoiceNoteApp.mkWorld
               (Binary64.moveDrag (Number.lit 0.1) (Binary64.startDrag Binary64.zero
                                                      Binary64.initialCrank))
               (Binary64.mkAudio true (Number.ofZ 1) (Number.ofZ 1) (Number.ofZ 2)
                  (Number.ofZ 8))
               false None (Binary64.mkCanvas (Number.ofZ 300) (Number.ofZ 150)))).
  { intros Hset. discriminate Hset. }
  split; [exact Hready |]. split; [exact Hanalyser |]. split.
  - destruct (proj1 loop_play_rejected (Binary64.Player.mkPage true (λ _, Number.lit 0.5))
                (Binary64.Player.mkFrameInput (Number.ofZ 16) Fulfils [] (λ _, Number.lit 0.25))
                (Binary64.Player.mkWorld
                   (Binary64.moveDrag (Number.lit 0.1) (Binary64.startDrag Binary64.zero
                                                          Binary64.initialCrank))
                   (Binary64.mkAudio true (Number.ofZ 1) (Number.ofZ 1) (Number.ofZ 2)
                      (Number.ofZ 8))
                   None (Binary64.mkCanvas (Number.ofZ 300) (Number.ofZ 150))
                   (Player.mkSlideshow [{["photo"; "active"]}; {["photo"]}] 0))
                "NotAllowedError" Hready Hsize eq_refl) as (_ & _ & _ & Hprom & _).
    exact Hprom.
  - destruct (proj2 loop_play_rejected
                (Binary64.VoiceNoteApp.mkFrameInput (Number.ofZ 16) Fulfils [])
                (Binary64.VoiceNoteApp.mkWorld
                   (Binary64.moveDrag (Number.lit 0.1) (Binary64.startDrag Binary64.zero
                                                          Binary64.initialCrank))
                   (Binary64.mkAudio true (Number.ofZ 1) (Number.ofZ 1) (Number.ofZ 2)
                      (Number.ofZ 8))
                   false None (Binary64.mkCanvas (Number.ofZ 300) (Number.ofZ 150)))
                "NotAllowedError" Hanalyser) as (_ & _ & _ & _ & _ & Hlines & _).
    exact Hlines.
Defined.

End Binary64Frames.

Section Binary64Progress.

(** X7.  The progress [drawVisualizer] computes is 0 while
    [audio.duration] is [NaN] or not above 0, and the quotient
    [currentTime / duration], as the host rounds it, otherwise.  For a
    finite [currentTime] it is never [NaN]; for an infinite duration (a
    stream) it is a zero. *)
Theorem progressOf_range :
  ∀ a : Binary64.Audio,
    (Number.isNaN (Binary64.duration a) = true → Binary64.progressOf a = Binary64.zero) ∧
    ((Binary64.duration a >? Binary64.zero)%num = false →
     Binary64.progressOf a = Binary64.zero) ∧
    ((Binary64.duration a >? Binary64.zero)%num = true →
     Binary64.progressOf a = (Binary64.currentTime a / Binary64.duration a)%num) ∧
    (Number.finite (Binary64.currentTime a) = true →
     Number.isNaN (Binary64.progressOf a) = false) ∧
    (Number.finite (Binary64.currentTime a) = true →
     Binary64.duration a = S754_infinity false →
     ∃ s, Binary64.progressOf a = S754_zero s).
Proof.
  intros a. unfold Binary64.progressOf.
  split; [| split; [| split; [| split]]].
  - intros Hnan. rewrite Hnan. by rewrite andb_false_r.
  - by intros ->.
  - intros Hpos. rewrite Hpos.
    assert (Hnum : Number.isNaN (Binary64.duration a) = false)
      by (by destruct (Binary64.duration a)).
    by rewrite Hnum.
  - apply progressOf_isNaN.
  - intros Hfin ->. cbn [andb negb Number.isNaN Number.gtb Number.ltb].
    change (Binary64.zero <? S754_infinity false)%num with true. cbv iota.
    destruct (Binary64.currentTime a) as [s | s | | s m e]; try discriminate Hfin;
      eexists; reflexivity.
Qed.

Lemma progressOf_range_witness :
  Number.finite (Number.ofZ 2) = true ∧
  Number.isNaN
    (Binary64.progressOf
       (Binary64.mkAudio true (Number.ofZ 1) (Number.ofZ 1) (Number.ofZ 2) (Number.ofZ 8)))
  = false.
Proof.
  split; [reflexivity |].
  exact (proj1 (proj2 (proj2 (proj2 (progressOf_range
           (Binary64.mkAudio true (Number.ofZ 1) (Number.ofZ 1) (Number.ofZ 2)
              (Number.ofZ 8)))))) eq_refl).
Defined.

End Binary64Progress.

Section Binary64Bars.





End Binary64Bars.

(** ** Worked frames in binary64 *)

(** Across the seam: the drag starts at 3.1 and moves to -3.1. *)
Example seam_move :
  Binary64.currentAngle
    (Binary64.moveDrag (Number.lit (-3.1)) (Binary64.startDrag (Number.lit 3.1)
                                              Binary64.initialCrank))
  = (Number.lit (-6.2) + Number.Math_PI * Number.ofZ 2)%num ∧
  Binary64.velocity
    (Binary64.moveDrag (Number.lit (-3.1)) (Binary64.startDrag (Number.lit 3.1)
                                              Binary64.initialCrank))
  = ((Number.lit (-6.2) + Number.Math_PI * Number.ofZ 2) * Number.ofZ 5)%num.
Proof. split; vm_compute; reflexivity. Qed.

(** A frame with the crank held at velocity 0.3: [play()] is called and
    granted, the rate is 1.4 and the volume 1. *)
Example held_frame :
  let w := Binary64.Player.mkWorld
             (Binary64.mkCrank true Binary64.zero Binary64.zero (Number.lit 0.3)
                Binary64.zero Binary64.zero)
             (Binary64.mkAudio true (Number.ofZ 1) (Number.ofZ 1) Binary64.zero Number.NaN)
             None (Binary64.mkCanvas (Number.ofZ 300) (Number.ofZ 150))
             (Player.mkSlideshow [] 0) in
  let r := Binary64.Player.loop (Binary64.Player.mkPage true (λ _, Number.lit 0.5))
             (Binary64.Player.mkFrameInput (Number.ofZ 16) Fulfils [] (λ _, Number.lit 0.25))
             w in
  called (Binary64.Player.transport r.2) = Some CallPlay ∧
  Binary64.paused (Binary64.Player.audio r.1) = false ∧
  Binary64.playbackRate (Binary64.Player.audio r.1) = Number.lit 1.4 ∧
  Binary64.volume (Binary64.Player.audio r.1) = Number.ofZ 1 ∧
  Binary64.Player.animationFrameRequested r.2 = true.
Proof. vm_compute. repeat split; reflexivity. Qed.

(** Released at velocity 0.5, the crank coasts: 0.475 after one frame,
    0.45125 after two, and it is at rest after 122 frames, not sooner. *)
Example coasting :
  let c := Binary64.mkCrank false Binary64.zero Binary64.zero (Number.lit 0.5)
             Binary64.zero Binary64.zero in
  Binary64.velocity (Binary64.coast [Number.ofZ 16] c) = Number.lit 0.475 ∧
  Binary64.velocity (Binary64.coast [Number.ofZ 16; Number.ofZ 32] c) = Number.lit 0.45125 ∧
  Binary64.velocity (Binary64.coast (replicate 121 (Number.ofZ 16)) c) ≠ Binary64.zero ∧
  Binary64.velocity (Binary64.coast (replicate 122 (Number.ofZ 16)) c) = Binary64.zero.
Proof.
  vm_compute. split; [reflexivity |]. split; [reflexivity |]. split; [discriminate | reflexivity].
Qed.

(** At the speed next above the binary64 0.1 the rate is still 0.8. *)
Example rate_at_a_tenth :
  Binary64.rateOf (S754_finite false 7205759403792795 (-56)) = Number.lit 0.8.
Proof. vm_compute. reflexivity. Qed.
